(** * PBL-2-redes: the distributed coordination core, embedded in Rocq

    The regional game servers of the repository share one Redis instance
    (the coordination store) and run a Two-Phase Commit over HTTP among
    themselves.  This file embeds

    - [modelos.py]: the pydantic records;
    - [servico_coordenacao.py]: the Redis-backed store and its optimistic
      stock operations;
    - [servico_2pc.py]: card generation, participant handlers and the two
      coordinators;
    - [main.py]: the client-facing endpoints and the UDP latency listener;

    and states the properties of the specification over these definitions. *)

From stdpp Require Import gmap strings list fin_maps pretty.
From Stdlib Require Import ZArith Ascii String.

Local Open Scope string_scope.
Local Open Scope list_scope.
Local Open Scope Z_scope.

(** ** modelos.py *)

Record Carta := mkCarta {
  id_carta : string;
  nome : string;
  tipo : string;
  skin : string;
  raridade : string
}.

(** [Jogador.ping_udp] is always left at its default [None] by the servers
    and is a float; it is not part of the record here. *)
Record Jogador := mkJogador {
  jog_id_jogador : string;
  jog_nome : string;
  servidor_local : string
}.

Record Inventario := mkInventario {
  id_jogador : string;
  cartas : list Carta;
  pacotes_disponiveis : Z
}.

Record EstoqueGlobal := mkEstoqueGlobal {
  pacotes_restantes : Z
}.

Record DetalhesTroca := mkDetalhesTroca {
  id_jogador_a : string;
  id_carta_a : string;
  id_jogador_b : string;
  id_carta_b : string
}.

(** [Transacao2PC.dados] is an untyped [Dict]; the two shapes the
    coordinators build are kept apart by a constructor, and reading a key
    that the dictionary at hand does not have raises (see [Erro]). *)
Inductive Dados :=
| DadosPacote (dp_id_jogador : string) (quantidade_pacotes : Z)
| DadosTroca (detalhes : DetalhesTroca).

Record Transacao2PC := mkTransacao2PC {
  id_transacao : string;
  coordenador_url : string;
  tipo_operacao : string;
  status : string;
  dados : Dados
}.

Record Voto2PC := mkVoto2PC {
  voto_id_transacao : string;
  voto_servidor_url : string;
  voto : string;
  mensagem : option string
}.

Record Resultado2PC := mkResultado2PC {
  res_id_transacao : string;
  res_servidor_url : string;
  decisao : string
}.

#[global] Instance Carta_eq_dec : EqDecision Carta.
Proof. solve_decision. Defined.
#[global] Instance Inventario_eq_dec : EqDecision Inventario.
Proof. solve_decision. Defined.
#[global] Instance DetalhesTroca_eq_dec : EqDecision DetalhesTroca.
Proof. solve_decision. Defined.
#[global] Instance Dados_eq_dec : EqDecision Dados.
Proof. solve_decision. Defined.

(** Pydantic defaults. *)
Definition Inventario_novo (id : string) (pacotes : Z) : Inventario :=
  {| id_jogador := id; cartas := []; pacotes_disponiveis := pacotes |}.

Definition EstoqueGlobal_padrao : EstoqueGlobal :=
  {| pacotes_restantes := 50 |}.

(** ** servico_2pc.py: card generation

    [gerar_carta] draws from Python's process-wide [random] generator, which
    nobody seeds.  The draws a call consumes are an input of the model: a
    [Gerador] lists the raw draws, [random.choice seq] takes the element at
    the draw reduced modulo [len seq], and [random.randint 1000 9999] lands
    at [1000 + draw mod 9000]. *)

Definition Gerador := nat → N.

Definition escolher (padrao : string) (opcoes : list string) (sorteio : N) : string :=
  default padrao (opcoes !! N.to_nat (sorteio mod N.of_nat (List.length opcoes))%N).

Definition maiuscula (c : ascii) : ascii :=
  let n := nat_of_ascii c in
  if bool_decide (97 ≤ n ≤ 122)%nat then ascii_of_nat (n - 32) else c.

Definition minuscula (c : ascii) : ascii :=
  let n := nat_of_ascii c in
  if bool_decide (65 ≤ n ≤ 90)%nat then ascii_of_nat (n + 32) else c.

Fixpoint minusculas (s : string) : string :=
  match s with
  | EmptyString => EmptyString
  | String c r => String (minuscula c) (minusculas r)
  end.

(** [str.capitalize] on ASCII text. *)
Definition capitalize (s : string) : string :=
  match s with
  | EmptyString => EmptyString
  | String c r => String (maiuscula c) (minusculas r)
  end.

Definition tipos : list string := ["pedra"; "papel"; "tesoura"].

Definition skins (t : string) : list string :=
  if decide (t = "pedra") then ["Rocha Vulcânica"; "Mármore Polido"; "Seixo de Rio"]
  else if decide (t = "papel") then ["Papiro Antigo"; "Jornal Velho"; "Nota de Dólar"]
  else ["Lâmina Afiada"; "Tesoura de Jardim"; "Navalha de Barbeiro"].

Definition raridades : list string :=
  ["Comum"; "Comum"; "Comum"; "Rara"; "Rara"; "Épica"; "Lendária"].

(** [gerar_carta] reads four draws, starting at position [pos] of the
    generator: kind, skin, rarity, then the number of the card id.  Its
    argument [id_jogador] is ignored, as in the source. *)
Definition gerar_carta (g : Gerador) (pos : nat) (id_jogador : string) : Carta :=
  let tipo_escolhido := escolher "" tipos (g pos) in
  let skin_escolhida := escolher "" (skins tipo_escolhido) (g (pos + 1)%nat) in
  let raridade_escolhida := escolher "" raridades (g (pos + 2)%nat) in
  {| id_carta := "CARTA-" +:+ pretty (1000 + g (pos + 3)%nat mod 9000)%N;
     nome := capitalize tipo_escolhido +:+ " (" +:+ skin_escolhida +:+ ")";
     tipo := tipo_escolhido;
     skin := skin_escolhida;
     raridade := raridade_escolhida |}.

Definition simular_abertura_pacote (g : Gerador) (id_jogador : string) : list Carta :=
  (λ k : nat, gerar_carta g (4 * k) id_jogador) <$> seq 0 3.

(** ** servico_coordenacao.py: the coordination store

    One Redis instance is shared by every server.  Its three key families
    ([estoque_global], [inventario:<id>], [transacao_2pc:<id>]) are three
    fields; values are stored as JSON and decoded back into the same
    record, so the fields hold the records themselves. *)

Record Redis := mkRedis {
  estoque_global : option EstoqueGlobal;
  inventarios : gmap string Inventario;
  transacoes : gmap string Transacao2PC
}.

Definition get_estoque_global (r : Redis) : EstoqueGlobal :=
  default EstoqueGlobal_padrao (estoque_global r).

Definition set_estoque_global (e : EstoqueGlobal) (r : Redis) : Redis :=
  {| estoque_global := Some e;
     inventarios := inventarios r;
     transacoes := transacoes r |}.

(** [ServicoCoordenacao.__init__]: the stock key is created on first
    start-up only. *)
Definition ServicoCoordenacao_init (r : Redis) : Redis :=
  match estoque_global r with
  | Some _ => r
  | None => set_estoque_global EstoqueGlobal_padrao r
  end.

Definition get_inventario (id : string) (r : Redis) : option Inventario :=
  inventarios r !! id.

Definition set_inventario (inv : Inventario) (r : Redis) : Redis :=
  {| estoque_global := estoque_global r;
     inventarios := <[id_jogador inv := inv]> (inventarios r);
     transacoes := transacoes r |}.

Definition get_transacao (id : string) (r : Redis) : option Transacao2PC :=
  transacoes r !! id.

Definition set_transacao (tx : Transacao2PC) (r : Redis) : Redis :=
  {| estoque_global := estoque_global r;
     inventarios := inventarios r;
     transacoes := <[id_transacao tx := tx]> (transacoes r) |}.

Definition remover_transacao (id : string) (r : Redis) : Redis :=
  {| estoque_global := estoque_global r;
     inventarios := inventarios r;
     transacoes := delete id (transacoes r) |}.

(** The WATCH/MULTI/EXEC loop.  [interferencias] lists the stock values
    that other clients write between this client's WATCH and its EXEC, one
    per attempt that reaches EXEC: each makes [pipe.execute] raise
    [WatchError] and the loop starts over on the value then stored.  With
    no interference left the EXEC goes through.  The store answers every
    command, so the catch-all [except Exception] branch has no counterpart. *)
Fixpoint decrementar_estoque_atomico
    (interferencias : list Z) (quantidade : Z) (r : Redis) : bool * Redis :=
  let estoque_atual := get_estoque_global r in
  if bool_decide (pacotes_restantes estoque_atual < quantidade) then (false, r)
  else
    match interferencias with
    | [] =>
        (true,
         set_estoque_global
           {| pacotes_restantes := pacotes_restantes estoque_atual - quantidade |} r)
    | w :: resto =>
        decrementar_estoque_atomico resto quantidade
          (set_estoque_global {| pacotes_restantes := w |} r)
    end.

Fixpoint incrementar_estoque_atomico
    (interferencias : list Z) (quantidade : Z) (r : Redis) : bool * Redis :=
  let estoque_atual := get_estoque_global r in
  match interferencias with
  | [] =>
      (true,
       set_estoque_global
         {| pacotes_restantes := pacotes_restantes estoque_atual + quantidade |} r)
  | w :: resto =>
      incrementar_estoque_atomico resto quantidade
        (set_estoque_global {| pacotes_restantes := w |} r)
  end.

(** ** Effects

    A Python method either returns or raises, and mutates the objects it
    holds on the way.  [Acao S A] is a computation over a state [S] that
    ends in [Retorna a] or in [Levanta e]; the state reached when an
    exception leaves the method is kept. *)

Inductive Erro :=
| KeyError
| ValidationError
| ConnectionError
| HTTPError (status_code : Z)
| TypeError.

Inductive Resultado (A : Type) : Type :=
| Retorna (a : A)
| Levanta (e : Erro).
Arguments Retorna {A} a.
Arguments Levanta {A} e.

Definition Acao (S A : Type) : Type := S → Resultado A * S.

#[global] Instance Acao_ret {S} : MRet (Acao S) :=
  λ A a s, (Retorna a, s).

#[global] Instance Acao_bind {S} : MBind (Acao S) :=
  λ A B f m s,
    match m s with
    | (Retorna a, s') => f a s'
    | (Levanta e, s') => (Levanta e, s')
    end.

Definition levantar {S A} (e : Erro) : Acao S A := λ s, (Levanta e, s).
Definition ler {S} : Acao S S := λ s, (Retorna s, s).
Definition gravar {S} (f : S → S) : Acao S () := λ s, (Retorna (), f s).

Definition estado_final {S A} (x : Resultado A * S) : S := x.2.
Definition retorno {S A} (x : Resultado A * S) : Resultado A := x.1.

(** ** servico_2pc.py: the [Servico2PC] object *)

Record Servico2PC := mkServico2PC {
  url_local : string;
  servidores_jogo : list string;
  transacoes_em_andamento : gmap string Transacao2PC
}.

Definition outros_servidores (svc : Servico2PC) : list string :=
  filter (λ url, url ≠ url_local svc) (servidores_jogo svc).

(** What a method of [Servico2PC] can touch: its own object and the store
    behind [self.servico_coordenacao]. *)
Record Contexto := mkContexto {
  self : Servico2PC;
  servico_coordenacao : Redis
}.

Definition com_em_andamento
    (f : gmap string Transacao2PC → gmap string Transacao2PC) (c : Contexto) : Contexto :=
  {| self := {| url_local := url_local (self c);
                servidores_jogo := servidores_jogo (self c);
                transacoes_em_andamento := f (transacoes_em_andamento (self c)) |};
     servico_coordenacao := servico_coordenacao c |}.

Definition com_coordenacao (f : Redis → Redis) (c : Contexto) : Contexto :=
  {| self := self c; servico_coordenacao := f (servico_coordenacao c) |}.

(** [self.transacoes_em_andamento[id] = transacao] *)
Definition em_andamento_guardar (transacao : Transacao2PC) : Acao Contexto () :=
  gravar (com_em_andamento (insert (id_transacao transacao) transacao)).

(** [self.transacoes_em_andamento.pop(id, None)] *)
Definition em_andamento_pop (id : string) : Acao Contexto (option Transacao2PC) :=
  λ c, (Retorna (transacoes_em_andamento (self c) !! id),
        com_em_andamento (delete id) c).

(** A read of the store, a write to it, and an atomic stock operation. *)
Definition consultar {A} (f : Redis → A) : Acao Contexto A :=
  λ c, (Retorna (f (servico_coordenacao c)), c).

Definition persistir (f : Redis → Redis) : Acao Contexto () :=
  gravar (com_coordenacao f).

Definition operar {A} (f : Redis → A * Redis) : Acao Contexto A :=
  λ c, let '(a, r) := f (servico_coordenacao c) in
       (Retorna a, com_coordenacao (λ _, r) c).

(** Reading the keys [id_jogador] and [quantidade_pacotes] of
    [transacao.dados], and building a [DetalhesTroca] from the whole
    dictionary. *)
Definition dados_id_jogador {S} (transacao : Transacao2PC) : Acao S string :=
  match dados transacao with
  | DadosPacote id _ => mret id
  | DadosTroca _ => levantar KeyError
  end.

Definition dados_quantidade_pacotes {S} (transacao : Transacao2PC) : Acao S Z :=
  match dados transacao with
  | DadosPacote _ q => mret q
  | DadosTroca _ => levantar KeyError
  end.

Definition dados_detalhes_troca {S} (transacao : Transacao2PC) : Acao S DetalhesTroca :=
  match dados transacao with
  | DadosTroca d => mret d
  | DadosPacote _ _ => levantar ValidationError
  end.

Definition VOTE_COMMIT : string := "VOTE_COMMIT".
Definition VOTE_ABORT : string := "VOTE_ABORT".
Definition GLOBAL_COMMIT : string := "GLOBAL_COMMIT".
Definition GLOBAL_ABORT : string := "GLOBAL_ABORT".

(** In-place updates of an [Inventario] object. *)
Definition com_cartas (cs : list Carta) (inv : Inventario) : Inventario :=
  {| id_jogador := id_jogador inv;
     cartas := cs;
     pacotes_disponiveis := pacotes_disponiveis inv |}.

Definition com_pacotes (n : Z) (inv : Inventario) : Inventario :=
  {| id_jogador := id_jogador inv;
     cartas := cartas inv;
     pacotes_disponiveis := n |}.

(** [inventario.cartas.extend(novas)] *)
Definition cartas_extend (novas : list Carta) (inv : Inventario) : Inventario :=
  com_cartas (cartas inv ++ novas) inv.

(** [inventario.cartas.append(c)] *)
Definition cartas_append (c : Carta) (inv : Inventario) : Inventario :=
  com_cartas (cartas inv ++ [c]) inv.

(** [list.remove]: the first element equal to [c] goes. *)
Fixpoint remover_primeira (c : Carta) (l : list Carta) : list Carta :=
  match l with
  | [] => []
  | x :: r => if decide (x = c) then r else x :: remover_primeira c r
  end.

(** [inventario.cartas.remove(c)] *)
Definition cartas_remove (c : Carta) (inv : Inventario) : Inventario :=
  com_cartas (remover_primeira c (cartas inv)) inv.

(** [any(c.id_carta == id for c in inventario.cartas)] *)
Definition possui_carta (id : string) (inv : Inventario) : bool :=
  existsb (λ c, bool_decide (id_carta c = id)) (cartas inv).

(** [next((c for c in inventario.cartas if c.id_carta == id), None)] *)
Definition procurar_carta (id : string) (inv : Inventario) : option Carta :=
  List.find (λ c, bool_decide (id_carta c = id)) (cartas inv).

(** *** Participant: abertura de pacote *)

Definition _participante_prepare_abrir_pacote_logica
    (transacao : Transacao2PC) : Acao Contexto Voto2PC :=
  let id := id_transacao transacao in
  em_andamento_guardar transacao ;;
  persistir (set_transacao transacao) ;;
  quantidade ← dados_quantidade_pacotes transacao ;
  reservado ← operar (decrementar_estoque_atomico [] quantidade) ;
  c ← ler ;
  if negb reservado then
    mret {| voto_id_transacao := id;
            voto_servidor_url := url_local (self c);
            voto := VOTE_ABORT;
            mensagem := Some "Estoque global esgotado ou conflito de concorrência." |}
  else
    mret {| voto_id_transacao := id;
            voto_servidor_url := url_local (self c);
            voto := VOTE_COMMIT;
            mensagem := None |}.

Definition participante_prepare_abrir_pacote := _participante_prepare_abrir_pacote_logica.

(** The transaction a decision refers to: the local cache first (the entry
    is popped), the store second. *)
Definition localizar_transacao (id : string) : Acao Contexto (option Transacao2PC) :=
  em_cache ← em_andamento_pop id ;
  match em_cache with
  | Some transacao => mret (Some transacao)
  | None => consultar (get_transacao id)
  end.

Definition _participante_commit_abort_abrir_pacote_logica
    (g : Gerador) (resultado : Resultado2PC) : Acao Contexto () :=
  let id := res_id_transacao resultado in
  achada ← localizar_transacao id ;
  match achada with
  | None => mret ()
  | Some transacao =>
      jogador ← dados_id_jogador transacao ;
      (if decide (decisao resultado = GLOBAL_COMMIT) then
         lido ← consultar (get_inventario jogador) ;
         let inventario := default (Inventario_novo jogador 0) lido in
         let cartas_obtidas := simular_abertura_pacote g jogador in
         persistir (set_inventario (cartas_extend cartas_obtidas inventario))
       else if decide (decisao resultado = GLOBAL_ABORT) then
         quantidade ← dados_quantidade_pacotes transacao ;
         operar (incrementar_estoque_atomico [] quantidade) ;;
         mret ()
       else mret ()) ;;
      persistir (remover_transacao id)
  end.

Definition participante_commit_abort_abrir_pacote := _participante_commit_abort_abrir_pacote_logica.

(** *** Participant: troca de cartas *)

Definition _participante_prepare_troca_cartas_logica
    (transacao : Transacao2PC) : Acao Contexto Voto2PC :=
  let id := id_transacao transacao in
  em_andamento_guardar transacao ;;
  persistir (set_transacao transacao) ;;
  detalhes ← dados_detalhes_troca transacao ;
  inventario_a ← consultar (get_inventario (id_jogador_a detalhes)) ;
  inventario_b ← consultar (get_inventario (id_jogador_b detalhes)) ;
  c ← ler ;
  if match inventario_a with
     | Some inv => negb (possui_carta (id_carta_a detalhes) inv)
     | None => false
     end
  then
    mret {| voto_id_transacao := id;
            voto_servidor_url := url_local (self c);
            voto := VOTE_ABORT;
            mensagem := Some ("Jogador A não possui a carta "
                              +:+ id_carta_a detalhes +:+ ".") |}
  else if match inventario_b with
          | Some inv => negb (possui_carta (id_carta_b detalhes) inv)
          | None => false
          end
  then
    mret {| voto_id_transacao := id;
            voto_servidor_url := url_local (self c);
            voto := VOTE_ABORT;
            mensagem := Some ("Jogador B não possui a carta "
                              +:+ id_carta_b detalhes +:+ ".") |}
  else
    mret {| voto_id_transacao := id;
            voto_servidor_url := url_local (self c);
            voto := VOTE_COMMIT;
            mensagem := None |}.

Definition participante_prepare_troca_cartas := _participante_prepare_troca_cartas_logica.

(** The swap of the commit branch.  The two inventories are two objects
    decoded from the store one after the other, also when both keys are the
    same; each is updated on its own and written back, A first, B second. *)
Definition trocar (detalhes : DetalhesTroca) : Acao Contexto () :=
  inventario_a ← consultar (get_inventario (id_jogador_a detalhes)) ;
  inventario_b ← consultar (get_inventario (id_jogador_b detalhes)) ;
  match inventario_a, inventario_b with
  | Some inv_a, Some inv_b =>
      match procurar_carta (id_carta_a detalhes) inv_a,
            procurar_carta (id_carta_b detalhes) inv_b with
      | Some carta_a, Some carta_b =>
          let inv_a := cartas_remove carta_a inv_a in
          let inv_b := cartas_remove carta_b inv_b in
          let inv_a := cartas_append carta_b inv_a in
          let inv_b := cartas_append carta_a inv_b in
          persistir (set_inventario inv_a) ;;
          persistir (set_inventario inv_b)
      | _, _ => mret ()
      end
  | _, _ => mret ()
  end.

Definition _participante_commit_abort_troca_cartas_logica
    (resultado : Resultado2PC) : Acao Contexto () :=
  let id := res_id_transacao resultado in
  achada ← localizar_transacao id ;
  match achada with
  | None => mret ()
  | Some transacao =>
      detalhes ← dados_detalhes_troca transacao ;
      (if decide (decisao resultado = GLOBAL_COMMIT) then trocar detalhes
       else mret ()) ;;
      persistir (remover_transacao id)
  end.

Definition participante_commit_abort_troca_cartas := _participante_commit_abort_troca_cartas_logica.

(** ** The servers and the network between them

    A server process holds the globals of [main.py]: its name and its
    [Servico2PC] object.  A [Sistema] is the shared store together with the
    servers, indexed by the base URL under which each is reached. *)

Record Servidor := mkServidor {
  NOME_SERVIDOR : string;
  servico_2pc : Servico2PC
}.

Record Sistema := mkSistema {
  redis : Redis;
  servidores : gmap string Servidor
}.

(** Runs a method of the [Servico2PC] object of [servidor] against the
    shared store and files the object and the store back. *)
Definition executar_em {A} (url : string) (servidor : Servidor)
    (metodo : Acao Contexto A) : Acao Sistema A :=
  λ s, let '(res, c) :=
         metodo {| self := servico_2pc servidor; servico_coordenacao := redis s |} in
       (res, {| redis := servico_coordenacao c;
                servidores :=
                  <[url := {| NOME_SERVIDOR := NOME_SERVIDOR servidor;
                              servico_2pc := self c |}]> (servidores s) |}).

(** A call at the server deployed under [url]; nobody listening there is a
    refused connection. *)
Definition em_no {A} (url : string) (metodo : Acao Contexto A) : Acao Sistema A :=
  λ s, match servidores s !! url with
       | Some servidor => executar_em url servidor metodo s
       | None => (Levanta ConnectionError, s)
       end.

Definition ler_self : Acao Contexto Servico2PC := c ← ler ; mret (self c).

(** What the network does to one HTTP exchange. *)
Inductive Entrega :=
| Entregue           (* request and reply both arrive *)
| PerdidaNaIda       (* the request never reaches the peer *)
| PerdidaNaVolta.    (* the peer handles the request, the reply is lost or late *)

(** The inputs a request takes from outside the program: the UUID it
    draws, the fate of the i-th prepare and of the i-th decision message
    it sends, and the random draws of each server process. *)
Record Ambiente := mkAmbiente {
  uuid4 : string;
  rede_prepare : nat → Entrega;
  rede_decisao : nat → Entrega;
  random : string → Gerador
}.

Record Response (A : Type) := mkResponse {
  status_code : Z;
  json : option A
}.
Arguments mkResponse {A} _ _.
Arguments status_code {A} _.
Arguments json {A} _.

(** [requests.post(url + endpoint, ...)] against a peer whose route table
    maps the endpoint to [handler] ([None]: no such route).  An exception
    in the handler is answered with status 500 by the framework. *)
Definition requests_post {A} (entrega : Entrega) (servidor_url : string)
    (handler : option (Acao Contexto A)) : Acao Sistema (Response A) :=
  λ s,
    match entrega, servidores s !! servidor_url with
    | PerdidaNaIda, _ | _, None => (Levanta ConnectionError, s)
    | _, Some servidor =>
        match handler with
        | None =>
            (match entrega with
             | Entregue => Retorna (mkResponse 404 None)
             | _ => Levanta ConnectionError
             end, s)
        | Some metodo =>
            let '(res, s') := executar_em servidor_url servidor metodo s in
            (match entrega, res with
             | Entregue, Retorna a => Retorna (mkResponse 200 (Some a))
             | Entregue, Levanta _ => Retorna (mkResponse 500 None)
             | _, _ => Levanta ConnectionError
             end, s')
        end
    end.

Definition raise_for_status {S A} (response : Response A) : Acao S () :=
  if (400 <=? status_code response)%Z then levantar (HTTPError (status_code response))
  else mret ().

(** [except requests.exceptions.RequestException] *)
Definition RequestException (e : Erro) : bool :=
  match e with
  | ConnectionError | HTTPError _ => true
  | KeyError | ValidationError | TypeError => false
  end.

Definition try_except {S A} (corpo : Acao S A) (captura : Erro → bool)
    (tratador : Acao S A) : Acao S A :=
  λ s, match corpo s with
       | (Retorna a, s') => (Retorna a, s')
       | (Levanta e, s') => if captura e then tratador s' else (Levanta e, s')
       end.

(** Peer-facing routes of [main.py]. *)
Definition rota_prepare (endpoint : string)
    : option (Transacao2PC → Acao Contexto Voto2PC) :=
  if decide (endpoint = "/transacao/abrir_pacote/prepare")
  then Some participante_prepare_abrir_pacote
  else if decide (endpoint = "/inventario/troca/prepare")
  then Some participante_prepare_troca_cartas
  else None.

Definition rota_commit_abort (endpoint : string)
    : option (Gerador → Resultado2PC → Acao Contexto ()) :=
  if decide (endpoint = "/transacao/abrir_pacote/commit_abort")
  then Some participante_commit_abort_abrir_pacote
  else if decide (endpoint = "/inventario/troca/commit_abort")
  then Some (λ _, participante_commit_abort_troca_cartas)
  else None.

Definition _enviar_prepare (entrega : Entrega) (servidor_url : string)
    (transacao : Transacao2PC) (endpoint : string) : Acao Sistema (option Voto2PC) :=
  try_except
    (response ← requests_post entrega servidor_url
                  ((λ h, h transacao) <$> rota_prepare endpoint) ;
     raise_for_status response ;;
     mret (json response))
    RequestException
    (mret None).

Definition _enviar_decisao (entrega : Entrega) (g : Gerador) (servidor_url : string)
    (resultado : Resultado2PC) (endpoint : string) : Acao Sistema () :=
  try_except
    (requests_post entrega servidor_url
       ((λ h, h g resultado) <$> rota_commit_abort endpoint) ;;
     mret ())
    RequestException
    (mret ()).

Fixpoint enviar_decisoes (amb : Ambiente) (i : nat) (destinos : list string)
    (resultado : Resultado2PC) (endpoint : string) : Acao Sistema () :=
  match destinos with
  | [] => mret ()
  | servidor_url :: resto =>
      _enviar_decisao (rede_decisao amb i) (random amb servidor_url)
        servidor_url resultado endpoint ;;
      enviar_decisoes amb (S i) resto resultado endpoint
  end.

(** [self.transacoes_em_andamento.get(id)], then the store. *)
Definition buscar_transacao (id : string) : Acao Contexto (option Transacao2PC) :=
  c ← ler ;
  match transacoes_em_andamento (self c) !! id with
  | Some transacao => mret (Some transacao)
  | None => consultar (get_transacao id)
  end.

Definition _finalizar_transacao_generica (amb : Ambiente) (eu : string)
    (id : string) (decisao_final : string) (endpoint_commit_abort : string)
    : Acao Sistema () :=
  achada ← em_no eu (buscar_transacao id) ;
  match achada with
  | None => mret ()
  | Some transacao =>
      svc ← em_no eu ler_self ;
      let resultado_local :=
        {| res_id_transacao := id;
           res_servidor_url := url_local svc;
           decisao := decisao_final |} in
      (if decide (tipo_operacao transacao = "abrir_pacote") then
         em_no eu (_participante_commit_abort_abrir_pacote_logica
                     (random amb eu) resultado_local)
       else if decide (tipo_operacao transacao = "troca_cartas") then
         em_no eu (_participante_commit_abort_troca_cartas_logica resultado_local)
       else mret ()) ;;
      enviar_decisoes amb 0 (outros_servidores svc) resultado_local
        endpoint_commit_abort ;;
      em_no eu (em_andamento_pop id) ;;
      em_no eu (persistir (remover_transacao id))
  end.

(** *** Coordinators

    The Python methods return a [bool], the field [sucesso].  The other
    two fields are a trace that the model keeps of the call and the source
    does not have: the decision handed to [_finalizar_transacao_generica]
    and the votes the coordinator received, in the order received ([None]:
    [_enviar_prepare] returned [None]).  What a coordinator does with the
    votes is stated against the prepares themselves, run as the coordinator
    runs them ([votos_dos_prepares], [primeiro_prepare_troca]), and against
    what the coordinator meets ([todos_respondem], [posse_em_ordem]). *)

Record Desfecho := mkDesfecho {
  sucesso : bool;
  decisao_global : string;
  votos : list (option Voto2PC)
}.

(** [voto and voto.voto == "VOTE_COMMIT"] *)
Definition votou_commit (v : option Voto2PC) : bool :=
  match v with
  | Some v => bool_decide (voto v = VOTE_COMMIT)
  | None => false
  end.

(** The loop over the remote participants of an open-pack transaction.  It
    stops at the first vote that is not a commit; [votos_commit] is the
    counter of the source. *)
Fixpoint votos_remotos_abrir_pacote (amb : Ambiente) (i : nat)
    (destinos : list string) (transacao : Transacao2PC)
    (votos_commit : Z) (recebidos : list (option Voto2PC))
    : Acao Sistema (bool * Z * list (option Voto2PC)) :=
  match destinos with
  | [] => mret (true, votos_commit, recebidos)
  | servidor_url :: resto =>
      voto_remoto ← _enviar_prepare (rede_prepare amb i) servidor_url transacao
                      "/transacao/abrir_pacote/prepare" ;
      if votou_commit voto_remoto then
        votos_remotos_abrir_pacote amb (S i) resto transacao
          (votos_commit + 1) (recebidos ++ [voto_remoto])%list
      else mret (false, votos_commit, (recebidos ++ [voto_remoto])%list)
  end.

Definition iniciar_transacao_abertura_pacote (amb : Ambiente) (eu : string)
    (jogador : string) : Acao Sistema Desfecho :=
  svc ← em_no eu ler_self ;
  let id := uuid4 amb in
  let transacao :=
    {| id_transacao := id;
       coordenador_url := url_local svc;
       tipo_operacao := "abrir_pacote";
       status := "PREPARAR";
       dados := DadosPacote jogador 1 |} in
  let endpoint := "/transacao/abrir_pacote/commit_abort" in
  em_no eu (em_andamento_guardar transacao) ;;
  em_no eu (persistir (set_transacao transacao)) ;;
  voto_local ← em_no eu (_participante_prepare_abrir_pacote_logica transacao) ;
  if bool_decide (voto voto_local = VOTE_COMMIT) then
    '(todos, votos_commit, recebidos) ←
       votos_remotos_abrir_pacote amb 0 (outros_servidores svc) transacao
         1 [Some voto_local] ;
    if (todos : bool) then
      if bool_decide (votos_commit = Z.of_nat (List.length (servidores_jogo svc))) then
        _finalizar_transacao_generica amb eu id GLOBAL_COMMIT endpoint ;;
        mret (mkDesfecho true GLOBAL_COMMIT recebidos)
      else
        _finalizar_transacao_generica amb eu id GLOBAL_ABORT endpoint ;;
        mret (mkDesfecho false GLOBAL_ABORT recebidos)
    else
      _finalizar_transacao_generica amb eu id GLOBAL_ABORT endpoint ;;
      mret (mkDesfecho false GLOBAL_ABORT recebidos)
  else
    _finalizar_transacao_generica amb eu id GLOBAL_ABORT endpoint ;;
    mret (mkDesfecho false GLOBAL_ABORT [Some voto_local]).

(** The loop of the trade coordinator runs over the whole server list; the
    local server is asked through a method call, the others over HTTP. *)
Fixpoint votos_troca_cartas (amb : Ambiente) (eu : string) (svc : Servico2PC)
    (i : nat) (destinos : list string) (transacao : Transacao2PC)
    (votos_commit : Z) (recebidos : list (option Voto2PC))
    : Acao Sistema (bool * Z * list (option Voto2PC)) :=
  match destinos with
  | [] => mret (true, votos_commit, recebidos)
  | servidor_url :: resto =>
      voto_recebido ←
        (if decide (servidor_url = url_local svc) then
           v ← em_no eu (_participante_prepare_troca_cartas_logica transacao) ;
           mret (Some v)
         else
           _enviar_prepare (rede_prepare amb i) servidor_url transacao
             "/inventario/troca/prepare") ;
      if votou_commit voto_recebido then
        votos_troca_cartas amb eu svc (S i) resto transacao
          (votos_commit + 1) (recebidos ++ [voto_recebido])%list
      else mret (false, votos_commit, (recebidos ++ [voto_recebido])%list)
  end.

Definition iniciar_transacao_troca_cartas (amb : Ambiente) (eu : string)
    (detalhes_troca : DetalhesTroca) : Acao Sistema Desfecho :=
  svc ← em_no eu ler_self ;
  let id := uuid4 amb in
  let transacao :=
    {| id_transacao := id;
       coordenador_url := url_local svc;
       tipo_operacao := "troca_cartas";
       status := "PREPARAR";
       dados := DadosTroca detalhes_troca |} in
  let endpoint := "/inventario/troca/commit_abort" in
  em_no eu (em_andamento_guardar transacao) ;;
  em_no eu (persistir (set_transacao transacao)) ;;
  '(todos, votos_commit, recebidos) ←
     votos_troca_cartas amb eu svc 0 (servidores_jogo svc) transacao 0 [] ;
  if (todos : bool) then
    if bool_decide (votos_commit = Z.of_nat (List.length (servidores_jogo svc))) then
      _finalizar_transacao_generica amb eu id GLOBAL_COMMIT endpoint ;;
      mret (mkDesfecho true GLOBAL_COMMIT recebidos)
    else
      _finalizar_transacao_generica amb eu id GLOBAL_ABORT endpoint ;;
      mret (mkDesfecho false GLOBAL_ABORT recebidos)
  else
    _finalizar_transacao_generica amb eu id GLOBAL_ABORT endpoint ;;
    mret (mkDesfecho false GLOBAL_ABORT recebidos).

(** ** servico_pubsub.py: publishing

    [publicar] encodes the event with [json.dumps] and hands the text to
    Redis.  The events of [main.py] are dictionaries whose values are
    strings, except for one that carries a list of [Carta] objects:
    [json.dumps] has no encoding for such an object and raises [TypeError]
    at the first one it meets; an empty list is encoded.  Nothing catches
    the exception.  A published event reaches the subscribers, whose
    callbacks only print: neither the store nor a server changes. *)

Inductive Campo :=
| Texto (valor : string)
| Objetos (cartas : list Carta).

Definition Evento : Type := list (string * Campo).

Definition json_dumps (evento : Evento) : Resultado () :=
  if forallb (λ campo : string * Campo,
                match campo.2 with
                | Texto _ => true
                | Objetos [] => true
                | Objetos (_ :: _) => false
                end) evento
  then Retorna ()
  else Levanta TypeError.

Definition publicar {S} (canal : string) (evento : Evento) : Acao S () :=
  λ s, (json_dumps evento, s).

Definition CANAL_EVENTOS_GERAIS : string := "eventos_gerais".

(** [CANAL_NOTIFICACOES_JOGADOR.format(id_jogador=...)] *)
Definition CANAL_NOTIFICACOES_JOGADOR (jogador : string) : string :=
  "notificacoes_jogador_" +:+ jogador.

(** [l[-n:]] for a positive [n] *)
Definition ultimas {A} (n : nat) (l : list A) : list A :=
  drop (List.length l - n) l.

(** ** main.py: client-facing endpoints

    An endpoint answers with a body (status 200) or with the status and
    detail of an [HTTPException]; an exception nobody catches becomes the
    framework's status 500. *)

Inductive RespostaHTTP (A : Type) : Type :=
| HTTP_200 (corpo : A)
| HTTPException (codigo : Z) (detail : string)
| SemResposta.   (* nobody listens under the URL the request was sent to *)
Arguments HTTP_200 {A} corpo.
Arguments HTTPException {A} codigo detail.
Arguments SemResposta {A}.

Definition codigo_http {A} (r : RespostaHTTP A) : option Z :=
  match r with
  | HTTP_200 _ => Some 200
  | HTTPException codigo _ => Some codigo
  | SemResposta => None
  end.

Definition Endpoint (A : Type) : Type := Sistema → RespostaHTTP A * Sistema.

(** The endpoint runs in the server process deployed under [eu]. *)
Definition no_servidor {A} (eu : string) (corpo : Servidor → Endpoint A) : Endpoint A :=
  λ s, match servidores s !! eu with
       | Some servidor => corpo servidor s
       | None => (SemResposta, s)
       end.

Definition erro_interno {A} : RespostaHTTP A :=
  HTTPException 500 "Internal Server Error".

(** [servico_pubsub.publicar(canal, evento)] inside an endpoint, and what
    the endpoint does next. *)
Definition apos_publicar {A} (canal : string) (evento : Evento)
    (depois : Endpoint A) : Endpoint A :=
  λ s, match publicar canal evento s with
       | (Retorna _, s) => depois s
       | (Levanta _, s) => (erro_interno, s)
       end.

(** Direct use of the module-level [servico_coordenacao] by an endpoint. *)
Definition coordenacao (f : Redis → Redis) (s : Sistema) : Sistema :=
  {| redis := f (redis s); servidores := servidores s |}.

Record CorpoEntrar := mkCorpoEntrar {
  ce_mensagem : string;
  ce_jogador : Jogador;
  ce_inventario : Inventario
}.

Definition entrar_jogador (amb : Ambiente) (eu : string) (nome_jogador : string)
    : Endpoint CorpoEntrar :=
  no_servidor eu (λ servidor s,
    let id := uuid4 amb in
    let jogador :=
      {| jog_id_jogador := id;
         jog_nome := nome_jogador;
         servidor_local := NOME_SERVIDOR servidor |} in
    let '(inventario, s) :=
      match get_inventario id (redis s) with
      | Some inventario => (inventario, s)
      | None =>
          let inventario := Inventario_novo id 1 in
          (inventario, coordenacao (set_inventario inventario) s)
      end in
    apos_publicar CANAL_EVENTOS_GERAIS
      [("tipo", Texto "novo_jogador"); ("id_jogador", Texto id);
       ("servidor", Texto (NOME_SERVIDOR servidor))]
      (λ s, (HTTP_200 {| ce_mensagem := "Bem-vindo, " +:+ nome_jogador +:+ "!";
                         ce_jogador := jogador;
                         ce_inventario := inventario |}, s)) s).

Definition ver_inventario (eu : string) (jogador : string) : Endpoint Inventario :=
  no_servidor eu (λ _ s,
    match get_inventario jogador (redis s) with
    | None => (HTTPException 404 "Jogador não encontrado.", s)
    | Some inventario => (HTTP_200 inventario, s)
    end).

Definition abrir_pacote (amb : Ambiente) (eu : string) (jogador : string)
    : Endpoint Inventario :=
  no_servidor eu (λ _ s,
    match get_inventario jogador (redis s) with
    | None => (HTTPException 404 "Jogador não encontrado.", s)
    | Some inventario =>
        if bool_decide (pacotes_disponiveis inventario ≤ 0) then
          (HTTPException 400 "O jogador não possui pacotes disponíveis para abrir.", s)
        else
          let inventario := com_pacotes (pacotes_disponiveis inventario - 1) inventario in
          let s := coordenacao (set_inventario inventario) s in
          match iniciar_transacao_abertura_pacote amb eu jogador s with
          | (Levanta _, s) => (erro_interno, s)
          | (Retorna desfecho, s) =>
              if sucesso desfecho then
                match get_inventario jogador (redis s) with
                | Some inventario_atualizado =>
                    apos_publicar (CANAL_NOTIFICACOES_JOGADOR jogador)
                      [("tipo", Texto "pacote_aberto"); ("status", Texto "sucesso");
                       ("cartas_obtidas", Objetos (ultimas 3 (cartas inventario_atualizado)))]
                      (λ s, (HTTP_200 inventario_atualizado, s)) s
                | None => (erro_interno, s)
                end
              else
                let inventario :=
                  com_pacotes (pacotes_disponiveis inventario + 1) inventario in
                let s := coordenacao (set_inventario inventario) s in
                apos_publicar (CANAL_NOTIFICACOES_JOGADOR jogador)
                  [("tipo", Texto "pacote_aberto"); ("status", Texto "falha");
                   ("motivo", Texto "Transação 2PC abortada.")]
                  (λ s, (HTTPException 500
                           "Falha na abertura do pacote. Transação 2PC abortada.", s)) s
          end
    end).

Definition iniciar_troca_cartas (amb : Ambiente) (eu : string)
    (jogador_a jogador_b carta_a carta_b : string) : Endpoint string :=
  no_servidor eu (λ _ s,
    let detalhes :=
      {| id_jogador_a := jogador_a;
         id_carta_a := carta_a;
         id_jogador_b := jogador_b;
         id_carta_b := carta_b |} in
    match iniciar_transacao_troca_cartas amb eu detalhes s with
    | (Levanta _, s) => (erro_interno, s)
    | (Retorna desfecho, s) =>
        if sucesso desfecho then
          apos_publicar (CANAL_NOTIFICACOES_JOGADOR jogador_a)
            [("tipo", Texto "troca_cartas"); ("status", Texto "sucesso");
             ("parceiro", Texto jogador_b); ("carta_recebida", Texto carta_b)]
            (apos_publicar (CANAL_NOTIFICACOES_JOGADOR jogador_b)
               [("tipo", Texto "troca_cartas"); ("status", Texto "sucesso");
                ("parceiro", Texto jogador_a); ("carta_recebida", Texto carta_a)]
               (λ s, (HTTP_200 "Troca de cartas concluída com sucesso!", s))) s
        else
          apos_publicar (CANAL_NOTIFICACOES_JOGADOR jogador_a)
            [("tipo", Texto "troca_cartas"); ("status", Texto "falha");
             ("motivo", Texto "Transação 2PC abortada.")]
            (apos_publicar (CANAL_NOTIFICACOES_JOGADOR jogador_b)
               [("tipo", Texto "troca_cartas"); ("status", Texto "falha");
                ("motivo", Texto "Transação 2PC abortada.")]
               (λ s, (HTTPException 500
                        "Falha na troca de cartas. Transação 2PC abortada.", s))) s
    end).

(** *** Peer-facing endpoints *)

Definition resposta_de {A} (x : Resultado A * Sistema) : RespostaHTTP A * Sistema :=
  match x with
  | (Retorna a, s) => (HTTP_200 a, s)
  | (Levanta _, s) => (erro_interno, s)
  end.

Definition transacao_prepare_pacote (eu : string) (transacao : Transacao2PC)
    : Endpoint Voto2PC :=
  no_servidor eu (λ _ s, resposta_de (em_no eu (participante_prepare_abrir_pacote transacao) s)).

Definition transacao_commit_abort_pacote (amb : Ambiente) (eu : string)
    (resultado : Resultado2PC) : Endpoint () :=
  no_servidor eu (λ _ s,
    resposta_de (em_no eu (participante_commit_abort_abrir_pacote (random amb eu) resultado) s)).

Definition transacao_prepare_troca (eu : string) (transacao : Transacao2PC)
    : Endpoint Voto2PC :=
  no_servidor eu (λ _ s, resposta_de (em_no eu (participante_prepare_troca_cartas transacao) s)).

Definition transacao_commit_abort_troca (eu : string) (resultado : Resultado2PC)
    : Endpoint () :=
  no_servidor eu (λ _ s,
    resposta_de (em_no eu (participante_commit_abort_troca_cartas resultado) s)).

(** *** Runs

    A request names the endpoint and carries its arguments; a run is a
    list of requests, each with the server it is sent to and the
    environment it meets.  [executar] serves them one after the other,
    each to its end: one of the orders in which the servers can serve
    them.  The framework runs every request in a thread of its own and
    nothing in the endpoints keeps two requests apart; orders in which
    requests overlap are those of [servir], below. *)

Inductive Requisicao :=
| POST_jogador_entrar (nome_jogador : string)
| GET_inventario (jogador : string)
| POST_pacote_abrir (jogador : string)
| POST_inventario_troca (jogador_a jogador_b carta_a carta_b : string)
| POST_transacao_abrir_pacote_prepare (transacao : Transacao2PC)
| POST_transacao_abrir_pacote_commit_abort (resultado : Resultado2PC)
| POST_inventario_troca_prepare (transacao : Transacao2PC)
| POST_inventario_troca_commit_abort (resultado : Resultado2PC).

Definition so_codigo {A} (x : RespostaHTTP A * Sistema) : option Z * Sistema :=
  (codigo_http x.1, x.2).

Definition atender (amb : Ambiente) (eu : string) (req : Requisicao)
    : Sistema → option Z * Sistema :=
  λ s,
    match req with
    | POST_jogador_entrar nome => so_codigo (entrar_jogador amb eu nome s)
    | GET_inventario jogador => so_codigo (ver_inventario eu jogador s)
    | POST_pacote_abrir jogador => so_codigo (abrir_pacote amb eu jogador s)
    | POST_inventario_troca a b ca cb =>
        so_codigo (iniciar_troca_cartas amb eu a b ca cb s)
    | POST_transacao_abrir_pacote_prepare t => so_codigo (transacao_prepare_pacote eu t s)
    | POST_transacao_abrir_pacote_commit_abort r =>
        so_codigo (transacao_commit_abort_pacote amb eu r s)
    | POST_inventario_troca_prepare t => so_codigo (transacao_prepare_troca eu t s)
    | POST_inventario_troca_commit_abort r =>
        so_codigo (transacao_commit_abort_troca eu r s)
    end.

Fixpoint executar (pedidos : list (Ambiente * string * Requisicao)) (s : Sistema)
    : list (option Z) * Sistema :=
  match pedidos with
  | [] => ([], s)
  | (amb, eu, req) :: resto =>
      let '(codigo, s) := atender amb eu req s in
      let '(codigos, s) := executar resto s in
      (codigo :: codigos, s)
  end.

(** *** Requests in flight

    [abrir_pacote] reaches the store four times: it reads the inventory
    (line 116), writes it back with one pack less (125), runs the
    transaction (127), and answers, on failure after writing the
    inventory back with the pack returned (130-150).  Between any two of
    these another request can be served.  [Abertura] is where a request
    stands, with the value of its local variable [inventario], and
    [abrir_pacote_passo] runs the stretch up to the next stop in one
    piece. *)

Inductive Abertura :=
| Recebida
| Lida (inventario : Inventario)
| Gravada (inventario : Inventario)
| Decidida (inventario : Inventario) (sucesso : bool)
| Respondida (resposta : RespostaHTTP Inventario).

Definition abrir_pacote_passo (amb : Ambiente) (eu jogador : string)
    (onde : Abertura) : Sistema → Abertura * Sistema :=
  λ s,
    match onde with
    | Recebida =>
        match servidores s !! eu with
        | None => (Respondida SemResposta, s)
        | Some _ =>
            match get_inventario jogador (redis s) with
            | None => (Respondida (HTTPException 404 "Jogador não encontrado."), s)
            | Some inventario =>
                if bool_decide (pacotes_disponiveis inventario ≤ 0) then
                  (Respondida
                     (HTTPException 400
                        "O jogador não possui pacotes disponíveis para abrir."), s)
                else (Lida inventario, s)
            end
        end
    | Lida inventario =>
        let inventario := com_pacotes (pacotes_disponiveis inventario - 1) inventario in
        (Gravada inventario, coordenacao (set_inventario inventario) s)
    | Gravada inventario =>
        match iniciar_transacao_abertura_pacote amb eu jogador s with
        | (Levanta _, s) => (Respondida erro_interno, s)
        | (Retorna desfecho, s) => (Decidida inventario (sucesso desfecho), s)
        end
    | Decidida inventario true =>
        match get_inventario jogador (redis s) with
        | Some inventario_atualizado =>
            let '(resposta, s) :=
              apos_publicar (CANAL_NOTIFICACOES_JOGADOR jogador)
                [("tipo", Texto "pacote_aberto"); ("status", Texto "sucesso");
                 ("cartas_obtidas", Objetos (ultimas 3 (cartas inventario_atualizado)))]
                (λ s, (HTTP_200 inventario_atualizado, s)) s in
            (Respondida resposta, s)
        | None => (Respondida erro_interno, s)
        end
    | Decidida inventario false =>
        let inventario := com_pacotes (pacotes_disponiveis inventario + 1) inventario in
        let s := coordenacao (set_inventario inventario) s in
        let '(resposta, s) :=
          apos_publicar (CANAL_NOTIFICACOES_JOGADOR jogador)
            [("tipo", Texto "pacote_aberto"); ("status", Texto "falha");
             ("motivo", Texto "Transação 2PC abortada.")]
            (λ s, (HTTPException 500
                     "Falha na abertura do pacote. Transação 2PC abortada.", s)) s in
        (Respondida resposta, s)
    | Respondida resposta => (Respondida resposta, s)
    end.

(** The opens in flight, and a schedule: at each turn the request named
    runs its next stretch. *)
Record EmCurso := mkEmCurso {
  ec_amb : Ambiente;
  ec_eu : string;
  ec_jogador : string;
  ec_onde : Abertura
}.

Fixpoint servir (agenda : list nat) (pedidos : list EmCurso) (s : Sistema)
    : list EmCurso * Sistema :=
  match agenda with
  | [] => (pedidos, s)
  | i :: resto =>
      match pedidos !! i with
      | None => servir resto pedidos s
      | Some pedido =>
          let '(onde, s) :=
            abrir_pacote_passo (ec_amb pedido) (ec_eu pedido) (ec_jogador pedido)
              (ec_onde pedido) s in
          servir resto
            (<[i := mkEmCurso (ec_amb pedido) (ec_eu pedido) (ec_jogador pedido) onde]>
               pedidos) s
      end
  end.

(** ** main.py: the UDP latency listener

    [sock.recvfrom(1024)] hands over at most 1024 bytes of a datagram (the
    rest of a longer one is dropped by the socket layer) together with the
    sender's address, and [sock.sendto(data, addr)] sends what was read.
    The loop is run over the datagrams that arrive, in order. *)

Definition Datagrama : Type := list Byte.byte * string.

Definition recvfrom (bufsize : nat) (chegada : Datagrama) : Datagrama :=
  (take bufsize chegada.1, chegada.2).

Fixpoint udp_listener (chegadas : list Datagrama) : list Datagrama :=
  match chegadas with
  | [] => []
  | chegada :: resto =>
      let '(data, addr) := recvfrom 1024 chegada in
      (data, addr) :: udp_listener resto
  end.

(** ** Deployments used in the examples *)

(** [Servico2PC.__init__] *)
Definition Servico2PC_init (url : string) (lista : list string) : Servico2PC :=
  {| url_local := url; servidores_jogo := lista; transacoes_em_andamento := ∅ |}.

Definition redis_vazio : Redis :=
  {| estoque_global := None; inventarios := ∅; transacoes := ∅ |}.

(** Every URL of [lista] runs a server configured with [lista], all on one
    fresh store. *)
Definition implantar (lista : list string) : Sistema :=
  {| redis := ServicoCoordenacao_init redis_vazio;
     servidores :=
       list_to_map ((λ u, (u, mkServidor u (Servico2PC_init u lista))) <$> lista) |}.

(** A healthy network, a given UUID, and a generator that keeps drawing [d]. *)
Definition ambiente (id : string) (d : N) : Ambiente :=
  {| uuid4 := id;
     rede_prepare := λ _, Entregue;
     rede_decisao := λ _, Entregue;
     random := λ _ _, d |}.

(** One server, one player who has joined. *)
Definition um_servidor_um_jogador : Sistema :=
  (entrar_jogador (ambiente "p1" 0) "A" "ana" (implantar ["A"])).2.

(** Two servers, one player who has joined at the first. *)
Definition dois_servidores_um_jogador : Sistema :=
  (entrar_jogador (ambiente "p1" 0) "A" "ana" (implantar ["A"; "B"])).2.

Definition carta_x : Carta :=
  {| id_carta := "CARTA-1001"; nome := "Pedra (Seixo de Rio)"; tipo := "pedra";
     skin := "Seixo de Rio"; raridade := "Comum" |}.

Definition carta_y : Carta :=
  {| id_carta := "CARTA-2002"; nome := "Papel (Jornal Velho)"; tipo := "papel";
     skin := "Jornal Velho"; raridade := "Rara" |}.

(** One server; player p1 holds both example cards, player p2 none. *)
Definition um_servidor_duas_cartas : Sistema :=
  coordenacao
    (λ r, set_inventario (Inventario_novo "p2" 0)
            (set_inventario (com_cartas [carta_x; carta_y] (Inventario_novo "p1" 0)) r))
    (implantar ["A"]).

(** Runs: [n] players join, then each opens one pack, in order; player [i]
    talks to the server [onde i]. *)
Definition jogador_n (i : nat) : string := "p" +:+ pretty i.

Definition entradas (onde : nat → string) (n : nat)
    : list (Ambiente * string * Requisicao) :=
  (λ i, (ambiente (jogador_n i) 0, onde i, POST_jogador_entrar (jogador_n i))) <$> seq 0 n.

Definition aberturas (onde : nat → string) (n : nat)
    : list (Ambiente * string * Requisicao) :=
  (λ i, (ambiente ("t" +:+ pretty i) 0, onde i, POST_pacote_abrir (jogador_n i)))
    <$> seq 0 n.

Definition sempre_a : nat → string := λ _, "A".

(** Twelve players per server, as in [teste_concorrencia.py]. *)
Definition cinco_servidores : list string := ["A"; "B"; "C"; "D"; "E"].

Definition doze_por_servidor : nat → string :=
  λ i, default "A" (cinco_servidores !! (i / 12)%nat).

Definition sucessos (codigos : list (option Z)) : nat :=
  List.length (filter (λ c, c = Some 200) codigos).

Definition estoque (s : Sistema) : Z :=
  pacotes_restantes (get_estoque_global (redis s)).

(** Among the players [jogador_n 0] .. [jogador_n (n - 1)]: how many hold
    cards, and how many cards they hold together.  A player of the runs
    above opens at most once and cards are written by a commit only, so the
    first is the number of opens that were committed. *)
Definition cartas_de (k : string) (s : Sistema) : list Carta :=
  match get_inventario k (redis s) with
  | Some inv => cartas inv
  | None => []
  end.

Definition abriram (n : nat) (s : Sistema) : nat :=
  List.length (filter (λ i, cartas_de (jogador_n i) s ≠ []) (seq 0 n)).

Definition total_de_cartas (n : nat) (s : Sistema) : nat :=
  foldr (λ i total, (List.length (cartas_de (jogador_n i) s) + total)%nat) 0%nat (seq 0 n).
(** One server on which 51 players have joined and the first 50 have each
    opened a pack: the stock is exhausted. *)
Definition estoque_esgotado : Sistema :=
  (executar (entradas sempre_a 51 ++ aberturas sempre_a 50) (implantar ["A"])).2.

(** Every inventory is stored under the id it carries: what
    [set_inventario] establishes for each record it writes. *)
Definition bem_formado (r : Redis) : Prop :=
  ∀ k inv, get_inventario k r = Some inv → id_jogador inv = k.

(** The packs a player has available; none without an inventory. *)
Definition pacotes_de (k : string) (r : Redis) : Z :=
  match get_inventario k r with
  | Some inv => pacotes_disponiveis inv
  | None => 0
  end.

(** From [r] to [r'] nobody has gained a pack. *)
Definition sem_pacotes_novos (r r' : Redis) : Prop :=
  bem_formado r →
  bem_formado r' ∧ ∀ k, pacotes_de k r' ≤ pacotes_de k r.

(** A server is deployed under [eu]; and it holds [transacao] in its cache
    under the transaction's id. *)
Definition existe_servidor (eu : string) (s : Sistema) : Prop :=
  is_Some (servidores s !! eu).

Definition tem_em_cache (eu : string) (transacao : Transacao2PC) (s : Sistema) : Prop :=
  ∃ servidor,
    servidores s !! eu = Some servidor ∧
    transacoes_em_andamento (servico_2pc servidor) !! id_transacao transacao
      = Some transacao.

(** The payload of a transaction has the shape its kind announces. *)
Definition bem_tipada (transacao : Transacao2PC) : Prop :=
  (tipo_operacao transacao = "abrir_pacote" ∧
   ∃ jogador quantidade, dados transacao = DadosPacote jogador quantidade) ∨
  (tipo_operacao transacao = "troca_cartas" ∧
   ∃ detalhes, dados transacao = DadosTroca detalhes).

(** Total correctness of an action: from a state in [P] it returns, with a
    value and a state in [Q]. *)
Definition garante {S A} (P : S → Prop) (m : Acao S A) (Q : A → S → Prop) : Prop :=
  ∀ s, P s → ∃ a s', m s = (Retorna a, s') ∧ Q a s'.

(** The inventories of [r'] are those of [r]. *)
Definition mesmos_inventarios (r r' : Redis) : Prop :=
  inventarios r' = inventarios r.

(** A state in which neither the cache of the server nor the store knows
    the transaction. *)
Definition desconhecida (id : string) (c : Contexto) : Prop :=
  transacoes_em_andamento (self c) !! id = None ∧
  get_transacao id (servico_coordenacao c) = None.

(** A relation between the state before and the state after that an
    action keeps, however it ends. *)
Definition preserva {S A} (R : S → S → Prop) (m : Acao S A) : Prop :=
  ∀ s, R s (m s).2.

(** The same for a method of [Servico2PC], on whichever server of the
    system it is run. *)
Definition em_qualquer_no (R : Sistema → Sistema → Prop) {A}
    (metodo : Acao Contexto A) : Prop :=
  ∀ url servidor s,
    servidores s !! url = Some servidor →
    R s (executar_em url servidor metodo s).2.

(** A relation between stores, read between contexts and between systems. *)
Definition RC (R : Redis → Redis → Prop) (c c' : Contexto) : Prop :=
  R (servico_coordenacao c) (servico_coordenacao c').

Definition RS (R : Redis → Redis → Prop) (s s' : Sistema) : Prop :=
  R (redis s) (redis s').

Definition mantem_servidor (eu : string) (s s' : Sistema) : Prop :=
  existe_servidor eu s → existe_servidor eu s'.

Definition mantem_cache (eu : string) (transacao : Transacao2PC) (s s' : Sistema) : Prop :=
  tem_em_cache eu transacao s → tem_em_cache eu transacao s'.

(** The context in which a method of [servidor] runs. *)
Definition contexto_de (servidor : Servidor) (s : Sistema) : Contexto :=
  {| self := servico_2pc servidor; servico_coordenacao := redis s |}.

(** An open-pack transaction for player p1, and the context of server A
    once it has prepared it. *)
Definition transacao_exemplo : Transacao2PC :=
  {| id_transacao := "t1"; coordenador_url := "A"; tipo_operacao := "abrir_pacote";
     status := "PREPARAR"; dados := DadosPacote "p1" 1 |}.

Definition servidor_a : Servidor := mkServidor "A" (Servico2PC_init "A" ["A"]).

Definition contexto_preparado : Contexto :=
  (participante_prepare_abrir_pacote transacao_exemplo
     (contexto_de servidor_a um_servidor_um_jogador)).2.

Definition decisao_exemplo : Resultado2PC :=
  {| res_id_transacao := "t1"; res_servidor_url := "A"; decisao := GLOBAL_COMMIT |}.

(** The environment of [ambiente], except that no prepare request reaches
    its peer. *)
Definition ambiente_sem_rede (id : string) (d : N) : Ambiente :=
  {| uuid4 := id;
     rede_prepare := λ _, PerdidaNaIda;
     rede_decisao := λ _, Entregue;
     random := λ _ _, d |}.

(** Neither the store nor the cache of the server under [eu] holds a
    transaction with this id. *)
Definition sem_rasto (eu : string) (id : string) (s : Sistema) : Prop :=
  get_transacao id (redis s) = None ∧
  ∃ servidor,
    servidores s !! eu = Some servidor ∧
    transacoes_em_andamento (servico_2pc servidor) !! id = None.

(** From [r] to [r'] no inventory has disappeared. *)
Definition nao_apaga (r r' : Redis) : Prop :=
  ∀ k, is_Some (get_inventario k r) → is_Some (get_inventario k r').

(** No stored inventory has a negative number of packs; and the step from
    [r] to [r'] keeps it so. *)
Definition pacotes_nao_negativos (r : Redis) : Prop :=
  ∀ k inv, get_inventario k r = Some inv → 0 ≤ pacotes_disponiveis inv.

Definition mantem_pacotes_nao_negativos (r r' : Redis) : Prop :=
  pacotes_nao_negativos r → pacotes_nao_negativos r'.

(** From [r] to [r'] every inventory is still there, with at least as
    many cards. *)
Definition nunca_perde (r r' : Redis) : Prop :=
  bem_formado r →
  bem_formado r' ∧
  ∀ k inv, get_inventario k r = Some inv →
    ∃ inv', get_inventario k r' = Some inv' ∧
            (List.length (cartas inv) ≤ List.length (cartas inv'))%nat.

(** One server started without SERVIDORES_JOGO: its server list is empty. *)
Definition servidor_sem_lista : Sistema :=
  {| redis := ServicoCoordenacao_init redis_vazio;
     servidores := {[ "A" := mkServidor "A" (Servico2PC_init "A" []) ]} |}.

Definition troca_exemplo : DetalhesTroca :=
  {| id_jogador_a := "p1"; id_carta_a := "CARTA-1001";
     id_jogador_b := "p2"; id_carta_b := "CARTA-2002" |}.

(** A card as [gerar_carta] makes them: kind, skin and rarity are taken
    from the tables, the name is composed from kind and skin, and the id is
    CARTA- followed by a number of four digits. *)
Definition carta_bem_gerada (c : Carta) : Prop :=
  tipo c ∈ tipos ∧
  skin c ∈ skins (tipo c) ∧
  raridade c ∈ raridades ∧
  nome c = capitalize (tipo c) +:+ " (" +:+ skin c +:+ ")" ∧
  ∃ n : N, (1000 ≤ n ≤ 9999)%N ∧ id_carta c = "CARTA-" +:+ pretty n.

(** Every card of every stored inventory is such a card; and the step from
    [r] to [r'] keeps it so. *)
Definition cartas_bem_geradas (r : Redis) : Prop :=
  ∀ k inv, get_inventario k r = Some inv → Forall carta_bem_gerada (cartas inv).

Definition mantem_cartas_bem_geradas (r r' : Redis) : Prop :=
  cartas_bem_geradas r → cartas_bem_geradas r'.

(** One server; player p1 holds the first example card, player p2 the
    second. *)
Definition um_servidor_uma_carta_cada : Sistema :=
  coordenacao
    (λ r, set_inventario (com_cartas [carta_y] (Inventario_novo "p2" 0))
            (set_inventario (com_cartas [carta_x] (Inventario_novo "p1" 0)) r))
    (implantar ["A"]).

(** A trade of the two example cards between p1 and p2, the decisions on
    it, and the context of server A once it has prepared it. *)
Definition transacao_troca_exemplo : Transacao2PC :=
  {| id_transacao := "t2"; coordenador_url := "A"; tipo_operacao := "troca_cartas";
     status := "PREPARAR"; dados := DadosTroca troca_exemplo |}.

Definition decisao_troca_exemplo : Resultado2PC :=
  {| res_id_transacao := "t2"; res_servidor_url := "A"; decisao := GLOBAL_COMMIT |}.

Definition decisao_troca_abort_exemplo : Resultado2PC :=
  {| res_id_transacao := "t2"; res_servidor_url := "A"; decisao := GLOBAL_ABORT |}.

Definition decisao_abort_exemplo : Resultado2PC :=
  {| res_id_transacao := "t1"; res_servidor_url := "A"; decisao := GLOBAL_ABORT |}.

Definition contexto_troca_preparada : Contexto :=
  (participante_prepare_troca_cartas transacao_troca_exemplo
     (contexto_de servidor_a um_servidor_uma_carta_cada)).2.

(** A trade with a player nobody has heard of. *)
Definition transacao_troca_fantasma : Transacao2PC :=
  {| id_transacao := "t2"; coordenador_url := "A"; tipo_operacao := "troca_cartas";
     status := "PREPARAR";
     dados := DadosTroca {| id_jogador_a := "p1"; id_carta_a := "CARTA-1001";
                            id_jogador_b := "p9"; id_carta_b := "CARTA-9009" |} |}.

(** Two opens for player p1 of [dois_servidores_um_jogador], who holds one
    pack: one arrives at server A under a healthy network, the other at
    server B while B cannot reach A. *)
Definition duas_aberturas : list EmCurso :=
  [mkEmCurso (ambiente "t1" 0) "A" "p1" Recebida;
   mkEmCurso (ambiente_sem_rede "t2" 0) "B" "p1" Recebida].

(** Both read the inventory, both write it back with the pack taken; the
    second is aborted and puts its pack back; then the first is committed
    and answered. *)
Definition agenda_sobreposta : list nat := [0; 1; 0; 1; 1; 1; 0; 0]%nat.

(** The possession check of the trade prepare, on a store: whoever of the
    two players has an inventory holds the card named. *)
Definition posse_em_ordem (detalhes : DetalhesTroca) (r : Redis) : bool :=
  match get_inventario (id_jogador_a detalhes) r with
  | Some inv => possui_carta (id_carta_a detalhes) inv
  | None => true
  end
  && match get_inventario (id_jogador_b detalhes) r with
     | Some inv => possui_carta (id_carta_b detalhes) inv
     | None => true
     end.

Definition entregue (entrega : Entrega) : bool :=
  match entrega with
  | Entregue => true
  | _ => false
  end.

(** The entry [url] of the server list, asked as the [i]-th participant,
    answers the coordinator: it is the coordinator's own URL, or the
    exchange is delivered both ways to a server deployed under it. *)
Definition responde (amb : Ambiente) (svc : Servico2PC) (s : Sistema)
    (i : nat) (url : string) : bool :=
  bool_decide (url = url_local svc)
  || entregue (rede_prepare amb i) && bool_decide (is_Some (servidores s !! url)).

Fixpoint todos_respondem (amb : Ambiente) (svc : Servico2PC) (s : Sistema)
    (i : nat) (destinos : list string) : bool :=
  match destinos with
  | [] => true
  | url :: resto => responde amb svc s i url && todos_respondem amb svc s (S i) resto
  end.

(** The same URLs are deployed in [s'] as in [s]. *)
Definition mesmos_nos (s s' : Sistema) : Prop :=
  ∀ url, is_Some (servidores s' !! url) ↔ is_Some (servidores s !! url).
(** *** The votes of the prepare phase

    The tally rule speaks of the votes of the participants.  Here they
    are collected as the rule reads, without the coordinator's counter and
    early exit: the transaction is registered as the coordinator does, the
    local participant prepares, then every remote participant is sent the
    prepare, in the order of the list; each vote is what the call
    returned, [None] where [_enviar_prepare] came back without one. *)
Fixpoint prepares_remotos (amb : Ambiente) (i : nat) (destinos : list string)
    (transacao : Transacao2PC) : Acao Sistema (list (option Voto2PC)) :=
  match destinos with
  | [] => mret []
  | servidor_url :: resto =>
      voto_remoto ← _enviar_prepare (rede_prepare amb i) servidor_url transacao
                      "/transacao/abrir_pacote/prepare" ;
      demais ← prepares_remotos amb (S i) resto transacao ;
      mret (voto_remoto :: demais)
  end.

Definition votos_dos_prepares (amb : Ambiente) (eu : string) (jogador : string)
    : Acao Sistema (list (option Voto2PC)) :=
  svc ← em_no eu ler_self ;
  let transacao :=
    {| id_transacao := uuid4 amb;
       coordenador_url := url_local svc;
       tipo_operacao := "abrir_pacote";
       status := "PREPARAR";
       dados := DadosPacote jogador 1 |} in
  em_no eu (em_andamento_guardar transacao) ;;
  em_no eu (persistir (set_transacao transacao)) ;;
  voto_local ← em_no eu (_participante_prepare_abrir_pacote_logica transacao) ;
  remotos ← prepares_remotos amb 0 (outros_servidores svc) transacao ;
  mret (Some voto_local :: remotos).
(** The number of cards stored for a player; none without an inventory. *)
Definition numero_de_cartas (k : string) (r : Redis) : nat :=
  match get_inventario k r with
  | Some inv => List.length (cartas inv)
  | None => 0
  end.
(** *** The first prepare of a trade

    The first prepare of a trade as the coordinator issues it: the
    transaction is registered, then the first entry of the server list is
    asked, through the coordinator's own handler when the entry is its own
    URL and over HTTP otherwise.  The vote is what the call returned;
    there is none when the list is empty. *)
Definition primeiro_prepare_troca (amb : Ambiente) (eu : string)
    (detalhes_troca : DetalhesTroca) : Acao Sistema (option Voto2PC) :=
  svc ← em_no eu ler_self ;
  let transacao :=
    {| id_transacao := uuid4 amb;
       coordenador_url := url_local svc;
       tipo_operacao := "troca_cartas";
       status := "PREPARAR";
       dados := DadosTroca detalhes_troca |} in
  em_no eu (em_andamento_guardar transacao) ;;
  em_no eu (persistir (set_transacao transacao)) ;;
  match servidores_jogo svc with
  | [] => mret None
  | servidor_url :: _ =>
      if decide (servidor_url = url_local svc) then
        v ← em_no eu (_participante_prepare_troca_cartas_logica transacao) ;
        mret (Some v)
      else
        _enviar_prepare (rede_prepare amb 0) servidor_url transacao
          "/inventario/troca/prepare"
  end.

(** A server started without SERVIDORES_JOGO; player p1 holds both example
    cards, player p2 none. *)
Definition sem_lista_duas_cartas : Sistema :=
  coordenacao
    (λ r, set_inventario (Inventario_novo "p2" 0)
            (set_inventario (com_cartas [carta_x; carta_y] (Inventario_novo "p1" 0)) r))
    servidor_sem_lista.

(** Two servers whose list names B first; the same two inventories. *)
Definition dois_servidores_duas_cartas : Sistema :=
  coordenacao
    (λ r, set_inventario (Inventario_novo "p2" 0)
            (set_inventario (com_cartas [carta_x; carta_y] (Inventario_novo "p1" 0)) r))
    (implantar ["B"; "A"]).

(** Both read the inventory and write it back with the pack taken; the
    first is committed and answered; then the second is aborted and puts
    back the inventory it read. *)
Definition agenda_que_apaga : list nat := [0; 1; 0; 1; 0; 0; 1; 1]%nat.

(** * Properties *)

(** ** Publishing *)

(** Publishing leaves the system as it is, whether the event can be
    encoded or not. *)
Lemma estado_apos_publicar {A} canal evento (depois : Endpoint A) s :
  (∀ s, (depois s).2 = s) → (apos_publicar canal evento depois s).2 = s.
Proof.
  intros H. unfold apos_publicar, publicar. destruct (json_dumps evento); [apply H|done].
Qed.

Ltac publicado :=
  rewrite ?estado_apos_publicar
    by (intros; rewrite ?estado_apos_publicar by done; done).

(** ** The store *)

Lemma set_estoque_global_twice e e' r :
  set_estoque_global e (set_estoque_global e' r) = set_estoque_global e r.
Proof. reflexivity. Qed.

Lemma get_set_estoque_global e r :
  get_estoque_global (set_estoque_global e r) = e.
Proof. reflexivity. Qed.


(** Without concurrent writers the value read is the stored one. *)
Corollary decrementar_estoque_atomico_sequencial (quantidade : Z) (r : Redis) :
  let atual := pacotes_restantes (get_estoque_global r) in
  decrementar_estoque_atomico [] quantidade r =
    (bool_decide (quantidade ≤ atual),
     if bool_decide (quantidade ≤ atual)
     then set_estoque_global {| pacotes_restantes := atual - quantidade |} r
     else r).
Proof.
  simpl. repeat case_bool_decide; try lia; reflexivity.
Qed.

Lemma incrementar_estoque_atomico_sequencial (quantidade : Z) (r : Redis) :
  incrementar_estoque_atomico [] quantidade r =
    (true,
     set_estoque_global
       {| pacotes_restantes :=
            pacotes_restantes (get_estoque_global r) + quantidade |} r).
Proof. reflexivity. Qed.

(** ** Participant handlers *)

Ltac desdobrar :=
  unfold participante_commit_abort_abrir_pacote, participante_commit_abort_troca_cartas,
    participante_prepare_abrir_pacote, participante_prepare_troca_cartas,
    _participante_commit_abort_abrir_pacote_logica,
    _participante_commit_abort_troca_cartas_logica,
    _participante_prepare_abrir_pacote_logica,
    _participante_prepare_troca_cartas_logica,
    localizar_transacao, buscar_transacao, trocar, ler_self,
    em_andamento_pop, em_andamento_guardar, consultar, persistir, operar,
    dados_id_jogador, dados_quantidade_pacotes, dados_detalhes_troca,
    levantar, ler, gravar, estado_final, retorno,
    mbind, mret, Acao_bind, Acao_ret in *.

Lemma com_em_andamento_delete_desconhecida id c :
  transacoes_em_andamento (self c) !! id = None →
  com_em_andamento (delete id) c = c.
Proof.
  intros H. destruct c as [[u l m] r]. unfold com_em_andamento; simpl in *.
  by rewrite delete_id.
Qed.

Lemma abrir_pacote_decisao_desconhecida g resultado c :
  desconhecida (res_id_transacao resultado) c →
  _participante_commit_abort_abrir_pacote_logica g resultado c = (Retorna (), c).
Proof.
  intros [Hc Hr]. desdobrar. rewrite Hc. simpl. rewrite Hr.
  by rewrite com_em_andamento_delete_desconhecida.
Qed.

Lemma troca_cartas_decisao_desconhecida resultado c :
  desconhecida (res_id_transacao resultado) c →
  _participante_commit_abort_troca_cartas_logica resultado c = (Retorna (), c).
Proof.
  intros [Hc Hr]. desdobrar. rewrite Hc. simpl. rewrite Hr.
  by rewrite com_em_andamento_delete_desconhecida.
Qed.

(** A decision that is handled to the end leaves no trace of the
    transaction behind. *)
Lemma abrir_pacote_decisao_esquece g resultado c :
  retorno (_participante_commit_abort_abrir_pacote_logica g resultado c) = Retorna () →
  desconhecida (res_id_transacao resultado)
    (estado_final (_participante_commit_abort_abrir_pacote_logica g resultado c)).
Proof.
  desdobrar. unfold desconhecida, get_transacao.
  destruct (transacoes_em_andamento (self c) !! res_id_transacao resultado)
    as [tx|] eqn:Hc; simpl.
  - destruct (dados tx); simpl; [|done].
    repeat (case_decide; simpl); intros _; by rewrite !lookup_delete_eq.
  - destruct (transacoes (servico_coordenacao c) !! res_id_transacao resultado)
      as [tx|] eqn:Hr; simpl.
    + destruct (dados tx); simpl; [|done].
      repeat (case_decide; simpl); intros _; by rewrite !lookup_delete_eq.
    + intros _. by rewrite lookup_delete_eq.
Qed.


(** The swap always returns; it touches neither the server object, nor the
    stock, nor the transaction records. *)
Lemma trocar_efeito d c :
  ∃ invs, trocar d c =
    (Retorna (),
     {| self := self c;
        servico_coordenacao :=
          {| estoque_global := estoque_global (servico_coordenacao c);
             inventarios := invs;
             transacoes := transacoes (servico_coordenacao c) |} |}).
Proof.
  destruct c as [svc [e invs txs]]. desdobrar. simpl.
  destruct (get_inventario (id_jogador_a d) _) as [ia|]; simpl; [|by eauto].
  destruct (get_inventario (id_jogador_b d) _) as [ib|]; simpl; [|by eauto].
  destruct (procurar_carta (id_carta_a d) ia); simpl; [|by eauto].
  destruct (procurar_carta (id_carta_b d) ib); simpl; by eauto.
Qed.

Lemma troca_cartas_decisao_esquece resultado c :
  retorno (_participante_commit_abort_troca_cartas_logica resultado c) = Retorna () →
  desconhecida (res_id_transacao resultado)
    (estado_final (_participante_commit_abort_troca_cartas_logica resultado c)).
Proof.
  unfold _participante_commit_abort_troca_cartas_logica, localizar_transacao,
    desconhecida, get_transacao.
  unfold em_andamento_pop, consultar, persistir, dados_detalhes_troca, levantar, gravar,
    estado_final, retorno, mbind, mret, Acao_bind, Acao_ret.
  destruct (transacoes_em_andamento (self c) !! res_id_transacao resultado)
    as [tx|] eqn:Hc; simpl.
  - destruct (dados tx) as [|d]; simpl; [done|].
    case_decide; simpl.
    + destruct (trocar_efeito d (com_em_andamento (delete (res_id_transacao resultado)) c))
        as [invs ->]; simpl.
      intros _. by rewrite !lookup_delete_eq.
    + intros _. by rewrite !lookup_delete_eq.
  - destruct (transacoes (servico_coordenacao c) !! res_id_transacao resultado)
      as [tx|] eqn:Hr; simpl.
    + destruct (dados tx) as [|d]; simpl; [done|].
      case_decide; simpl.
      * destruct (trocar_efeito d (com_em_andamento (delete (res_id_transacao resultado)) c))
          as [invs ->]; simpl.
        intros _. by rewrite !lookup_delete_eq.
      * intros _. by rewrite !lookup_delete_eq.
    + intros _. by rewrite lookup_delete_eq.
Qed.

(** C6.  Behind either commit/abort route, a decision delivered a second
    time, right after a first delivery that was handled to the end, changes
    nothing: stock, inventories, transaction records and the cache of the
    server are as the first delivery left them. *)
Theorem decisao_idempotente
    (endpoint : string) (handler : Gerador → Resultado2PC → Acao Contexto ())
    (g g' : Gerador) (resultado : Resultado2PC) (c : Contexto) :
  rota_commit_abort endpoint = Some handler →
  retorno (handler g resultado c) = Retorna () →
  estado_final (handler g' resultado (estado_final (handler g resultado c)))
  = estado_final (handler g resultado c).
Proof.
  unfold rota_commit_abort. intros Hrota Hret.
  repeat case_decide; simplify_eq.
  - unfold participante_commit_abort_abrir_pacote in *.
    rewrite abrir_pacote_decisao_desconhecida; [done|].
    by apply abrir_pacote_decisao_esquece.
  - unfold participante_commit_abort_troca_cartas in *.
    rewrite troca_cartas_decisao_desconhecida; [done|].
    by apply troca_cartas_decisao_esquece.
Qed.

(** The swap always returns; with two distinct players whose inventories
    are stored under their own ids, it either rewrites both inventories,
    each with its card gone and the other card at the end, or rewrites
    nothing. *)
Lemma troca_atomica_jogadores_distintos (d : DetalhesTroca) (c : Contexto) :
  id_jogador_a d ≠ id_jogador_b d →
  (∀ k inv, get_inventario k (servico_coordenacao c) = Some inv → id_jogador inv = k) →
  let r := servico_coordenacao c in
  let r' := servico_coordenacao (estado_final (trocar d c)) in
  inventarios r' = inventarios r ∨
  ∃ inv_a inv_b carta_a carta_b,
    get_inventario (id_jogador_a d) r = Some inv_a ∧
    get_inventario (id_jogador_b d) r = Some inv_b ∧
    procurar_carta (id_carta_a d) inv_a = Some carta_a ∧
    procurar_carta (id_carta_b d) inv_b = Some carta_b ∧
    get_inventario (id_jogador_a d) r' =
      Some (cartas_append carta_b (cartas_remove carta_a inv_a)) ∧
    get_inventario (id_jogador_b d) r' =
      Some (cartas_append carta_a (cartas_remove carta_b inv_b)) ∧
    ∀ k, k ≠ id_jogador_a d → k ≠ id_jogador_b d →
         get_inventario k r' = get_inventario k r.
Proof.
  intros Hab Hbf. destruct c as [svc [e invs txs]]. desdobrar. simpl in *.
  destruct (get_inventario (id_jogador_a d) _) as [ia|] eqn:Ha; simpl; [|by left].
  destruct (get_inventario (id_jogador_b d) _) as [ib|] eqn:Hb; simpl; [|by left].
  destruct (procurar_carta (id_carta_a d) ia) as [ca|] eqn:Hca; simpl; [|by left].
  destruct (procurar_carta (id_carta_b d) ib) as [cb|] eqn:Hcb; simpl; [|by left].
  right. exists ia, ib, ca, cb.
  pose proof (Hbf _ _ Ha) as Hka. pose proof (Hbf _ _ Hb) as Hkb.
  unfold get_inventario in *; simpl in *. rewrite Hka, Hkb.
  repeat split; try done.
  - rewrite lookup_insert_ne by done. by rewrite lookup_insert_eq.
  - by rewrite lookup_insert_eq.
  - intros k Hk1 Hk2. by rewrite !lookup_insert_ne.
Qed.

(** C5.  A trade in which both sides are the same player, who holds both
    cards: every vote is a commit, the client is told the trade succeeded,
    and the stored inventory is the second leg alone.  The card given
    to side B is there twice, the card given to side A is gone. *)
Theorem troca_consigo_mesmo_meia_troca :
  let '(resposta, s) :=
    iniciar_troca_cartas (ambiente "t1" 0) "A" "p1" "p1" "CARTA-1001" "CARTA-2002"
      um_servidor_duas_cartas in
  get_inventario "p1" (redis um_servidor_duas_cartas)
    = Some (com_cartas [carta_x; carta_y] (Inventario_novo "p1" 0)) ∧
  codigo_http resposta = Some 200 ∧
  get_inventario "p1" (redis s)
    = Some (com_cartas [carta_x; carta_x] (Inventario_novo "p1" 0)).
Proof. vm_compute. done. Qed.

(** ** Card generation *)

Lemma simular_abertura_pacote_tres g jogador :
  List.length (simular_abertura_pacote g jogador) = 3%nat.
Proof. reflexivity. Qed.

Lemma simular_abertura_pacote_sorteios g g' jogador jogador' :
  (∀ k, (k < 12)%nat → g' k = g k) →
  simular_abertura_pacote g' jogador' = simular_abertura_pacote g jogador.
Proof.
  intros H. unfold simular_abertura_pacote, gerar_carta. simpl.
  rewrite !H by lia. reflexivity.
Qed.

(** The commit step of an open-pack transaction appends to the inventory
    of the target player the three cards of [simular_abertura_pacote],
    whatever the quantity of the transaction. *)
Lemma passo_de_commit_acrescenta_sorteadas
    (g : Gerador) (resultado : Resultado2PC) (c : Contexto)
    (transacao : Transacao2PC) (jogador : string) (quantidade : Z) :
  retorno (localizar_transacao (res_id_transacao resultado) c) = Retorna (Some transacao) →
  dados transacao = DadosPacote jogador quantidade →
  decisao resultado = GLOBAL_COMMIT →
  (∀ inv, get_inventario jogador (servico_coordenacao c) = Some inv →
          id_jogador inv = jogador) →
  let antes :=
    default (Inventario_novo jogador 0)
            (get_inventario jogador (servico_coordenacao c)) in
  let c' :=
    estado_final (_participante_commit_abort_abrir_pacote_logica g resultado c) in
  get_inventario jogador (servico_coordenacao c')
    = Some (com_cartas (cartas antes ++ simular_abertura_pacote g jogador) antes).
Proof.
  intros Hloc Hdados Hdec Hbf.
  revert Hloc. desdobrar. unfold get_inventario, get_transacao, cartas_extend in *.
  assert (Hid : id_jogador (default (Inventario_novo jogador 0)
                  (inventarios (servico_coordenacao c) !! jogador)) = jogador).
  { destruct (inventarios (servico_coordenacao c) !! jogador) eqn:E; simpl; eauto. }
  destruct (transacoes_em_andamento (self c) !! res_id_transacao resultado) eqn:Hc;
    simpl.
  - intros [= ->]. rewrite Hdados. simpl. rewrite decide_True by done. simpl.
    rewrite Hid. by rewrite lookup_insert_eq.
  - destruct (transacoes (servico_coordenacao c) !! res_id_transacao resultado) eqn:Hr;
      simpl; intros [= ->].
    rewrite Hdados. simpl. rewrite decide_True by done. simpl.
    rewrite Hid. by rewrite lookup_insert_eq.
Qed.

(** C7, as stated, fails.  The commit step of one and the same
    transaction, run twice on the same state, stores different cards when
    the generator draws differently; so does the whole request, under the
    same transaction id.  And on two servers a committed open leaves six
    cards: each participant runs the commit step on the one stored
    inventory. *)
Lemma cartas_nao_dependem_do_id_transacao :
  get_inventario "p1"
    (servico_coordenacao
       (estado_final (_participante_commit_abort_abrir_pacote_logica (λ _, 0%N)
                        decisao_exemplo contexto_preparado)))
  ≠ get_inventario "p1"
      (servico_coordenacao
         (estado_final (_participante_commit_abort_abrir_pacote_logica (λ _, 1%N)
                          decisao_exemplo contexto_preparado)))
  ∧ get_inventario "p1"
      (redis (abrir_pacote (ambiente "t1" 0) "A" "p1" um_servidor_um_jogador).2)
    ≠ get_inventario "p1"
        (redis (abrir_pacote (ambiente "t1" 1) "A" "p1" um_servidor_um_jogador).2)
  ∧ List.length
      (cartas_de "p1" (abrir_pacote (ambiente "t1" 0) "A" "p1" dois_servidores_um_jogador).2)
    = 6%nat.
Proof. vm_compute. split; [discriminate|split; [discriminate|reflexivity]]. Qed.

(** ** The latency listener *)

(** C9, as the code has it.  Each datagram is answered to its sender, in
    order of arrival; the answer repeats the datagram when it has at most
    1024 bytes and is its first 1024 bytes otherwise. *)
Theorem udp_listener_eco_ate_1024 (chegadas : list Datagrama) :
  udp_listener chegadas =
    (λ chegada : Datagrama,
       (if bool_decide (List.length chegada.1 ≤ 1024)%nat
        then chegada.1 else take 1024 chegada.1,
        chegada.2)) <$> chegadas.
Proof.
  induction chegadas as [|[data addr] resto IH]; [reflexivity|].
  simpl. rewrite IH. f_equal. f_equal.
  case_bool_decide; [|reflexivity].
  by apply take_ge.
Qed.

(** C9, as stated, fails on a datagram of 1025 bytes: the answer has 1024. *)
Lemma udp_listener_trunca :
  udp_listener [(replicate 1025 Byte.x00, "10.0.0.7:5000")]
  ≠ [(replicate 1025 Byte.x00, "10.0.0.7:5000")].
Proof.
  intros H. apply (f_equal (λ l, List.length <$> (fst <$> l))) in H.
  vm_compute in H. discriminate.
Qed.

(** ** Stock accounting of the open-pack protocol *)

(** C1.  On one server, 52 players join and each opens one pack: from the
    initial stock of 50, 51 opens are committed (all but the 51st, whose
    abort puts a pack back that it never took), 153 cards are handed out
    and the stock ends at 0, not at 50 - 51.  On the five servers of the
    stress scenario, 60 players, twelve per server: each commit takes five
    packs, 18 opens are committed and the stock ends at 2, not at 50 - 18.
    On two servers a single committed open takes two packs.  No request is
    answered 200: the answer to a committed open is lost in the
    publication of its event. *)
Theorem estoque_nao_acompanha_os_sucessos :
  (let '(_, s1) := executar (entradas sempre_a 52) (implantar ["A"]) in
   let '(codigos, s2) := executar (aberturas sempre_a 52) s1 in
   estoque s1 = 50 ∧ abriram 52 s1 = 0%nat ∧
   abriram 52 s2 = 51%nat ∧ total_de_cartas 52 s2 = 153%nat ∧ estoque s2 = 0 ∧
   sucessos codigos = 0%nat) ∧
  (let '(_, s1) := executar (entradas doze_por_servidor 60) (implantar cinco_servidores) in
   let '(codigos, s2) := executar (aberturas doze_por_servidor 60) s1 in
   estoque s1 = 50 ∧ abriram 60 s1 = 0%nat ∧
   abriram 60 s2 = 18%nat ∧ estoque s2 = 2 ∧
   sucessos codigos = 0%nat) ∧
  (let '(resposta, s) := abrir_pacote (ambiente "t1" 0) "A" "p1" dois_servidores_um_jogador in
   estoque dois_servidores_um_jogador = 50 ∧
   (List.length ∘ cartas) <$> get_inventario "p1" (redis dois_servidores_um_jogador)
     = Some 0%nat ∧
   (List.length ∘ cartas) <$> get_inventario "p1" (redis s) = Some 6%nat ∧
   pacotes_de "p1" (redis s) = 0 ∧
   estoque s = 48 ∧
   resposta = erro_interno).
Proof. vm_compute. done. Qed.

(** C2.  With the stock at 0, the next open is aborted: the only
    participant votes VOTE_ABORT, having reserved nothing, the decision is
    GLOBAL_ABORT, and the abort handler adds the quantity to the stock all
    the same.  The stock was 0 when the transaction started and is 1 once
    the decision has been processed. *)
Theorem abort_devolve_o_que_nao_reservou :
  estoque estoque_esgotado = 0 ∧
  (let '(res, s) :=
     iniciar_transacao_abertura_pacote (ambiente "t50" 0) "A" (jogador_n 50)
       estoque_esgotado in
   match res with
   | Retorna desfecho =>
       sucesso desfecho = false ∧
       decisao_global desfecho = GLOBAL_ABORT ∧
       (λ v : option Voto2PC, voto <$> v) <$> votos desfecho = [Some VOTE_ABORT]
   | Levanta _ => False
   end ∧
   estoque s = 1) ∧
  (let '(resposta, s) :=
     abrir_pacote (ambiente "t50" 0) "A" (jogador_n 50) estoque_esgotado in
   codigo_http resposta = Some 500 ∧
   estoque s = 1).
Proof. vm_compute. done. Qed.

(** ** Reasoning about actions *)

Lemma bind_retorna {S A B} (m : Acao S A) (f : A → Acao S B) s b s' :
  (m ≫= f) s = (Retorna b, s') →
  ∃ a s1, m s = (Retorna a, s1) ∧ f a s1 = (Retorna b, s').
Proof.
  unfold mbind, Acao_bind. destruct (m s) as [[a|e] s1]; [eauto|done].
Qed.

Lemma bind_passo {S A B} (m : Acao S A) (f : A → Acao S B) s a s1 :
  m s = (Retorna a, s1) → (m ≫= f) s = f a s1.
Proof. unfold mbind, Acao_bind. by intros ->. Qed.

Lemma bind_levanta {S A B} (m : Acao S A) (f : A → Acao S B) s e s1 :
  m s = (Levanta e, s1) → (m ≫= f) s = (Levanta e, s1).
Proof. unfold mbind, Acao_bind. by intros ->. Qed.

(** A relation between the state before and the state after, kept by an
    action however it ends. *)
Section Preservacao.
Context {S : Type} (R : S → S → Prop).
Hypothesis R_refl : ∀ s, R s s.
Hypothesis R_trans : ∀ s1 s2 s3, R s1 s2 → R s2 s3 → R s1 s3.

Lemma preserva_ret {A} (a : A) : preserva R (mret a).
Proof. intros s. apply R_refl. Qed.

Lemma preserva_levantar {A} e : preserva R (levantar (A := A) e).
Proof. intros s. apply R_refl. Qed.

Lemma preserva_ler : preserva R ler.
Proof. intros s. apply R_refl. Qed.

Lemma preserva_bind {A B} (m : Acao S A) (f : A → Acao S B) :
  preserva R m → (∀ a, preserva R (f a)) → preserva R (m ≫= f).
Proof.
  intros Hm Hf s. unfold mbind, Acao_bind.
  specialize (Hm s). destruct (m s) as [[a|e] s1]; simpl in *; [|done].
  eapply R_trans; [exact Hm|apply Hf].
Qed.

Lemma preserva_try_except {A} (corpo tratador : Acao S A) captura :
  preserva R corpo → preserva R tratador →
  preserva R (try_except corpo captura tratador).
Proof.
  intros Hc Ht s. unfold try_except.
  specialize (Hc s). destruct (corpo s) as [[a|e] s1]; simpl in *; [done|].
  destruct (captura e); simpl; [|done].
  eapply R_trans; [exact Hc|apply Ht].
Qed.

Lemma preserva_if {A} (b : bool) (m1 m2 : Acao S A) :
  preserva R m1 → preserva R m2 → preserva R (if b then m1 else m2).
Proof. by destruct b. Qed.
End Preservacao.

(** Relations between systems that every call into a server keeps carry
    over to the exchanges on the network. *)
Section PreservacaoNaRede.
Context (R : Sistema → Sistema → Prop).
Hypothesis R_refl : ∀ s, R s s.
Hypothesis R_trans : ∀ s1 s2 s3, R s1 s2 → R s2 s3 → R s1 s3.

Lemma preserva_em_no {A} url (metodo : Acao Contexto A) :
  em_qualquer_no R metodo → preserva R (em_no url metodo).
Proof.
  intros H s. unfold em_no.
  destruct (servidores s !! url) eqn:E; [by apply H|apply R_refl].
Qed.

Lemma preserva_requests_post {A} entrega url (handler : option (Acao Contexto A)) :
  (∀ h, handler = Some h → em_qualquer_no R h) →
  preserva R (requests_post entrega url handler).
Proof.
  intros H s. unfold requests_post.
  destruct entrega, (servidores s !! url) as [srv|] eqn:E, handler as [h|];
    simpl; try apply R_refl.
  all: specialize (H h eq_refl url srv s E);
    destruct (executar_em url srv h s) as [[a|e] s1]; simpl in *; exact H.
Qed.

Lemma preserva_enviar_prepare entrega url transacao endpoint :
  em_qualquer_no R (participante_prepare_abrir_pacote transacao) →
  em_qualquer_no R (participante_prepare_troca_cartas transacao) →
  preserva R (_enviar_prepare entrega url transacao endpoint).
Proof.
  intros H1 H2. unfold _enviar_prepare.
  apply (preserva_try_except R R_trans); [|by apply preserva_ret].
  apply (preserva_bind R R_trans).
  - apply preserva_requests_post. intros h.
    unfold rota_prepare. repeat case_decide; simpl; intros [= <-]; done.
  - intros response. apply (preserva_bind R R_trans); [|intros; by apply preserva_ret].
    unfold raise_for_status. destruct (_ <=? _)%Z;
      [by apply preserva_levantar|by apply preserva_ret].
Qed.

Lemma preserva_enviar_decisao entrega g url resultado endpoint :
  em_qualquer_no R (participante_commit_abort_abrir_pacote g resultado) →
  em_qualquer_no R (participante_commit_abort_troca_cartas resultado) →
  preserva R (_enviar_decisao entrega g url resultado endpoint).
Proof.
  intros H1 H2. unfold _enviar_decisao.
  apply (preserva_try_except R R_trans); [|by apply preserva_ret].
  apply (preserva_bind R R_trans); [|intros; by apply preserva_ret].
  apply preserva_requests_post. intros h.
  unfold rota_commit_abort. repeat case_decide; simpl; intros [= <-]; done.
Qed.

Lemma preserva_enviar_decisoes amb i destinos resultado endpoint :
  (∀ g, em_qualquer_no R (participante_commit_abort_abrir_pacote g resultado)) →
  em_qualquer_no R (participante_commit_abort_troca_cartas resultado) →
  preserva R (enviar_decisoes amb i destinos resultado endpoint).
Proof.
  intros H1 H2. revert i. induction destinos as [|u resto IH]; intros i; simpl.
  - by apply preserva_ret.
  - apply (preserva_bind R R_trans); [|intros; apply IH].
    by apply preserva_enviar_decisao.
Qed.

Lemma preserva_finalizar amb eu id decisao_final endpoint :
  em_qualquer_no R (buscar_transacao id) →
  em_qualquer_no R ler_self →
  em_qualquer_no R (em_andamento_pop id) →
  em_qualquer_no R (persistir (remover_transacao id)) →
  (∀ g resultado, decisao resultado = decisao_final →
     em_qualquer_no R (participante_commit_abort_abrir_pacote g resultado)) →
  (∀ resultado, decisao resultado = decisao_final →
     em_qualquer_no R (participante_commit_abort_troca_cartas resultado)) →
  preserva R (_finalizar_transacao_generica amb eu id decisao_final endpoint).
Proof.
  intros Hb Hl Hp Hr H1 H2. unfold _finalizar_transacao_generica.
  apply (preserva_bind R R_trans); [by apply preserva_em_no|].
  intros [tx|]; [|by apply preserva_ret].
  apply (preserva_bind R R_trans); [by apply preserva_em_no|].
  intros svc.
  apply (preserva_bind R R_trans); [|intros _].
  { repeat case_decide; try by apply preserva_ret.
    - apply preserva_em_no. by apply H1.
    - apply preserva_em_no. by apply H2. }
  apply (preserva_bind R R_trans); [|intros _].
  { apply preserva_enviar_decisoes; [intros g; by apply H1|by apply H2]. }
  apply (preserva_bind R R_trans); [by apply preserva_em_no|intros _].
  by apply preserva_em_no.
Qed.
End PreservacaoNaRede.

(** Relations between stores, kept by the writes to the stock and to the
    transaction records, carry over to the participant handlers. *)
Section PreservacaoNoRedis.
Context (R : Redis → Redis → Prop).
Hypothesis R_refl : ∀ r, R r r.
Hypothesis R_trans : ∀ r1 r2 r3, R r1 r2 → R r2 r3 → R r1 r3.
Hypothesis R_set_transacao : ∀ t r, R r (set_transacao t r).
Hypothesis R_remover_transacao : ∀ id r, R r (remover_transacao id r).
Hypothesis R_set_estoque_global : ∀ e r, R r (set_estoque_global e r).

Lemma RC_refl c : RC R c c.
Proof. apply R_refl. Qed.
Lemma RC_trans c1 c2 c3 : RC R c1 c2 → RC R c2 c3 → RC R c1 c3.
Proof. apply R_trans. Qed.
Lemma RS_refl s : RS R s s.
Proof. apply R_refl. Qed.
Lemma RS_trans s1 s2 s3 : RS R s1 s2 → RS R s2 s3 → RS R s1 s3.
Proof. apply R_trans. Qed.

Lemma RC_em_qualquer_no {A} (m : Acao Contexto A) :
  preserva (RC R) m → em_qualquer_no (RS R) m.
Proof.
  intros H url srv s _. unfold executar_em.
  specialize (H {| self := servico_2pc srv; servico_coordenacao := redis s |}).
  destruct (m _) as [res c]. exact H.
Qed.

Lemma RC_guardar t : preserva (RC R) (em_andamento_guardar t).
Proof. intros c. apply R_refl. Qed.
Lemma RC_pop id : preserva (RC R) (em_andamento_pop id).
Proof. intros c. apply R_refl. Qed.
Lemma RC_consultar {A} (f : Redis → A) : preserva (RC R) (consultar f).
Proof. intros c. apply R_refl. Qed.
Lemma RC_persistir f : (∀ r, R r (f r)) → preserva (RC R) (persistir f).
Proof. intros H c. apply H. Qed.
Lemma RC_operar {A} (f : Redis → A * Redis) :
  (∀ r, R r (f r).2) → preserva (RC R) (operar f).
Proof.
  intros H c. unfold operar. specialize (H (servico_coordenacao c)).
  destruct (f _) as [a r]. exact H.
Qed.
Lemma RC_dados_id_jogador t : preserva (RC R) (dados_id_jogador t).
Proof. intros c. unfold dados_id_jogador. destruct (dados t); apply R_refl. Qed.
Lemma RC_dados_quantidade t : preserva (RC R) (dados_quantidade_pacotes t).
Proof. intros c. unfold dados_quantidade_pacotes. destruct (dados t); apply R_refl. Qed.
Lemma RC_dados_detalhes t : preserva (RC R) (dados_detalhes_troca t).
Proof. intros c. unfold dados_detalhes_troca. destruct (dados t); apply R_refl. Qed.

Lemma R_decrementar q r : R r (decrementar_estoque_atomico [] q r).2.
Proof. simpl. case_bool_decide; simpl; [apply R_refl|apply R_set_estoque_global]. Qed.

Lemma R_incrementar q r : R r (incrementar_estoque_atomico [] q r).2.
Proof. apply R_set_estoque_global. Qed.

Ltac liga := apply (preserva_bind (RC R) RC_trans); [|intros].
Ltac folha :=
  first [ apply (preserva_ret (RC R) RC_refl)
        | apply (preserva_ler (RC R) RC_refl)
        | apply RC_guardar | apply RC_pop | apply RC_consultar
        | apply RC_dados_id_jogador | apply RC_dados_quantidade
        | apply RC_dados_detalhes
        | apply RC_persistir; first [apply R_set_transacao | apply R_remover_transacao]
        | apply RC_operar; first [apply R_decrementar | apply R_incrementar] ].

Lemma RC_prepare_abrir_pacote t : preserva (RC R) (participante_prepare_abrir_pacote t).
Proof.
  unfold participante_prepare_abrir_pacote, _participante_prepare_abrir_pacote_logica.
  repeat (liga; [folha|]). destruct (negb _); folha.
Qed.

Lemma RC_prepare_troca_cartas t : preserva (RC R) (participante_prepare_troca_cartas t).
Proof.
  unfold participante_prepare_troca_cartas, _participante_prepare_troca_cartas_logica.
  repeat (liga; [folha|]).
  repeat match goal with |- preserva _ (if ?b then _ else _) => destruct b end; folha.
Qed.

Lemma RC_localizar id : preserva (RC R) (localizar_transacao id).
Proof. unfold localizar_transacao. liga; [folha|]. destruct a; folha. Qed.

Lemma RC_buscar id : preserva (RC R) (buscar_transacao id).
Proof.
  unfold buscar_transacao. liga; [folha|].
  destruct (_ !! _); folha.
Qed.

Lemma RC_ler_self : preserva (RC R) ler_self.
Proof. unfold ler_self. liga; folha. Qed.

(** The two decision handlers, given what the commit branch does to the
    store. *)
Lemma RC_commit_abort_abrir_pacote g resultado :
  (decisao resultado = GLOBAL_COMMIT →
   ∀ jogador r,
     R r (set_inventario
            (cartas_extend (simular_abertura_pacote g jogador)
               (default (Inventario_novo jogador 0) (get_inventario jogador r))) r)) →
  preserva (RC R) (participante_commit_abort_abrir_pacote g resultado).
Proof.
  intros Hcommit.
  unfold participante_commit_abort_abrir_pacote,
    _participante_commit_abort_abrir_pacote_logica.
  liga; [apply RC_localizar|]. destruct a as [tx|]; [|folha].
  liga; [folha|]. liga; [|folha].
  repeat case_decide; try folha.
  - intros c. unfold mbind, Acao_bind, consultar, persistir, gravar; simpl.
    by apply Hcommit.
  - liga; [folha|]. liga; folha.
Qed.

Lemma RC_commit_abort_troca_cartas resultado :
  (decisao resultado = GLOBAL_COMMIT → ∀ d, preserva (RC R) (trocar d)) →
  preserva (RC R) (participante_commit_abort_troca_cartas resultado).
Proof.
  intros Hcommit.
  unfold participante_commit_abort_troca_cartas,
    _participante_commit_abort_troca_cartas_logica.
  liga; [apply RC_localizar|]. destruct a as [tx|]; [|folha].
  liga; [folha|]. liga; [|folha].
  case_decide; [by apply Hcommit|folha].
Qed.
End PreservacaoNoRedis.

(** With the effect of the two commit branches on the store added, the
    relation is kept by the coordinators as well. *)
Section PreservacaoNosCoordenadores.
Context (R : Redis → Redis → Prop).
Hypothesis R_refl : ∀ r, R r r.
Hypothesis R_trans : ∀ r1 r2 r3, R r1 r2 → R r2 r3 → R r1 r3.
Hypothesis R_set_transacao : ∀ t r, R r (set_transacao t r).
Hypothesis R_remover_transacao : ∀ id r, R r (remover_transacao id r).
Hypothesis R_set_estoque_global : ∀ e r, R r (set_estoque_global e r).

Lemma RS_enviar_prepare entrega url transacao endpoint :
  preserva (RS R) (_enviar_prepare entrega url transacao endpoint).
Proof.
  apply preserva_enviar_prepare; [apply RS_refl|apply RS_trans| |]; try done.
  - apply (RC_em_qualquer_no R). by apply RC_prepare_abrir_pacote.
  - apply (RC_em_qualquer_no R). by apply RC_prepare_troca_cartas.
Qed.

(** The decision is given; the commit branches matter when it is a commit. *)
Context (decisao_final : string).
Hypothesis R_abrir :
  decisao_final = GLOBAL_COMMIT →
  ∀ g jogador r,
    R r (set_inventario
           (cartas_extend (simular_abertura_pacote g jogador)
              (default (Inventario_novo jogador 0) (get_inventario jogador r))) r).
Hypothesis R_trocar :
  decisao_final = GLOBAL_COMMIT → ∀ d, preserva (RC R) (trocar d).

Lemma RS_finalizar amb eu id endpoint :
  preserva (RS R) (_finalizar_transacao_generica amb eu id decisao_final endpoint).
Proof.
  apply preserva_finalizar; [apply RS_refl|apply RS_trans|..]; try done.
  - apply (RC_em_qualquer_no R). by apply RC_buscar.
  - apply (RC_em_qualquer_no R). by apply RC_ler_self.
  - apply (RC_em_qualquer_no R). by apply RC_pop.
  - apply (RC_em_qualquer_no R). by apply RC_persistir.
  - intros g resultado Hd. apply (RC_em_qualquer_no R). apply RC_commit_abort_abrir_pacote; try done.
    intros Hc. apply R_abrir. congruence.
  - intros resultado Hd. apply (RC_em_qualquer_no R). apply RC_commit_abort_troca_cartas; try done.
    intros Hc. apply R_trocar. congruence.
Qed.
End PreservacaoNosCoordenadores.

(** Relations that both commit branches keep are kept by whole
    transactions. *)
Section PreservacaoNasTransacoes.
Context (R : Redis → Redis → Prop).
Hypothesis R_refl : ∀ r, R r r.
Hypothesis R_trans : ∀ r1 r2 r3, R r1 r2 → R r2 r3 → R r1 r3.
Hypothesis R_set_transacao : ∀ t r, R r (set_transacao t r).
Hypothesis R_remover_transacao : ∀ id r, R r (remover_transacao id r).
Hypothesis R_set_estoque_global : ∀ e r, R r (set_estoque_global e r).
Hypothesis R_abrir :
  ∀ g jogador r,
    R r (set_inventario
           (cartas_extend (simular_abertura_pacote g jogador)
              (default (Inventario_novo jogador 0) (get_inventario jogador r))) r).
Hypothesis R_trocar : ∀ d, preserva (RC R) (trocar d).

Ltac liga := apply (preserva_bind (RS R) (RS_trans R R_trans)); [|intros].
Ltac fim := apply (preserva_ret (RS R) (RS_refl R R_refl)).
Ltac no_local :=
  apply (preserva_em_no (RS R) (RS_refl R R_refl)); apply (RC_em_qualquer_no R);
  first [ by apply RC_ler_self | by apply RC_guardar | by apply RC_persistir
        | by apply RC_prepare_abrir_pacote | by apply RC_prepare_troca_cartas ].
Ltac finaliza := apply RS_finalizar; auto.

Lemma RS_votos_remotos_abrir_pacote amb i destinos transacao n recebidos :
  preserva (RS R) (votos_remotos_abrir_pacote amb i destinos transacao n recebidos).
Proof.
  revert i n recebidos. induction destinos as [|u resto IH]; intros i n recebidos; simpl.
  - fim.
  - liga; [by apply RS_enviar_prepare|]. destruct (votou_commit a); [apply IH|fim].
Qed.

Lemma RS_votos_troca_cartas amb eu svc i destinos transacao n recebidos :
  preserva (RS R) (votos_troca_cartas amb eu svc i destinos transacao n recebidos).
Proof.
  revert i n recebidos. induction destinos as [|u resto IH]; intros i n recebidos; simpl.
  - fim.
  - liga.
    + case_decide; [|by apply RS_enviar_prepare]. liga; [no_local|fim].
    + destruct (votou_commit a); [apply IH|fim].
Qed.

Lemma RS_iniciar_transacao_abertura_pacote amb eu jogador :
  preserva (RS R) (iniciar_transacao_abertura_pacote amb eu jogador).
Proof.
  unfold iniciar_transacao_abertura_pacote.
  liga; [no_local|]. liga; [no_local|]. liga; [no_local|]. liga; [no_local|].
  case_bool_decide.
  - liga; [apply RS_votos_remotos_abrir_pacote|].
    destruct a3 as [[todos n] recebidos]. destruct todos.
    + case_bool_decide; (liga; [finaliza|fim]).
    + liga; [finaliza|fim].
  - liga; [finaliza|fim].
Qed.

Lemma RS_iniciar_transacao_troca_cartas amb eu detalhes :
  preserva (RS R) (iniciar_transacao_troca_cartas amb eu detalhes).
Proof.
  unfold iniciar_transacao_troca_cartas.
  liga; [no_local|]. liga; [no_local|]. liga; [no_local|].
  liga; [apply RS_votos_troca_cartas|].
  destruct a2 as [[todos n] recebidos]. destruct todos.
  - case_bool_decide; (liga; [finaliza|fim]).
  - liga; [finaliza|fim].
Qed.
End PreservacaoNasTransacoes.

(** ** Packs are granted on joining only *)

Lemma sem_pacotes_novos_refl r : sem_pacotes_novos r r.
Proof. intros H. split; [done|]. intros; lia. Qed.

Lemma sem_pacotes_novos_trans r1 r2 r3 :
  sem_pacotes_novos r1 r2 → sem_pacotes_novos r2 r3 → sem_pacotes_novos r1 r3.
Proof.
  intros H12 H23 Hbf. destruct (H12 Hbf) as [Hbf2 Hle2].
  destruct (H23 Hbf2) as [Hbf3 Hle3]. split; [done|].
  intros k. specialize (Hle2 k). specialize (Hle3 k). lia.
Qed.

Lemma sem_pacotes_novos_mesmos_inventarios r r' :
  inventarios r' = inventarios r → sem_pacotes_novos r r'.
Proof.
  intros Heq Hbf. unfold bem_formado, pacotes_de, get_inventario in *.
  rewrite Heq. split; [done|]. intros; lia.
Qed.

Lemma pacotes_de_set_inventario inv r k :
  pacotes_de k (set_inventario inv r) =
    if decide (id_jogador inv = k) then pacotes_disponiveis inv else pacotes_de k r.
Proof.
  unfold pacotes_de, get_inventario, set_inventario; simpl.
  rewrite lookup_insert. by case_decide.
Qed.

Lemma bem_formado_set_inventario inv r :
  bem_formado r → bem_formado (set_inventario inv r).
Proof.
  intros Hbf k inv'. unfold get_inventario, set_inventario; simpl.
  rewrite lookup_insert. case_decide; [by intros [= <-]|apply Hbf].
Qed.

Lemma sem_pacotes_novos_set_inventario inv r :
  (bem_formado r → pacotes_disponiveis inv ≤ pacotes_de (id_jogador inv) r) →
  sem_pacotes_novos r (set_inventario inv r).
Proof.
  intros Hle Hbf. split; [by apply bem_formado_set_inventario|].
  intros k. rewrite pacotes_de_set_inventario. case_decide; [subst; auto|lia].
Qed.

Lemma sem_pacotes_novos_abrir g jogador r :
  sem_pacotes_novos r
    (set_inventario
       (cartas_extend (simular_abertura_pacote g jogador)
          (default (Inventario_novo jogador 0) (get_inventario jogador r))) r).
Proof.
  apply sem_pacotes_novos_set_inventario. intros Hbf. simpl.
  unfold pacotes_de.
  destruct (get_inventario jogador r) as [inv|] eqn:E; simpl.
  - rewrite (Hbf _ _ E), E. lia.
  - rewrite E. lia.
Qed.

Lemma sem_pacotes_novos_trocar d :
  preserva (RC sem_pacotes_novos) (trocar d).
Proof.
  intros c. unfold RC. destruct c as [svc r]. desdobrar. simpl.
  destruct (get_inventario (id_jogador_a d) r) as [ia|] eqn:Ha; simpl;
    [|apply sem_pacotes_novos_refl].
  destruct (get_inventario (id_jogador_b d) r) as [ib|] eqn:Hb; simpl;
    [|apply sem_pacotes_novos_refl].
  destruct (procurar_carta (id_carta_a d) ia) as [ca|]; simpl;
    [|apply sem_pacotes_novos_refl].
  destruct (procurar_carta (id_carta_b d) ib) as [cb|]; simpl;
    [|apply sem_pacotes_novos_refl].
  intros Hbf. split.
  - by do 2 apply bem_formado_set_inventario.
  - intros k. rewrite !pacotes_de_set_inventario. simpl.
    rewrite (Hbf _ _ Ha), (Hbf _ _ Hb).
    destruct (decide (id_jogador_b d = k)) as [<-|Hkb].
    + unfold pacotes_de. rewrite Hb. lia.
    + destruct (decide (id_jogador_a d = k)) as [<-|Hka]; [|lia].
      unfold pacotes_de. rewrite Ha. lia.
Qed.

Lemma sem_pacotes_novos_no {A} (m : Acao Contexto A) url :
  preserva (RC sem_pacotes_novos) m →
  preserva (RS sem_pacotes_novos) (em_no url m).
Proof.
  intros H. apply preserva_em_no; [apply RS_refl, sem_pacotes_novos_refl|].
  by apply RC_em_qualquer_no.
Qed.

Ltac inventarios_intactos :=
  intros; apply sem_pacotes_novos_mesmos_inventarios; reflexivity.

Ltac relacao_pacotes :=
  first [ exact sem_pacotes_novos_refl
        | exact sem_pacotes_novos_trans
        | exact sem_pacotes_novos_trocar
        | by (intros; apply sem_pacotes_novos_abrir)
        | by (intros; apply sem_pacotes_novos_trocar)
        | inventarios_intactos ].

Lemma sem_pacotes_novos_abrir_pacote amb eu jogador s :
  sem_pacotes_novos (redis s) (redis (abrir_pacote amb eu jogador s).2).
Proof.
  unfold abrir_pacote, no_servidor.
  destruct (servidores s !! eu) as [srv|]; [|apply sem_pacotes_novos_refl].
  destruct (get_inventario jogador (redis s)) as [inv|] eqn:Hinv;
    [|apply sem_pacotes_novos_refl].
  case_bool_decide as Hpac; [apply sem_pacotes_novos_refl|].
  set (s1 := coordenacao _ s).
  assert (H01 : sem_pacotes_novos (redis s) (redis s1)).
  { apply sem_pacotes_novos_set_inventario. intros Hbf. simpl.
    unfold pacotes_de. rewrite (Hbf _ _ Hinv), Hinv. lia. }
  pose proof (RS_iniciar_transacao_abertura_pacote sem_pacotes_novos
    sem_pacotes_novos_refl sem_pacotes_novos_trans
    ltac:(inventarios_intactos) ltac:(inventarios_intactos) ltac:(inventarios_intactos)
    sem_pacotes_novos_abrir sem_pacotes_novos_trocar amb eu jogador s1) as H12.
  unfold RS in H12.
  destruct (iniciar_transacao_abertura_pacote amb eu jogador s1) as [[desfecho|e] s2];
    simpl in *; [|by eapply sem_pacotes_novos_trans].
  destruct (sucesso desfecho).
  - destruct (get_inventario jogador (redis s2)); publicado; simpl;
      by eapply sem_pacotes_novos_trans.
  - simpl. intros Hbf.
    destruct (H01 Hbf) as [Hbf1 Hle1]. destruct (H12 Hbf1) as [Hbf2 Hle2].
    split; [by apply bem_formado_set_inventario|].
    intros k. rewrite pacotes_de_set_inventario. simpl.
    case_decide as Hk.
    + rewrite <- Hk, (Hbf _ _ Hinv). unfold pacotes_de. rewrite Hinv. lia.
    + specialize (Hle1 k). specialize (Hle2 k). lia.
Qed.

Lemma sem_pacotes_novos_iniciar_troca_cartas amb eu a b ca cb s :
  sem_pacotes_novos (redis s) (redis (iniciar_troca_cartas amb eu a b ca cb s).2).
Proof.
  unfold iniciar_troca_cartas, no_servidor.
  destruct (servidores s !! eu) as [srv|]; [|apply sem_pacotes_novos_refl].
  match goal with |- context [iniciar_transacao_troca_cartas amb eu ?d s] =>
    pose proof (RS_iniciar_transacao_troca_cartas sem_pacotes_novos
      sem_pacotes_novos_refl sem_pacotes_novos_trans
      ltac:(inventarios_intactos) ltac:(inventarios_intactos) ltac:(inventarios_intactos)
      sem_pacotes_novos_abrir sem_pacotes_novos_trocar amb eu d s) as H;
    unfold RS in H;
    destruct (iniciar_transacao_troca_cartas amb eu d s) as [[desfecho|e] s2]
  end; simpl in *; [|done].
  by destruct (sucesso desfecho).
Qed.

Lemma sem_pacotes_novos_resposta_de {A} (m : Acao Sistema A) eu s :
  preserva (RS sem_pacotes_novos) m →
  sem_pacotes_novos (redis s)
    (redis (no_servidor eu (λ _ s, resposta_de (m s)) s).2).
Proof.
  intros H. unfold no_servidor.
  destruct (servidores s !! eu); [|apply sem_pacotes_novos_refl].
  specialize (H s). unfold RS in H. by destruct (m s) as [[a|e] s'].
Qed.

(** Requests served one at a time.  Joining under an id that has no
    inventory yet stores, and returns, a new inventory with exactly one
    pack and no cards, and touches no other inventory.  Every other
    request, served to its end before the next one starts, leaves each
    player with at most the packs available before it. *)
Lemma pacote_so_na_entrada
    (amb : Ambiente) (eu : string) (req : Requisicao) (s : Sistema) :
  bem_formado (redis s) →
  is_Some (servidores s !! eu) →
  let s' := (atender amb eu req s).2 in
  bem_formado (redis s') ∧
  match req with
  | POST_jogador_entrar nome_jogador =>
      get_inventario (uuid4 amb) (redis s) = None →
      ∃ corpo,
        (entrar_jogador amb eu nome_jogador s).1 = HTTP_200 corpo ∧
        jog_id_jogador (ce_jogador corpo) = uuid4 amb ∧
        ce_inventario corpo = Inventario_novo (uuid4 amb) 1 ∧
        pacotes_disponiveis (ce_inventario corpo) = 1 ∧
        get_inventario (uuid4 amb) (redis s') = Some (Inventario_novo (uuid4 amb) 1) ∧
        ∀ k, k ≠ uuid4 amb → get_inventario k (redis s') = get_inventario k (redis s)
  | _ => ∀ k, pacotes_de k (redis s') ≤ pacotes_de k (redis s)
  end.
Proof.
  intros Hbf [srv Hsrv]. simpl.
  assert (Hgeral : ∀ s', sem_pacotes_novos (redis s) (redis s') →
            bem_formado (redis s') ∧ ∀ k, pacotes_de k (redis s') ≤ pacotes_de k (redis s))
    by (intros s' H; exact (H Hbf)).
  destruct req; simpl.
  - unfold entrar_jogador, no_servidor. rewrite Hsrv.
    destruct (get_inventario (uuid4 amb) (redis s)) eqn:E; simpl.
    + split; [done|]. intros; done.
    + split; [by apply bem_formado_set_inventario|]. intros _.
      eexists. split; [reflexivity|]. simpl.
      unfold get_inventario; simpl.
      repeat split; [by rewrite lookup_insert_eq|].
      intros k Hk. by rewrite lookup_insert_ne.
  - unfold ver_inventario, no_servidor. rewrite Hsrv.
    destruct (get_inventario jogador (redis s)); simpl; (split; [done|intros; lia]).
  - apply Hgeral, sem_pacotes_novos_abrir_pacote.
  - apply Hgeral, sem_pacotes_novos_iniciar_troca_cartas.
  - apply Hgeral. unfold transacao_prepare_pacote.
    apply sem_pacotes_novos_resposta_de, sem_pacotes_novos_no.
    apply RC_prepare_abrir_pacote; relacao_pacotes.
  - apply Hgeral. unfold transacao_commit_abort_pacote.
    apply sem_pacotes_novos_resposta_de, sem_pacotes_novos_no.
    apply RC_commit_abort_abrir_pacote; relacao_pacotes.
  - apply Hgeral. unfold transacao_prepare_troca.
    apply sem_pacotes_novos_resposta_de, sem_pacotes_novos_no.
    apply RC_prepare_troca_cartas; relacao_pacotes.
  - apply Hgeral. unfold transacao_commit_abort_troca.
    apply sem_pacotes_novos_resposta_de, sem_pacotes_novos_no.
    apply RC_commit_abort_troca_cartas; relacao_pacotes.
Qed.

(** ** Actions that return *)

Lemma garante_ret {S A} (P : S → Prop) (a : A) (Q : A → S → Prop) :
  (∀ s, P s → Q a s) → garante P (mret a) Q.
Proof. intros H s Hs. exists a, s. split; [reflexivity|auto]. Qed.

Lemma garante_bind {S A B} (P : S → Prop) (m : Acao S A) (Q : A → S → Prop)
    (f : A → Acao S B) (T : B → S → Prop) :
  garante P m Q → (∀ a, garante (Q a) (f a) T) → garante P (m ≫= f) T.
Proof.
  intros Hm Hf s Hs. destruct (Hm s Hs) as (a & s1 & Heq & Hq).
  destruct (Hf a s1 Hq) as (b & s2 & Heq2 & Ht).
  exists b, s2. split; [|done]. by rewrite (bind_passo _ _ _ _ _ Heq).
Qed.

Lemma garante_fraco {S A} (P P' : S → Prop) (m : Acao S A) (Q Q' : A → S → Prop) :
  garante P m Q → (∀ s, P' s → P s) → (∀ a s, Q a s → Q' a s) → garante P' m Q'.
Proof.
  intros Hm HP HQ s Hs. destruct (Hm s (HP s Hs)) as (a & s1 & Heq & Hq). eauto.
Qed.

(** A relation kept by the action can be carried along. *)
Lemma garante_preserva {S A} (R : S → S → Prop) (P : S → Prop) (m : Acao S A)
    (Q : A → S → Prop) (I : S → Prop) :
  garante P m Q → preserva R m → (∀ s s', I s → R s s' → I s') →
  garante (λ s, P s ∧ I s) m (λ a s', Q a s' ∧ I s').
Proof.
  intros Hm HR HI s [Hs Hi]. destruct (Hm s Hs) as (a & s1 & Heq & Hq).
  exists a, s1. repeat split; try done.
  specialize (HR s). rewrite Heq in HR. eauto.
Qed.

(** *** Invariants of the calls into a server *)

Lemma mantem_servidor_refl eu s : mantem_servidor eu s s.
Proof. by intros H. Qed.
Lemma mantem_servidor_trans eu s1 s2 s3 :
  mantem_servidor eu s1 s2 → mantem_servidor eu s2 s3 → mantem_servidor eu s1 s3.
Proof. unfold mantem_servidor. auto. Qed.
Lemma mantem_cache_refl eu t s : mantem_cache eu t s s.
Proof. by intros H. Qed.
Lemma mantem_cache_trans eu t s1 s2 s3 :
  mantem_cache eu t s1 s2 → mantem_cache eu t s2 s3 → mantem_cache eu t s1 s3.
Proof. unfold mantem_cache. auto. Qed.

Lemma tem_em_cache_existe eu t s : tem_em_cache eu t s → existe_servidor eu s.
Proof. intros (srv & H & _). by exists srv. Qed.

Lemma mantem_servidor_sempre {A} eu (m : Acao Contexto A) :
  em_qualquer_no (mantem_servidor eu) m.
Proof.
  intros url srv s _ Hs. unfold executar_em. destruct (m _) as [res c]; simpl.
  unfold existe_servidor in *; simpl. rewrite lookup_insert.
  case_decide; [by eexists|done].
Qed.

(** A method that leaves the cached transaction where it is keeps
    [tem_em_cache], on whichever server it runs. *)
Lemma mantem_cache_se {A} eu t (m : Acao Contexto A) :
  (∀ c, transacoes_em_andamento (self c) !! id_transacao t = Some t →
        transacoes_em_andamento (self (m c).2) !! id_transacao t = Some t) →
  em_qualquer_no (mantem_cache eu t) m.
Proof.
  intros H url srv s Hsrv (srv0 & Hsrv0 & Hc). unfold executar_em.
  specialize (H {| self := servico_2pc srv; servico_coordenacao := redis s |}).
  destruct (m _) as [res c]; simpl in *.
  unfold tem_em_cache; simpl. rewrite lookup_insert. case_decide as Hu.
  - subst url. eexists. split; [reflexivity|]. simpl.
    apply H. congruence.
  - by exists srv0.
Qed.

(** A prepare for the transaction puts it into the cache. *)
Lemma prepare_abrir_pacote_guarda t c :
  transacoes_em_andamento (self (participante_prepare_abrir_pacote t c).2)
    !! id_transacao t = Some t.
Proof.
  desdobrar. simpl.
  destruct (dados t); simpl; [|by rewrite lookup_insert_eq].
  case_bool_decide; simpl; by rewrite lookup_insert_eq.
Qed.

Lemma prepare_troca_cartas_guarda t c :
  transacoes_em_andamento (self (participante_prepare_troca_cartas t c).2)
    !! id_transacao t = Some t.
Proof.
  desdobrar. simpl.
  destruct (dados t); simpl; [by rewrite lookup_insert_eq|].
  repeat match goal with |- context [if ?b then _ else _] => destruct b end;
    simpl; by rewrite lookup_insert_eq.
Qed.

Lemma mantem_cache_enviar_prepare eu t entrega url endpoint :
  preserva (mantem_cache eu t) (_enviar_prepare entrega url t endpoint).
Proof.
  apply preserva_enviar_prepare;
    [apply mantem_cache_refl|apply mantem_cache_trans| |].
  - apply mantem_cache_se. intros; apply prepare_abrir_pacote_guarda.
  - apply mantem_cache_se. intros; apply prepare_troca_cartas_guarda.
Qed.

(** *** The network calls always return *)

Lemma enviar_prepare_retorna entrega url t endpoint s :
  ∃ v s', _enviar_prepare entrega url t endpoint s = (Retorna v, s').
Proof.
  unfold _enviar_prepare, try_except, requests_post, raise_for_status.
  unfold mbind, mret, Acao_bind, Acao_ret, levantar.
  destruct entrega, (servidores s !! url) as [srv|], (rota_prepare endpoint) as [h|];
    simpl; eauto.
  all: destruct (executar_em url srv (h t) s) as [[a|e] s1]; simpl; eauto.
Qed.

(** A vote reaches the coordinator only from a delivered exchange in which
    the peer's handler returned it. *)
Lemma enviar_prepare_voto entrega url t endpoint s v s' :
  _enviar_prepare entrega url t endpoint s = (Retorna (Some v), s') →
  entrega = Entregue ∧
  ∃ servidor h,
    servidores s !! url = Some servidor ∧
    rota_prepare endpoint = Some h ∧
    executar_em url servidor (h t) s = (Retorna v, s').
Proof.
  unfold _enviar_prepare, try_except, requests_post, raise_for_status.
  unfold mbind, mret, Acao_bind, Acao_ret, levantar.
  destruct entrega, (servidores s !! url) as [srv|], (rota_prepare endpoint) as [h|];
    simpl; try done.
  - destruct (executar_em url srv (h t) s) as [[a|e] s1] eqn:E; simpl; [|done].
    intros [= -> ->]. split; [done|]. by eexists _, _.
  - by destruct (executar_em url srv (h t) s) as [[a|e] s1].
Qed.

Lemma enviar_decisao_retorna entrega g url resultado endpoint s :
  ∃ s', _enviar_decisao entrega g url resultado endpoint s = (Retorna (), s').
Proof.
  unfold _enviar_decisao, try_except, requests_post.
  unfold mbind, mret, Acao_bind, Acao_ret, levantar.
  destruct entrega, (servidores s !! url) as [srv|],
    (rota_commit_abort endpoint) as [h|]; simpl; eauto.
  all: destruct (executar_em url srv (h g resultado) s) as [[a|e] s1]; simpl; eauto.
Qed.

Lemma enviar_decisoes_retorna amb i destinos resultado endpoint s :
  ∃ s', enviar_decisoes amb i destinos resultado endpoint s = (Retorna (), s').
Proof.
  revert i s. induction destinos as [|u resto IH]; intros i s; simpl; [by eexists|].
  destruct (enviar_decisao_retorna (rede_decisao amb i) (random amb u) u
              resultado endpoint s) as [s1 H1].
  rewrite (bind_passo _ _ _ _ _ H1). apply IH.
Qed.

(** *** Calls at the coordinator's own server *)

Lemma em_no_existente {A} eu (h : Acao Contexto A) s servidor :
  servidores s !! eu = Some servidor →
  em_no eu h s = executar_em eu servidor h s.
Proof. unfold em_no. by intros ->. Qed.

Lemma garante_em_no {A} eu (h : Acao Contexto A) (P : Contexto → Prop) (Q : A → Prop) :
  (∀ c, P c → ∃ a c', h c = (Retorna a, c') ∧ Q a) →
  garante (λ s, ∃ servidor, servidores s !! eu = Some servidor ∧ P (contexto_de servidor s))
    (em_no eu h)
    (λ a s', Q a ∧ existe_servidor eu s').
Proof.
  intros H s (srv & Hsrv & Hp). rewrite (em_no_existente _ _ _ _ Hsrv).
  unfold executar_em. destruct (H _ Hp) as (a & c' & Heq & Hq).
  unfold contexto_de in Heq. rewrite Heq.
  eexists _, _. split; [reflexivity|]. split; [done|].
  unfold existe_servidor; simpl. rewrite lookup_insert_eq. by eexists.
Qed.

(** A method that returns from every state, run where a server exists. *)
Lemma garante_em_no_total {A} eu (h : Acao Contexto A) :
  (∀ c, ∃ a c', h c = (Retorna a, c')) →
  garante (existe_servidor eu) (em_no eu h) (λ _ s', existe_servidor eu s').
Proof.
  intros H. eapply garante_fraco.
  - apply (garante_em_no eu h (λ _, True) (λ _, True)).
    intros c _. destruct (H c) as (a & c' & Heq). eauto.
  - intros s [srv Hsrv]. by exists srv.
  - by intros a s' [_ ?].
Qed.

(** A method that returns when the cache holds the transaction, run where
    the cache holds it. *)
Lemma garante_em_no_cache {A} eu t (h : Acao Contexto A) (Q : A → Prop) :
  (∀ c, transacoes_em_andamento (self c) !! id_transacao t = Some t →
        ∃ a c', h c = (Retorna a, c') ∧ Q a) →
  garante (tem_em_cache eu t) (em_no eu h) (λ a s', Q a ∧ existe_servidor eu s').
Proof.
  intros H. eapply garante_fraco.
  - apply (garante_em_no eu h
             (λ c, transacoes_em_andamento (self c) !! id_transacao t = Some t) Q H).
  - intros s (srv & Hsrv & Hc). by exists srv.
  - done.
Qed.

Lemma garante_mantendo_cache {A} eu t (P : Sistema → Prop) (m : Acao Sistema A)
    (Q : A → Sistema → Prop) :
  garante P m Q → preserva (mantem_cache eu t) m →
  garante (λ s, P s ∧ tem_em_cache eu t s) m (λ a s', Q a s' ∧ tem_em_cache eu t s').
Proof.
  intros Hm Hp. apply (garante_preserva (mantem_cache eu t)); [done|done|].
  intros s s' Hs Hr. by apply Hr.
Qed.

Lemma preserva_em_no_cache {A} eu t url (h : Acao Contexto A) :
  (∀ c, transacoes_em_andamento (self c) !! id_transacao t = Some t →
        transacoes_em_andamento (self (h c).2) !! id_transacao t = Some t) →
  preserva (mantem_cache eu t) (em_no url h).
Proof.
  intros H. apply preserva_em_no; [apply mantem_cache_refl|].
  by apply mantem_cache_se.
Qed.

(** *** The decision phase returns *)

Lemma commit_abort_abrir_pacote_retorna g resultado t c :
  res_id_transacao resultado = id_transacao t →
  transacoes_em_andamento (self c) !! id_transacao t = Some t →
  (∃ jogador quantidade, dados t = DadosPacote jogador quantidade) →
  ∃ c', _participante_commit_abort_abrir_pacote_logica g resultado c = (Retorna (), c').
Proof.
  intros Hid Hc (j & q & Hd). desdobrar. rewrite Hid, Hc. simpl. rewrite Hd. simpl.
  repeat case_decide; simpl; eauto.
Qed.

Lemma commit_abort_troca_cartas_retorna resultado t c :
  res_id_transacao resultado = id_transacao t →
  transacoes_em_andamento (self c) !! id_transacao t = Some t →
  (∃ d, dados t = DadosTroca d) →
  ∃ c', _participante_commit_abort_troca_cartas_logica resultado c = (Retorna (), c').
Proof.
  intros Hid Hc (d & Hd).
  unfold _participante_commit_abort_troca_cartas_logica, localizar_transacao.
  unfold em_andamento_pop, consultar, persistir, dados_detalhes_troca, gravar,
    mbind, mret, Acao_bind, Acao_ret.
  rewrite Hid, Hc. simpl. rewrite Hd. simpl.
  case_decide; simpl; [|eauto].
  destruct (trocar_efeito d (com_em_andamento (delete (id_transacao t)) c)) as [invs ->].
  simpl. eauto.
Qed.

(** The steps of [_finalizar_transacao_generica] at the coordinator. *)
Lemma buscar_no_coordenador eu t :
  garante (tem_em_cache eu t) (em_no eu (buscar_transacao (id_transacao t)))
    (λ a s', a = Some t ∧ tem_em_cache eu t s').
Proof.
  eapply garante_fraco.
  - apply (garante_mantendo_cache eu t).
    + apply (garante_em_no_cache eu t (buscar_transacao (id_transacao t))
               (λ a, a = Some t)).
      intros c Hc. desdobrar. rewrite Hc. eauto.
    + apply preserva_em_no_cache. intros c Hc. desdobrar.
      rewrite Hc. exact Hc.
  - intros s Hs. split; exact Hs.
  - by intros a s' [[-> _] Hc].
Qed.

Lemma ler_self_no_coordenador eu t :
  garante (tem_em_cache eu t) (em_no eu ler_self) (λ _ s', tem_em_cache eu t s').
Proof.
  eapply garante_fraco.
  - apply (garante_mantendo_cache eu t).
    + apply (garante_em_no_cache eu t ler_self (λ _, True)).
      intros c Hc. desdobrar. eauto.
    + apply preserva_em_no_cache. by intros c Hc.
  - intros s Hs. split; exact Hs.
  - by intros a s' [_ Hc].
Qed.

Lemma decisao_local_retorna amb eu t resultado :
  bem_tipada t →
  res_id_transacao resultado = id_transacao t →
  garante (tem_em_cache eu t)
    (if decide (tipo_operacao t = "abrir_pacote") then
       em_no eu (_participante_commit_abort_abrir_pacote_logica (random amb eu) resultado)
     else if decide (tipo_operacao t = "troca_cartas") then
       em_no eu (_participante_commit_abort_troca_cartas_logica resultado)
     else mret ())
    (λ _ s', existe_servidor eu s').
Proof.
  intros [[Htipo Hd]|[Htipo Hd]] Hid.
  - rewrite decide_True by done.
    eapply garante_fraco;
      [apply (garante_em_no_cache eu t _ (λ _, True))|done|by intros a s' [_ ?]].
    intros c Hc.
    destruct (commit_abort_abrir_pacote_retorna (random amb eu) resultado t c Hid Hc Hd)
      as [c' ->]. eauto.
  - rewrite decide_False by (rewrite Htipo; done). rewrite decide_True by done.
    eapply garante_fraco;
      [apply (garante_em_no_cache eu t _ (λ _, True))|done|by intros a s' [_ ?]].
    intros c Hc.
    destruct (commit_abort_troca_cartas_retorna resultado t c Hid Hc Hd) as [c' ->].
    eauto.
Qed.

Lemma enviar_decisoes_garante amb eu i destinos resultado endpoint :
  garante (existe_servidor eu) (enviar_decisoes amb i destinos resultado endpoint)
    (λ _ s', existe_servidor eu s').
Proof.
  intros s Hs.
  destruct (enviar_decisoes_retorna amb i destinos resultado endpoint s) as [s' Heq].
  exists (), s'. split; [done|].
  pose proof (preserva_enviar_decisoes (mantem_servidor eu)
    (mantem_servidor_refl eu) (mantem_servidor_trans eu) amb i destinos resultado endpoint
    (λ g, mantem_servidor_sempre eu _) (mantem_servidor_sempre eu _) s) as H.
  rewrite Heq in H. by apply H.
Qed.

Tactic Notation "avanca" constr(G) "em" hyp(H) "como" ident(a) ident(s') ident(H') :=
  let E := fresh "E" in
  destruct (G _ H) as (a & s' & E & H');
  rewrite (bind_passo _ _ _ _ _ E); clear E.

Lemma finalizar_retorna amb eu t decisao_final endpoint :
  bem_tipada t →
  garante (tem_em_cache eu t)
    (_finalizar_transacao_generica amb eu (id_transacao t) decisao_final endpoint)
    (λ _ s', existe_servidor eu s').
Proof.
  intros Htipo s Hs. unfold _finalizar_transacao_generica.
  avanca (buscar_no_coordenador eu t) em Hs como achada s1 H1.
  destruct H1 as [-> H1].
  avanca (ler_self_no_coordenador eu t) em H1 como svc s2 H2.
  set (resultado := {| res_id_transacao := id_transacao t;
                       res_servidor_url := url_local svc;
                       decisao := decisao_final |}).
  avanca (decisao_local_retorna amb eu t resultado Htipo eq_refl) em H2 como u3 s3 H3.
  avanca (enviar_decisoes_garante amb eu 0 (outros_servidores svc) resultado endpoint)
    em H3 como u4 s4 H4.
  avanca (garante_em_no_total eu (em_andamento_pop (id_transacao t))
            ltac:(by (intros c; eexists _, _))) em H4 como u5 s5 H5.
  destruct (garante_em_no_total eu (persistir (remover_transacao (id_transacao t)))
              ltac:(by (intros c; eexists _, _)) _ H5) as (u & s6 & E & H6).
  destruct u. eauto.
Qed.

(** *** The vote phase of an open-pack transaction *)

Lemma ler_self_no_servidor eu s servidor :
  servidores s !! eu = Some servidor →
  ∃ s', em_no eu ler_self s = (Retorna (servico_2pc servidor), s') ∧
        existe_servidor eu s' ∧ redis s' = redis s.
Proof.
  intros Hsrv. rewrite (em_no_existente _ _ _ _ Hsrv).
  eexists. split; [reflexivity|]. split; [|reflexivity].
  unfold existe_servidor; simpl. rewrite lookup_insert_eq. by eexists.
Qed.

Lemma guardar_no_coordenador eu t :
  garante (existe_servidor eu) (em_no eu (em_andamento_guardar t))
    (λ _ s', tem_em_cache eu t s').
Proof.
  intros s [srv Hsrv]. rewrite (em_no_existente _ _ _ _ Hsrv).
  eexists _, _. split; [reflexivity|].
  eexists. simpl. split; [by rewrite lookup_insert_eq|].
  simpl. by rewrite lookup_insert_eq.
Qed.

Lemma persistir_no_coordenador eu t f :
  garante (tem_em_cache eu t) (em_no eu (persistir f)) (λ _ s', tem_em_cache eu t s').
Proof.
  eapply garante_fraco.
  - apply (garante_mantendo_cache eu t).
    + apply (garante_em_no_cache eu t (persistir f) (λ _, True)).
      intros c Hc. by eexists _, _.
    + apply preserva_em_no_cache. by intros c Hc.
  - intros s Hs. split; exact Hs.
  - by intros a s' [_ Hc].
Qed.

Lemma prepare_abrir_pacote_retorna t c :
  (∃ jogador quantidade, dados t = DadosPacote jogador quantidade) →
  ∃ v c', _participante_prepare_abrir_pacote_logica t c = (Retorna v, c').
Proof.
  intros (j & q & Hd). desdobrar. rewrite Hd. simpl.
  case_bool_decide; simpl; eauto.
Qed.

Lemma prepare_abrir_pacote_no_coordenador eu t :
  (∃ jogador quantidade, dados t = DadosPacote jogador quantidade) →
  garante (tem_em_cache eu t) (em_no eu (_participante_prepare_abrir_pacote_logica t))
    (λ _ s', tem_em_cache eu t s').
Proof.
  intros Hd. eapply garante_fraco.
  - apply (garante_mantendo_cache eu t).
    + apply (garante_em_no_cache eu t _ (λ _, True)).
      intros c Hc. destruct (prepare_abrir_pacote_retorna t c Hd) as (v & c' & ->). eauto.
    + apply preserva_em_no_cache. intros c _. apply prepare_abrir_pacote_guarda.
  - intros s Hs. split; exact Hs.
  - by intros a s' [_ Hc].
Qed.

(** What the loop over the remote participants hands back: the votes it
    adds are all commits exactly when it reports so, and then there is one
    per destination and the counter has grown by as many. *)
Lemma votos_remotos_abrir_pacote_apuracao amb eu t destinos :
  ∀ i n recebidos,
    garante (tem_em_cache eu t)
      (votos_remotos_abrir_pacote amb i destinos t n recebidos)
      (λ x s',
         tem_em_cache eu t s' ∧
         ∃ novos,
           x.2 = recebidos ++ novos ∧
           x.1.1 = forallb votou_commit novos ∧
           (if x.1.1
            then x.1.2 = n + Z.of_nat (List.length destinos) ∧
                 List.length novos = List.length destinos
            else True)).
Proof.
  induction destinos as [|u resto IH]; intros i n recebidos s Hs; simpl.
  - eexists _, _. split; [reflexivity|]. split; [done|].
    exists []. simpl. rewrite app_nil_r. repeat split. lia.
  - destruct (enviar_prepare_retorna (rede_prepare amb i) u t
                "/transacao/abrir_pacote/prepare" s) as (v & s1 & E).
    pose proof (mantem_cache_enviar_prepare eu t (rede_prepare amb i) u
                  "/transacao/abrir_pacote/prepare" s) as Hc.
    rewrite E in Hc. specialize (Hc Hs). simpl in Hc.
    rewrite (bind_passo _ _ _ _ _ E).
    destruct (votou_commit v) eqn:Hv.
    + destruct (IH (S i) (n + 1) (recebidos ++ [v]) s1 Hc)
        as (x & s2 & E2 & Hc2 & novos & Hx & Htodos & Hn).
      exists x, s2. split; [done|]. split; [done|].
      exists (v :: novos). rewrite Hx, <- app_assoc. simpl. rewrite Hv. simpl.
      repeat split; try done.
      destruct x.1.1; [|done]. destruct Hn as [Hn1 Hn2]. split; [lia|by f_equal].
    + eexists _, _. split; [reflexivity|]. split; [done|].
      exists [v]. simpl. by rewrite Hv.
Qed.

Lemma filter_uma_ocorrencia (x : string) (l : list string) :
  (List.length (filter (λ y, y ≠ x) l) + List.length (filter (λ y, y = x) l)
   = List.length l)%nat.
Proof.
  induction l as [|y l IH]; [reflexivity|].
  rewrite !filter_cons. destruct (decide (y = x)); repeat case_decide; simpl; try lia;
    done.
Qed.

(** ** Inventories left as they are *)

Lemma mesmos_inventarios_refl r : mesmos_inventarios r r.
Proof. reflexivity. Qed.

Lemma mesmos_inventarios_trans r1 r2 r3 :
  mesmos_inventarios r1 r2 → mesmos_inventarios r2 r3 → mesmos_inventarios r1 r3.
Proof. unfold mesmos_inventarios. congruence. Qed.

Ltac relacao_inventarios :=
  first [ exact mesmos_inventarios_refl
        | exact mesmos_inventarios_trans
        | by (intros; reflexivity)
        | by (unfold GLOBAL_ABORT, GLOBAL_COMMIT; intros; discriminate) ].

Lemma mesmos_inventarios_no {A} (m : Acao Contexto A) url :
  preserva (RC mesmos_inventarios) m →
  preserva (RS mesmos_inventarios) (em_no url m).
Proof.
  intros H. apply preserva_em_no; [apply RS_refl, mesmos_inventarios_refl|].
  by apply RC_em_qualquer_no.
Qed.

Lemma garante_com_inventarios {A} I0 (P : Sistema → Prop) (m : Acao Sistema A)
    (Q : A → Sistema → Prop) :
  garante P m Q → preserva (RS mesmos_inventarios) m →
  garante (λ s, P s ∧ inventarios (redis s) = I0) m
    (λ a s', Q a s' ∧ inventarios (redis s') = I0).
Proof.
  intros Hm Hp. apply (garante_preserva (RS mesmos_inventarios)); [done|done|].
  unfold RS, mesmos_inventarios. intros s s' Hs Hr. congruence.
Qed.

Lemma prepare_troca_cartas_sem_carta t d c inv_a :
  dados t = DadosTroca d →
  get_inventario (id_jogador_a d) (servico_coordenacao c) = Some inv_a →
  possui_carta (id_carta_a d) inv_a = false →
  ∃ v c', _participante_prepare_troca_cartas_logica t c = (Retorna v, c') ∧
          voto v = VOTE_ABORT.
Proof.
  intros Hd Ha Hfalta. desdobrar. rewrite Hd. simpl.
  unfold get_inventario in *. simpl. rewrite Ha, Hfalta. simpl. eauto.
Qed.

(** ** Instances *)

(** An abort after a reservation gives back what was reserved: on two
    servers, with the peer out of reach, the local participant reserves one
    pack, the vote of the peer is missing, and the stock is back at 50. *)
Lemma abort_por_falha_de_rede_restaura :
  let '(resposta, s) :=
    abrir_pacote (ambiente_sem_rede "t1" 0) "A" "p1" dois_servidores_um_jogador in
  codigo_http resposta = Some 500 ∧
  estoque s = estoque dois_servidores_um_jogador ∧
  pacotes_de "p1" (redis s) = pacotes_de "p1" (redis dois_servidores_um_jogador).
Proof. vm_compute. done. Qed.

(** The atomic decrement on the initial stock of 50, alone and with one
    concurrent writer. *)

Lemma decrementar_estoque_atomico_exemplos :
  decrementar_estoque_atomico [] 1 (ServicoCoordenacao_init redis_vazio)
    = (true, set_estoque_global {| pacotes_restantes := 49 |} redis_vazio) ∧
  decrementar_estoque_atomico [] 51 (ServicoCoordenacao_init redis_vazio)
    = (false, ServicoCoordenacao_init redis_vazio) ∧
  decrementar_estoque_atomico [0] 1 (ServicoCoordenacao_init redis_vazio)
    = (false, set_estoque_global {| pacotes_restantes := 0 |} redis_vazio) ∧
  decrementar_estoque_atomico [7] 2 (ServicoCoordenacao_init redis_vazio)
    = (true, set_estoque_global {| pacotes_restantes := 5 |} redis_vazio).
Proof. repeat split. Qed.

(** The idempotence of decisions, on the commit of a prepared open-pack
    transaction. *)
Lemma decisao_idempotente_witness :
  rota_commit_abort "/transacao/abrir_pacote/commit_abort"
    = Some participante_commit_abort_abrir_pacote ∧
  retorno (participante_commit_abort_abrir_pacote (λ _, 0%N) decisao_exemplo
             contexto_preparado) = Retorna () ∧
  estado_final
    (participante_commit_abort_abrir_pacote (λ _, 1%N) decisao_exemplo
       (estado_final (participante_commit_abort_abrir_pacote (λ _, 0%N) decisao_exemplo
                        contexto_preparado)))
  = estado_final (participante_commit_abort_abrir_pacote (λ _, 0%N) decisao_exemplo
                    contexto_preparado).
Proof.
  split; [reflexivity|]. split; [vm_compute; reflexivity|].
  apply (decisao_idempotente "/transacao/abrir_pacote/commit_abort"
           participante_commit_abort_abrir_pacote (λ _, 0%N) (λ _, 1%N)
           decisao_exemplo contexto_preparado).
  - reflexivity.
  - vm_compute; reflexivity.
Defined.

(** The first player to join a fresh deployment. *)
Lemma pacote_so_na_entrada_exemplo :
  bem_formado (redis (implantar ["A"])) ∧
  is_Some (servidores (implantar ["A"]) !! "A") ∧
  get_inventario "p1" (redis (implantar ["A"])) = None ∧
  get_inventario "p1"
    (redis (atender (ambiente "p1" 0) "A" (POST_jogador_entrar "ana") (implantar ["A"])).2)
    = Some (Inventario_novo "p1" 1).
Proof.
  assert (Hbf : bem_formado (redis (implantar ["A"]))).
  { intros k inv H. unfold get_inventario in H. simpl in H.
    rewrite lookup_empty in H. discriminate H. }
  assert (Hsrv : is_Some (servidores (implantar ["A"]) !! "A")).
  { vm_compute. eexists. reflexivity. }
  assert (Hnovo : get_inventario "p1" (redis (implantar ["A"])) = None).
  { vm_compute; reflexivity. }
  split; [exact Hbf|]. split; [exact Hsrv|]. split; [exact Hnovo|].
  destruct (pacote_so_na_entrada (ambiente "p1" 0) "A" (POST_jogador_entrar "ana")
              (implantar ["A"]) Hbf Hsrv) as [_ H].
  destruct (H Hnovo) as (corpo & _ & _ & _ & _ & H5 & _).
  exact H5.
Defined.

(** * Further properties of the coordination core *)

(** ** What a coordinator leaves behind, and how it tallies *)

Lemma limpeza_no_coordenador eu id s :
  existe_servidor eu s →
  ∃ s', (em_no eu (em_andamento_pop id) ≫= λ _,
         em_no eu (persistir (remover_transacao id))) s = (Retorna (), s') ∧
        sem_rasto eu id s'.
Proof.
  intros [srv Hsrv].
  erewrite bind_passo; [|rewrite (em_no_existente _ _ _ _ Hsrv); reflexivity].
  erewrite em_no_existente; [|simpl; apply lookup_insert_eq].
  eexists. split; [reflexivity|]. split.
  - unfold get_transacao. simpl. apply lookup_delete_eq.
  - eexists. simpl. split; [apply lookup_insert_eq|]. simpl. apply lookup_delete_eq.
Qed.

Lemma finalizar_limpa amb eu t decisao_final endpoint :
  bem_tipada t →
  garante (tem_em_cache eu t)
    (_finalizar_transacao_generica amb eu (id_transacao t) decisao_final endpoint)
    (λ _ s', sem_rasto eu (id_transacao t) s').
Proof.
  intros Htipo s Hs. unfold _finalizar_transacao_generica.
  avanca (buscar_no_coordenador eu t) em Hs como achada s1 H1.
  destruct H1 as [-> H1].
  avanca (ler_self_no_coordenador eu t) em H1 como svc s2 H2.
  set (resultado := {| res_id_transacao := id_transacao t;
                       res_servidor_url := url_local svc;
                       decisao := decisao_final |}).
  avanca (decisao_local_retorna amb eu t resultado Htipo eq_refl) em H2 como u3 s3 H3.
  avanca (enviar_decisoes_garante amb eu 0 (outros_servidores svc) resultado endpoint)
    em H3 como u4 s4 H4.
  destruct (limpeza_no_coordenador eu (id_transacao t) s4 H4) as (s5 & E5 & H5).
  exists (), s5. split; [exact E5|exact H5].
Qed.

Lemma prepare_troca_cartas_retorna t c :
  (∃ d, dados t = DadosTroca d) →
  ∃ v c', _participante_prepare_troca_cartas_logica t c = (Retorna v, c').
Proof.
  intros (d & Hd). desdobrar. rewrite Hd. simpl.
  repeat match goal with |- context [if ?b then _ else _] => destruct b end; eauto.
Qed.

Lemma prepare_troca_cartas_no_coordenador eu t :
  (∃ d, dados t = DadosTroca d) →
  garante (tem_em_cache eu t) (em_no eu (_participante_prepare_troca_cartas_logica t))
    (λ _ s', tem_em_cache eu t s').
Proof.
  intros Hd. eapply garante_fraco.
  - apply (garante_mantendo_cache eu t).
    + apply (garante_em_no_cache eu t _ (λ _, True)).
      intros c Hc. destruct (prepare_troca_cartas_retorna t c Hd) as (v & c' & ->). eauto.
    + apply preserva_em_no_cache. intros c _. apply prepare_troca_cartas_guarda.
  - intros s Hs. split; exact Hs.
  - by intros a s' [_ Hc].
Qed.

Lemma votos_troca_cartas_apuracao amb eu svc t destinos :
  (∃ d, dados t = DadosTroca d) →
  ∀ i n recebidos,
    garante (tem_em_cache eu t)
      (votos_troca_cartas amb eu svc i destinos t n recebidos)
      (λ x s',
         tem_em_cache eu t s' ∧
         ∃ novos,
           x.2 = recebidos ++ novos ∧
           x.1.1 = forallb votou_commit novos ∧
           (if x.1.1
            then x.1.2 = n + Z.of_nat (List.length destinos) ∧
                 List.length novos = List.length destinos
            else True)).
Proof.
  intros Hd. induction destinos as [|u resto IH]; intros i n recebidos s Hs; simpl.
  - eexists _, _. split; [reflexivity|]. split; [done|].
    exists []. simpl. rewrite app_nil_r. repeat split. lia.
  - assert (Hvoto : ∃ v s1,
      (if decide (u = url_local svc)
       then em_no eu (_participante_prepare_troca_cartas_logica t) ≫= (λ v, mret (Some v))
       else _enviar_prepare (rede_prepare amb i) u t "/inventario/troca/prepare") s
        = (Retorna v, s1) ∧ tem_em_cache eu t s1).
    { case_decide.
      - destruct (prepare_troca_cartas_no_coordenador eu t Hd s Hs) as (v & s1 & E & H1).
        rewrite (bind_passo _ _ _ _ _ E). by eexists _, _.
      - destruct (enviar_prepare_retorna (rede_prepare amb i) u t
                    "/inventario/troca/prepare" s) as (v & s1 & E).
        pose proof (mantem_cache_enviar_prepare eu t (rede_prepare amb i) u
                      "/inventario/troca/prepare" s) as Hc.
        rewrite E in Hc. exists v, s1. split; [done|]. by apply Hc. }
    destruct Hvoto as (v & s1 & E & Hc).
    rewrite (bind_passo _ _ _ _ _ E).
    destruct (votou_commit v) eqn:Hv.
    + destruct (IH (S i) (n + 1) (recebidos ++ [v]) s1 Hc)
        as (x & s2 & E2 & Hc2 & novos & Hx & Htodos & Hn).
      exists x, s2. split; [done|]. split; [done|].
      exists (v :: novos). rewrite Hx, <- app_assoc. simpl. rewrite Hv. simpl.
      repeat split; try done.
      destruct x.1.1; [|done]. destruct Hn as [Hn1 Hn2]. split; [lia|by f_equal].
    + eexists _, _. split; [reflexivity|]. split; [done|].
      exists [v]. simpl. by rewrite Hv.
Qed.

(** The open-pack coordinator, whatever the configuration: it returns,
    and succeeds exactly when all votes are commits and the local URL is
    once in the list. *)
Lemma iniciar_transacao_abertura_pacote_desfecho amb eu jogador s servidor :
  servidores s !! eu = Some servidor →
  let svc := servico_2pc servidor in
  ∃ desfecho s',
    iniciar_transacao_abertura_pacote amb eu jogador s = (Retorna desfecho, s') ∧
    sucesso desfecho
      = forallb votou_commit (votos desfecho)
        && bool_decide (List.length (filter (λ url, url = url_local svc)
                                       (servidores_jogo svc)) = 1%nat) ∧
    decisao_global desfecho
      = (if sucesso desfecho then GLOBAL_COMMIT else GLOBAL_ABORT) ∧
    votos desfecho ≠ [] ∧
    sem_rasto eu (uuid4 amb) s'.
Proof.
  intros Hsrv svc. unfold iniciar_transacao_abertura_pacote.
  destruct (ler_self_no_servidor eu s servidor Hsrv) as (sA & EA & HA & _).
  rewrite (bind_passo _ _ _ _ _ EA). fold svc.
  set (t := {| id_transacao := uuid4 amb; coordenador_url := url_local svc;
               tipo_operacao := "abrir_pacote"; status := "PREPARAR";
               dados := DadosPacote jogador 1 |}).
  assert (Hd : ∃ j q, dados t = DadosPacote j q) by (by eexists _, _).
  assert (Htipo : bem_tipada t) by (left; split; [reflexivity|exact Hd]).
  change (uuid4 amb) with (id_transacao t).
  avanca (guardar_no_coordenador eu t) em HA como uB sB HB.
  avanca (persistir_no_coordenador eu t (set_transacao t)) em HB como uC sC HC.
  avanca (prepare_abrir_pacote_no_coordenador eu t Hd) em HC como voto_local sD HD.
  pose proof (filter_uma_ocorrencia (url_local svc) (servidores_jogo svc)) as Hf.
  case_bool_decide as Hlocal.
  - destruct (votos_remotos_abrir_pacote_apuracao amb eu t (outros_servidores svc)
                0%nat 1 [Some voto_local] sD HD)
      as ([[todos n] recebidos] & sE & EE & HE & novos & Hrec & Htodos & Hn).
    simpl in Hrec, Htodos, Hn. rewrite (bind_passo _ _ _ _ _ EE).
    destruct todos.
    + destruct Hn as [Hn Hlen]. unfold outros_servidores in Hn.
      case_bool_decide as Hconta.
      * destruct (finalizar_limpa amb eu t GLOBAL_COMMIT
                    "/transacao/abrir_pacote/commit_abort" Htipo sE HE)
          as (u & sF & EF & HF).
        rewrite (bind_passo _ _ _ _ _ EF).
        eexists _, _. split; [reflexivity|]. simpl.
        subst recebidos. simpl. rewrite bool_decide_true by done. simpl.
        rewrite <- Htodos. rewrite bool_decide_true by lia. done.
      * destruct (finalizar_limpa amb eu t GLOBAL_ABORT
                    "/transacao/abrir_pacote/commit_abort" Htipo sE HE)
          as (u & sF & EF & HF).
        rewrite (bind_passo _ _ _ _ _ EF).
        eexists _, _. split; [reflexivity|]. simpl.
        subst recebidos. simpl. rewrite bool_decide_true by done. simpl.
        rewrite <- Htodos. rewrite bool_decide_false by lia. done.
    + destruct (finalizar_limpa amb eu t GLOBAL_ABORT
                  "/transacao/abrir_pacote/commit_abort" Htipo sE HE)
        as (u & sF & EF & HF).
      rewrite (bind_passo _ _ _ _ _ EF).
      eexists _, _. split; [reflexivity|]. simpl.
      subst recebidos. simpl. rewrite bool_decide_true by done. simpl.
      rewrite <- Htodos. done.
  - destruct (finalizar_limpa amb eu t GLOBAL_ABORT
                "/transacao/abrir_pacote/commit_abort" Htipo sD HD)
      as (u & sF & EF & HF).
    rewrite (bind_passo _ _ _ _ _ EF).
    eexists _, _. split; [reflexivity|]. simpl.
    rewrite bool_decide_false by done. done.
Qed.

(** The trade coordinator: it returns, and succeeds exactly when all the
    votes it collected are commits. *)
Lemma iniciar_transacao_troca_cartas_desfecho amb eu detalhes s servidor :
  servidores s !! eu = Some servidor →
  ∃ desfecho s',
    iniciar_transacao_troca_cartas amb eu detalhes s = (Retorna desfecho, s') ∧
    sucesso desfecho = forallb votou_commit (votos desfecho) ∧
    decisao_global desfecho
      = (if sucesso desfecho then GLOBAL_COMMIT else GLOBAL_ABORT) ∧
    (if sucesso desfecho
     then List.length (votos desfecho)
          = List.length (servidores_jogo (servico_2pc servidor))
     else True) ∧
    sem_rasto eu (uuid4 amb) s'.
Proof.
  intros Hsrv. unfold iniciar_transacao_troca_cartas.
  destruct (ler_self_no_servidor eu s servidor Hsrv) as (sA & EA & HA & _).
  rewrite (bind_passo _ _ _ _ _ EA).
  set (svc := servico_2pc servidor) in *.
  set (t := {| id_transacao := uuid4 amb; coordenador_url := url_local svc;
               tipo_operacao := "troca_cartas"; status := "PREPARAR";
               dados := DadosTroca detalhes |}).
  assert (Hd : ∃ d, dados t = DadosTroca d) by (by eexists).
  assert (Htipo : bem_tipada t) by (right; split; [reflexivity|exact Hd]).
  change (uuid4 amb) with (id_transacao t).
  avanca (guardar_no_coordenador eu t) em HA como uB sB HB.
  avanca (persistir_no_coordenador eu t (set_transacao t)) em HB como uC sC HC.
  destruct (votos_troca_cartas_apuracao amb eu svc t (servidores_jogo svc) Hd
              0%nat 0 [] sC HC)
    as ([[todos n] recebidos] & sE & EE & HE & novos & Hrec & Htodos & Hn).
  simpl in Hrec, Htodos, Hn. rewrite (bind_passo _ _ _ _ _ EE).
  destruct todos.
  - destruct Hn as [Hn Hlen]. rewrite bool_decide_true by lia.
    destruct (finalizar_limpa amb eu t GLOBAL_COMMIT
                "/inventario/troca/commit_abort" Htipo sE HE)
      as (u & sF & EF & HF).
    rewrite (bind_passo _ _ _ _ _ EF).
    eexists _, _. split; [reflexivity|]. simpl. subst recebidos. done.
  - destruct (finalizar_limpa amb eu t GLOBAL_ABORT
                "/inventario/troca/commit_abort" Htipo sE HE)
      as (u & sF & EF & HF).
    rewrite (bind_passo _ _ _ _ _ EF).
    eexists _, _. split; [reflexivity|]. simpl. subst recebidos. done.
Qed.

(** ** Relations kept by every request *)

Section PreservacaoNosPedidos.
Context (R : Redis → Redis → Prop).
Hypothesis R_refl : ∀ r, R r r.
Hypothesis R_trans : ∀ r1 r2 r3, R r1 r2 → R r2 r3 → R r1 r3.
Hypothesis R_set_transacao : ∀ t r, R r (set_transacao t r).
Hypothesis R_remover_transacao : ∀ id r, R r (remover_transacao id r).
Hypothesis R_set_estoque_global : ∀ e r, R r (set_estoque_global e r).
Hypothesis R_abrir :
  ∀ g jogador r,
    R r (set_inventario
           (cartas_extend (simular_abertura_pacote g jogador)
              (default (Inventario_novo jogador 0) (get_inventario jogador r))) r).
Hypothesis R_trocar : ∀ d, preserva (RC R) (trocar d).
Hypothesis R_entrar :
  ∀ id r, get_inventario id r = None → R r (set_inventario (Inventario_novo id 1) r).
Hypothesis R_endpoint_abrir :
  ∀ amb eu jogador s, R (redis s) (redis (abrir_pacote amb eu jogador s).2).

Lemma R_endpoint_par {A} (m : Acao Contexto A) eu s :
  preserva (RC R) m →
  R (redis s) (redis (no_servidor eu (λ _ s, resposta_de (em_no eu m s)) s).2).
Proof.
  intros H. unfold no_servidor.
  destruct (servidores s !! eu); [|apply R_refl].
  pose proof (preserva_em_no (RS R) (RS_refl R R_refl) eu m
                (RC_em_qualquer_no R m H) s) as Hs.
  unfold RS in Hs. by destruct (em_no eu m s) as [[a|e] s'].
Qed.

Lemma R_atender amb eu req s : R (redis s) (redis (atender amb eu req s).2).
Proof.
  destruct req; simpl.
  - unfold entrar_jogador, no_servidor.
    destruct (servidores s !! eu); [|apply R_refl].
    destruct (get_inventario (uuid4 amb) (redis s)) eqn:E; simpl;
      [apply R_refl|by apply R_entrar].
  - unfold ver_inventario, no_servidor.
    destruct (servidores s !! eu); [|apply R_refl].
    destruct (get_inventario jogador (redis s)); apply R_refl.
  - apply R_endpoint_abrir.
  - unfold iniciar_troca_cartas, no_servidor.
    destruct (servidores s !! eu); [|apply R_refl].
    match goal with |- context [iniciar_transacao_troca_cartas amb eu ?d s] =>
      pose proof (RS_iniciar_transacao_troca_cartas R R_refl R_trans R_set_transacao
                    R_remover_transacao R_set_estoque_global R_abrir R_trocar
                    amb eu d s) as H;
      unfold RS in H;
      destruct (iniciar_transacao_troca_cartas amb eu d s) as [[desfecho|e] s2]
    end; simpl in *; [|done].
    by destruct (sucesso desfecho).
  - apply R_endpoint_par. by apply RC_prepare_abrir_pacote.
  - apply R_endpoint_par. apply RC_commit_abort_abrir_pacote; try done.
  - apply R_endpoint_par. by apply RC_prepare_troca_cartas.
  - apply R_endpoint_par. apply RC_commit_abort_troca_cartas; try done.
Qed.

Lemma R_executar pedidos s : R (redis s) (redis (executar pedidos s).2).
Proof.
  revert s. induction pedidos as [|[[amb eu] req] resto IH]; intros s; simpl;
    [apply R_refl|].
  pose proof (R_atender amb eu req s) as H1.
  destruct (atender amb eu req s) as [codigo s1]. simpl in H1.
  pose proof (IH s1) as H2.
  destruct (executar resto s1) as [codigos s2]. simpl in *.
  by eapply R_trans.
Qed.
End PreservacaoNosPedidos.

(** *** Inventories are never deleted *)

Lemma nao_apaga_refl r : nao_apaga r r.
Proof. by intros k. Qed.

Lemma nao_apaga_trans r1 r2 r3 : nao_apaga r1 r2 → nao_apaga r2 r3 → nao_apaga r1 r3.
Proof. unfold nao_apaga. auto. Qed.

Lemma nao_apaga_set_inventario inv r : nao_apaga r (set_inventario inv r).
Proof.
  intros k. unfold get_inventario, set_inventario; simpl.
  rewrite lookup_insert. by case_decide.
Qed.

Lemma nao_apaga_trocar d : preserva (RC nao_apaga) (trocar d).
Proof.
  intros c. unfold RC. destruct c as [svc r]. desdobrar. simpl.
  destruct (get_inventario (id_jogador_a d) r) as [ia|]; simpl; [|apply nao_apaga_refl].
  destruct (get_inventario (id_jogador_b d) r) as [ib|]; simpl; [|apply nao_apaga_refl].
  destruct (procurar_carta (id_carta_a d) ia) as [ca|]; simpl; [|apply nao_apaga_refl].
  destruct (procurar_carta (id_carta_b d) ib) as [cb|]; simpl; [|apply nao_apaga_refl].
  eapply nao_apaga_trans; apply nao_apaga_set_inventario.
Qed.

Ltac relacao_nao_apaga :=
  first [ exact nao_apaga_refl
        | exact nao_apaga_trans
        | exact nao_apaga_trocar
        | by (intros; apply nao_apaga_set_inventario)
        | by (intros; intros ?k; unfold get_inventario; simpl) ].

Lemma nao_apaga_abrir_pacote amb eu jogador s :
  nao_apaga (redis s) (redis (abrir_pacote amb eu jogador s).2).
Proof.
  unfold abrir_pacote, no_servidor.
  destruct (servidores s !! eu) as [srv|]; [|apply nao_apaga_refl].
  destruct (get_inventario jogador (redis s)) as [inv|] eqn:Hinv; [|apply nao_apaga_refl].
  case_bool_decide as Hpac; [apply nao_apaga_refl|].
  set (s1 := coordenacao _ s).
  assert (H01 : nao_apaga (redis s) (redis s1)) by apply nao_apaga_set_inventario.
  pose proof (RS_iniciar_transacao_abertura_pacote nao_apaga
    ltac:(relacao_nao_apaga) ltac:(relacao_nao_apaga) ltac:(relacao_nao_apaga)
    ltac:(relacao_nao_apaga) ltac:(relacao_nao_apaga) ltac:(relacao_nao_apaga)
    ltac:(relacao_nao_apaga) amb eu jogador s1) as H12.
  unfold RS in H12.
  destruct (iniciar_transacao_abertura_pacote amb eu jogador s1) as [[desfecho|e] s2];
    simpl in *; [|by eapply nao_apaga_trans].
  destruct (sucesso desfecho).
  - destruct (get_inventario jogador (redis s2)); publicado; simpl; by eapply nao_apaga_trans.
  - simpl. eapply nao_apaga_trans; [|apply nao_apaga_set_inventario].
    by eapply nao_apaga_trans.
Qed.

(** *** Pack counts stay non-negative *)

Lemma mantem_pacotes_nao_negativos_refl r : mantem_pacotes_nao_negativos r r.
Proof. by intros H. Qed.

Lemma mantem_pacotes_nao_negativos_trans r1 r2 r3 :
  mantem_pacotes_nao_negativos r1 r2 → mantem_pacotes_nao_negativos r2 r3 →
  mantem_pacotes_nao_negativos r1 r3.
Proof. unfold mantem_pacotes_nao_negativos. auto. Qed.

Lemma pacotes_nao_negativos_set_inventario inv r :
  0 ≤ pacotes_disponiveis inv →
  pacotes_nao_negativos r → pacotes_nao_negativos (set_inventario inv r).
Proof.
  intros Hinv Hr k inv'. unfold get_inventario, set_inventario; simpl.
  rewrite lookup_insert. case_decide; [by intros [= <-]|apply Hr].
Qed.

Lemma mantem_pacotes_nao_negativos_abrir g jogador r :
  mantem_pacotes_nao_negativos r
    (set_inventario
       (cartas_extend (simular_abertura_pacote g jogador)
          (default (Inventario_novo jogador 0) (get_inventario jogador r))) r).
Proof.
  intros Hr. apply pacotes_nao_negativos_set_inventario; [|done]. simpl.
  destruct (get_inventario jogador r) as [inv|] eqn:E; simpl; [by eapply Hr|lia].
Qed.

Lemma mantem_pacotes_nao_negativos_trocar d :
  preserva (RC mantem_pacotes_nao_negativos) (trocar d).
Proof.
  intros c. unfold RC. destruct c as [svc r]. desdobrar. simpl.
  destruct (get_inventario (id_jogador_a d) r) as [ia|] eqn:Ha; simpl;
    [|apply mantem_pacotes_nao_negativos_refl].
  destruct (get_inventario (id_jogador_b d) r) as [ib|] eqn:Hb; simpl;
    [|apply mantem_pacotes_nao_negativos_refl].
  destruct (procurar_carta (id_carta_a d) ia) as [ca|]; simpl;
    [|apply mantem_pacotes_nao_negativos_refl].
  destruct (procurar_carta (id_carta_b d) ib) as [cb|]; simpl;
    [|apply mantem_pacotes_nao_negativos_refl].
  intros Hr.
  apply pacotes_nao_negativos_set_inventario; [simpl; by eapply Hr|].
  apply pacotes_nao_negativos_set_inventario; [simpl; by eapply Hr|done].
Qed.

Ltac mesmos_pacotes :=
  intros; intros ?H ?k ?inv; unfold get_inventario; simpl; by apply H.

Ltac relacao_nao_negativos :=
  first [ exact mantem_pacotes_nao_negativos_refl
        | exact mantem_pacotes_nao_negativos_trans
        | exact mantem_pacotes_nao_negativos_trocar
        | exact mantem_pacotes_nao_negativos_abrir
        | mesmos_pacotes ].

Lemma mantem_pacotes_nao_negativos_abrir_pacote amb eu jogador s :
  mantem_pacotes_nao_negativos (redis s) (redis (abrir_pacote amb eu jogador s).2).
Proof.
  unfold abrir_pacote, no_servidor.
  destruct (servidores s !! eu) as [srv|]; [|apply mantem_pacotes_nao_negativos_refl].
  destruct (get_inventario jogador (redis s)) as [inv|] eqn:Hinv;
    [|apply mantem_pacotes_nao_negativos_refl].
  case_bool_decide as Hpac; [apply mantem_pacotes_nao_negativos_refl|].
  set (s1 := coordenacao _ s).
  assert (H01 : mantem_pacotes_nao_negativos (redis s) (redis s1)).
  { intros Hr. apply pacotes_nao_negativos_set_inventario; [simpl; lia|done]. }
  pose proof (RS_iniciar_transacao_abertura_pacote mantem_pacotes_nao_negativos
    ltac:(relacao_nao_negativos) ltac:(relacao_nao_negativos)
    ltac:(relacao_nao_negativos) ltac:(relacao_nao_negativos)
    ltac:(relacao_nao_negativos) ltac:(relacao_nao_negativos)
    ltac:(relacao_nao_negativos) amb eu jogador s1) as H12.
  unfold RS in H12.
  destruct (iniciar_transacao_abertura_pacote amb eu jogador s1) as [[desfecho|e] s2];
    simpl in *; [|by eapply mantem_pacotes_nao_negativos_trans].
  destruct (sucesso desfecho).
  - destruct (get_inventario jogador (redis s2)); publicado; simpl;
      by eapply mantem_pacotes_nao_negativos_trans.
  - simpl. intros Hr.
    apply pacotes_nao_negativos_set_inventario; [simpl; lia|]. auto.
Qed.

(** X1.  No sequence of requests, to whichever servers and under whatever
    network, deletes an inventory; and if no stored inventory has a
    negative pack count before, none has one after. *)
Theorem inventarios_ficam_e_pacotes_nao_negativos
    (pedidos : list (Ambiente * string * Requisicao)) (s : Sistema) :
  pacotes_nao_negativos (redis s) →
  let s' := (executar pedidos s).2 in
  pacotes_nao_negativos (redis s') ∧
  ∀ k, is_Some (get_inventario k (redis s)) → is_Some (get_inventario k (redis s')).
Proof.
  intros Hr. split.
  - refine (R_executar mantem_pacotes_nao_negativos _ _ _ _ _ _ _ _ _ pedidos s Hr);
      try relacao_nao_negativos.
    + intros id r _ H. apply pacotes_nao_negativos_set_inventario; [simpl; lia|done].
    + exact mantem_pacotes_nao_negativos_abrir_pacote.
  - refine (R_executar nao_apaga _ _ _ _ _ _ _ _ _ pedidos s);
      try relacao_nao_apaga.
    exact nao_apaga_abrir_pacote.
Qed.

(** *** Card counts, request by request *)

Lemma nunca_perde_refl r : nunca_perde r r.
Proof. intros H. split; [done|]. intros k inv E. exists inv. split; [done|lia]. Qed.

Lemma nunca_perde_trans r1 r2 r3 :
  nunca_perde r1 r2 → nunca_perde r2 r3 → nunca_perde r1 r3.
Proof.
  intros H12 H23 Hbf. destruct (H12 Hbf) as [Hbf2 H2].
  destruct (H23 Hbf2) as [Hbf3 H3]. split; [done|].
  intros k inv E. destruct (H2 k inv E) as (inv2 & E2 & Hl2).
  destruct (H3 k inv2 E2) as (inv3 & E3 & Hl3). exists inv3. split; [done|lia].
Qed.

Lemma nunca_perde_mesmos_inventarios r r' :
  inventarios r' = inventarios r → nunca_perde r r'.
Proof.
  intros Heq Hbf. unfold bem_formado, get_inventario in *. rewrite Heq.
  split; [done|]. intros k inv E. exists inv. split; [done|lia].
Qed.

(** Writing back an inventory that carries its own key and at least the
    cards stored under it. *)
Lemma nunca_perde_set_inventario inv r :
  (bem_formado r → ∀ velho, get_inventario (id_jogador inv) r = Some velho →
     (List.length (cartas velho) ≤ List.length (cartas inv))%nat) →
  nunca_perde r (set_inventario inv r).
Proof.
  intros Hinv Hbf. split; [by apply bem_formado_set_inventario|].
  intros k velho E. unfold get_inventario, set_inventario in *; simpl.
  rewrite lookup_insert. case_decide as Hk.
  - subst k. exists inv. split; [done|]. by apply Hinv.
  - exists velho. split; [done|lia].
Qed.

Lemma nunca_perde_abrir g jogador r :
  nunca_perde r
    (set_inventario
       (cartas_extend (simular_abertura_pacote g jogador)
          (default (Inventario_novo jogador 0) (get_inventario jogador r))) r).
Proof.
  apply nunca_perde_set_inventario. intros Hbf velho. simpl.
  destruct (get_inventario jogador r) as [inv|] eqn:E; simpl.
  - rewrite (Hbf _ _ E), E. intros [= <-]. rewrite length_app. lia.
  - rewrite E. done.
Qed.

Lemma length_remover_primeira c l :
  c ∈ l → S (List.length (remover_primeira c l)) = List.length l.
Proof.
  induction l as [|x l IH]; [by intros ?%elem_of_nil|].
  intros Hc. simpl. case_decide as Hx; [done|].
  simpl. f_equal. apply IH. apply elem_of_cons in Hc as [->|Hc]; done.
Qed.

Lemma procurar_carta_elem id inv c :
  procurar_carta id inv = Some c → c ∈ cartas inv ∧ id_carta c = id.
Proof.
  unfold procurar_carta. intros H. apply find_some in H as [Hin Hid].
  split; [by apply list_elem_of_In|]. by apply bool_decide_eq_true in Hid.
Qed.

Lemma nunca_perde_trocar d : preserva (RC nunca_perde) (trocar d).
Proof.
  intros c. unfold RC. destruct c as [svc r]. desdobrar. simpl.
  destruct (get_inventario (id_jogador_a d) r) as [ia|] eqn:Ha; simpl;
    [|apply nunca_perde_refl].
  destruct (get_inventario (id_jogador_b d) r) as [ib|] eqn:Hb; simpl;
    [|apply nunca_perde_refl].
  destruct (procurar_carta (id_carta_a d) ia) as [ca|] eqn:Hca; simpl;
    [|apply nunca_perde_refl].
  destruct (procurar_carta (id_carta_b d) ib) as [cb|] eqn:Hcb; simpl;
    [|apply nunca_perde_refl].
  apply procurar_carta_elem in Hca as [Hca _]. apply procurar_carta_elem in Hcb as [Hcb _].
  pose proof (length_remover_primeira _ _ Hca) as Hla.
  pose proof (length_remover_primeira _ _ Hcb) as Hlb.
  intros Hbf. split; [by do 2 apply bem_formado_set_inventario|].
  pose proof (Hbf _ _ Ha) as Hka. pose proof (Hbf _ _ Hb) as Hkb.
  intros k velho E. unfold get_inventario, set_inventario in *; simpl in *.
  rewrite Hka, Hkb. rewrite !lookup_insert.
  destruct (decide (id_jogador_b d = k)) as [<-|Hk1].
  - eexists. split; [done|]. simpl. rewrite length_app. simpl.
    assert (velho = ib) by congruence. subst. lia.
  - destruct (decide (id_jogador_a d = k)) as [<-|Hk2].
    + eexists. split; [done|]. simpl. rewrite length_app. simpl.
      assert (velho = ia) by congruence. subst. lia.
    + exists velho. split; [done|lia].
Qed.

Ltac relacao_nunca_perde :=
  first [ exact nunca_perde_refl
        | exact nunca_perde_trans
        | exact nunca_perde_trocar
        | exact nunca_perde_abrir
        | by (intros; apply nunca_perde_mesmos_inventarios) ].

Lemma nunca_perde_abrir_pacote amb eu jogador s :
  nunca_perde (redis s) (redis (abrir_pacote amb eu jogador s).2).
Proof.
  unfold abrir_pacote, no_servidor.
  destruct (servidores s !! eu) as [srv|]; [|apply nunca_perde_refl].
  destruct (get_inventario jogador (redis s)) as [inv|] eqn:Hinv; [|apply nunca_perde_refl].
  case_bool_decide as Hpac; [apply nunca_perde_refl|].
  set (s1 := coordenacao _ s).
  assert (H01 : nunca_perde (redis s) (redis s1)).
  { apply nunca_perde_set_inventario. intros Hbf velho. simpl.
    rewrite (Hbf _ _ Hinv), Hinv. by intros [= <-]. }
  pose proof (RS_iniciar_transacao_abertura_pacote nunca_perde
    ltac:(relacao_nunca_perde) ltac:(relacao_nunca_perde) ltac:(relacao_nunca_perde)
    ltac:(relacao_nunca_perde) ltac:(relacao_nunca_perde) ltac:(relacao_nunca_perde)
    ltac:(relacao_nunca_perde) amb eu jogador s1) as H12.
  unfold RS in H12.
  destruct (iniciar_transacao_abertura_pacote amb eu jogador s1) as [[desfecho|e] s2];
    simpl in *; [|by eapply nunca_perde_trans].
  destruct (sucesso desfecho).
  - destruct (get_inventario jogador (redis s2)); publicado; simpl; by eapply nunca_perde_trans.
  - simpl. intros Hbf.
    destruct (H01 Hbf) as [Hbf1 H1]. destruct (H12 Hbf1) as [Hbf2 H2].
    split; [by apply bem_formado_set_inventario|].
    intros k velho E. unfold get_inventario, set_inventario in *; simpl in *.
    rewrite lookup_insert. rewrite (Hbf _ _ Hinv).
    case_decide as Hk.
    + subst k. eexists. split; [done|]. simpl.
      assert (velho = inv) by congruence. subst. lia.
    + destruct (H1 k velho E) as (inv1 & E1 & Hl1).
      destruct (H2 k inv1 E1) as (inv2 & E2 & Hl2).
      exists inv2. split; [done|lia].
Qed.

(** ** Coordinators: tallies, configuration edges, clean-up *)

(** X4.  A server whose own URL is not exactly once in its list (none at
    all when SERVIDORES_JOGO is unset) never commits an open: the
    coordinator returns [False] with GLOBAL_ABORT whatever the votes. *)
Theorem abertura_nunca_confirma_com_lista_errada
    (amb : Ambiente) (eu jogador : string) (s : Sistema) (servidor : Servidor) :
  servidores s !! eu = Some servidor →
  List.length (filter (λ url, url = url_local (servico_2pc servidor))
                 (servidores_jogo (servico_2pc servidor))) ≠ 1%nat →
  ∃ desfecho s',
    iniciar_transacao_abertura_pacote amb eu jogador s = (Retorna desfecho, s') ∧
    sucesso desfecho = false ∧
    decisao_global desfecho = GLOBAL_ABORT.
Proof.
  intros Hsrv Hconta.
  destruct (iniciar_transacao_abertura_pacote_desfecho amb eu jogador s servidor Hsrv)
    as (desfecho & s' & E & H1 & H2 & _).
  rewrite bool_decide_false, andb_false_r in H1 by done.
  exists desfecho, s'. rewrite H1 in H2. done.
Qed.

(** X5.  With an empty server list the trade coordinator asks nobody: it
    collects no vote, decides GLOBAL_COMMIT and returns [True], and the
    endpoint answers 200, whether or not the players hold the cards named. *)
Theorem troca_confirma_sem_votos_com_lista_vazia
    (amb : Ambiente) (eu : string) (s : Sistema) (servidor : Servidor)
    (jogador_a jogador_b carta_a carta_b : string) :
  servidores s !! eu = Some servidor →
  servidores_jogo (servico_2pc servidor) = [] →
  let detalhes :=
    {| id_jogador_a := jogador_a; id_carta_a := carta_a;
       id_jogador_b := jogador_b; id_carta_b := carta_b |} in
  ∃ desfecho s',
    iniciar_transacao_troca_cartas amb eu detalhes s = (Retorna desfecho, s') ∧
    votos desfecho = [] ∧
    sucesso desfecho = true ∧
    decisao_global desfecho = GLOBAL_COMMIT ∧
    iniciar_troca_cartas amb eu jogador_a jogador_b carta_a carta_b s
      = (HTTP_200 "Troca de cartas concluída com sucesso!", s').
Proof.
  intros Hsrv Hl detalhes.
  assert (Htotal : ∃ desfecho s',
    iniciar_transacao_troca_cartas amb eu detalhes s = (Retorna desfecho, s') ∧
    votos desfecho = [] ∧ sucesso desfecho = true ∧
    decisao_global desfecho = GLOBAL_COMMIT).
  { unfold iniciar_transacao_troca_cartas.
    destruct (ler_self_no_servidor eu s servidor Hsrv) as (sA & EA & HA & _).
    rewrite (bind_passo _ _ _ _ _ EA).
    set (svc := servico_2pc servidor) in *.
    set (t := {| id_transacao := uuid4 amb; coordenador_url := url_local svc;
                 tipo_operacao := "troca_cartas"; status := "PREPARAR";
                 dados := DadosTroca detalhes |}).
    assert (Htipo : bem_tipada t) by (right; split; [reflexivity|by eexists]).
    change (uuid4 amb) with (id_transacao t).
    avanca (guardar_no_coordenador eu t) em HA como uB sB HB.
    avanca (persistir_no_coordenador eu t (set_transacao t)) em HB como uC sC HC.
    rewrite Hl. simpl.
    erewrite bind_passo; [|reflexivity]. simpl.
    destruct (finalizar_limpa amb eu t GLOBAL_COMMIT
                "/inventario/troca/commit_abort" Htipo sC HC)
      as (u & sF & EF & HF).
    rewrite (bind_passo _ _ _ _ _ EF).
    by eexists _, _. }
  destruct Htotal as (desfecho & s' & E & H1 & H2 & H3).
  exists desfecho, s'. repeat split; try done.
  unfold iniciar_troca_cartas, no_servidor. rewrite Hsrv. fold detalhes.
  by rewrite E, H2.
Qed.

(** X6.  When a coordinator is done, whatever it decided and whatever the
    network did, the transaction is gone from the store and from the
    coordinator's own cache. *)
Theorem coordenador_nao_deixa_rasto
    (amb : Ambiente) (eu jogador : string) (detalhes : DetalhesTroca)
    (s : Sistema) :
  existe_servidor eu s →
  sem_rasto eu (uuid4 amb) (iniciar_transacao_abertura_pacote amb eu jogador s).2 ∧
  sem_rasto eu (uuid4 amb) (iniciar_transacao_troca_cartas amb eu detalhes s).2.
Proof.
  intros [servidor Hsrv]. split.
  - destruct (iniciar_transacao_abertura_pacote_desfecho amb eu jogador s servidor Hsrv)
      as (desfecho & s' & E & _ & _ & _ & H). by rewrite E.
  - destruct (iniciar_transacao_troca_cartas_desfecho amb eu detalhes s servidor Hsrv)
      as (desfecho & s' & E & _ & _ & _ & H). by rewrite E.
Qed.

Lemma existe_servidor_coordenacao eu f s :
  existe_servidor eu s → existe_servidor eu (coordenacao f s).
Proof. done. Qed.

(** ** Instances of the further properties *)

Lemma bem_formado_implantar lista : bem_formado (redis (implantar lista)).
Proof.
  intros k inv H. unfold get_inventario in H. simpl in H.
  rewrite lookup_empty in H. discriminate H.
Qed.

Lemma pacotes_nao_negativos_implantar lista :
  pacotes_nao_negativos (redis (implantar lista)).
Proof.
  intros k inv H. unfold get_inventario in H. simpl in H.
  rewrite lookup_empty in H. discriminate H.
Qed.

(** One player joins a fresh one-server deployment and opens the pack. *)
Lemma inventarios_ficam_e_pacotes_nao_negativos_witness :
  pacotes_nao_negativos (redis (implantar ["A"])) ∧
  let s' := (executar (entradas sempre_a 1 ++ aberturas sempre_a 1) (implantar ["A"])).2 in
  pacotes_nao_negativos (redis s') ∧
  ∀ k, is_Some (get_inventario k (redis (implantar ["A"]))) →
       is_Some (get_inventario k (redis s')).
Proof.
  exact (conj (pacotes_nao_negativos_implantar ["A"])
           (inventarios_ficam_e_pacotes_nao_negativos
              (entradas sempre_a 1 ++ aberturas sempre_a 1) (implantar ["A"])
              (pacotes_nao_negativos_implantar ["A"]))).
Defined.

(** A server started without a server list. *)
Lemma abertura_nunca_confirma_com_lista_errada_witness :
  servidores servidor_sem_lista !! "A" = Some (mkServidor "A" (Servico2PC_init "A" [])) ∧
  ∃ desfecho s',
    iniciar_transacao_abertura_pacote (ambiente "t1" 0) "A" "p1" servidor_sem_lista
      = (Retorna desfecho, s') ∧
    sucesso desfecho = false ∧
    decisao_global desfecho = GLOBAL_ABORT.
Proof.
  assert (H : servidores servidor_sem_lista !! "A"
              = Some (mkServidor "A" (Servico2PC_init "A" [])))
    by (vm_compute; reflexivity).
  split; [exact H|].
  apply (abertura_nunca_confirma_com_lista_errada (ambiente "t1" 0) "A" "p1"
           servidor_sem_lista (mkServidor "A" (Servico2PC_init "A" [])) H).
  simpl. lia.
Defined.

Lemma troca_confirma_sem_votos_com_lista_vazia_witness :
  servidores servidor_sem_lista !! "A" = Some (mkServidor "A" (Servico2PC_init "A" [])) ∧
  ∃ desfecho s',
    iniciar_transacao_troca_cartas (ambiente "t1" 0) "A" troca_exemplo servidor_sem_lista
      = (Retorna desfecho, s') ∧
    votos desfecho = [] ∧
    sucesso desfecho = true ∧
    decisao_global desfecho = GLOBAL_COMMIT ∧
    iniciar_troca_cartas (ambiente "t1" 0) "A" "p1" "p2" "CARTA-1001" "CARTA-2002"
      servidor_sem_lista
      = (HTTP_200 "Troca de cartas concluída com sucesso!", s').
Proof.
  assert (H : servidores servidor_sem_lista !! "A"
              = Some (mkServidor "A" (Servico2PC_init "A" [])))
    by (vm_compute; reflexivity).
  split; [exact H|].
  apply (troca_confirma_sem_votos_com_lista_vazia (ambiente "t1" 0) "A"
           servidor_sem_lista (mkServidor "A" (Servico2PC_init "A" []))
           "p1" "p2" "CARTA-1001" "CARTA-2002" H).
  reflexivity.
Defined.

Lemma coordenador_nao_deixa_rasto_witness :
  existe_servidor "A" dois_servidores_um_jogador ∧
  sem_rasto "A" "t1"
    (iniciar_transacao_abertura_pacote (ambiente_sem_rede "t1" 0) "A" "p1"
       dois_servidores_um_jogador).2 ∧
  sem_rasto "A" "t1"
    (iniciar_transacao_troca_cartas (ambiente_sem_rede "t1" 0) "A" troca_exemplo
       dois_servidores_um_jogador).2.
Proof.
  assert (H : existe_servidor "A" dois_servidores_um_jogador)
    by (vm_compute; eexists; reflexivity).
  exact (conj H (coordenador_nao_deixa_rasto (ambiente_sem_rede "t1" 0) "A" "p1"
                   troca_exemplo dois_servidores_um_jogador H)).
Defined.

(** ** The atomic increment, and prepare followed by abort *)

(** X9.  The atomic increment never refuses and never overwrites a
    concurrent write with a stale value: it adds the quantity to the value
    written last (the stored one when nobody interferes), and touches
    nothing but the stock. *)
Theorem incrementar_estoque_atomico_exato
    (interferencias : list Z) (quantidade : Z) (r : Redis) :
  incrementar_estoque_atomico interferencias quantidade r =
    (true,
     set_estoque_global
       {| pacotes_restantes :=
            List.last interferencias (pacotes_restantes (get_estoque_global r))
            + quantidade |} r).
Proof.
  revert r. induction interferencias as [|w resto IH]; intros r; [reflexivity|].
  simpl incrementar_estoque_atomico. rewrite IH, set_estoque_global_twice.
  rewrite get_set_estoque_global. simpl pacotes_restantes.
  destruct resto as [|w' resto]; [reflexivity|].
  do 3 f_equal. simpl. clear IH. revert w'.
  induction resto as [|w'' resto IH]; intros w'; [reflexivity|]. simpl. apply IH.
Qed.

(** X10.  A participant that prepares an open-pack transaction it has not
    seen before, with enough stock, votes to commit; if it is then told
    GLOBAL_ABORT, its cache and the whole store are exactly as before the
    prepare: the reservation is returned and the records are gone. *)
Theorem abrir_pacote_prepare_e_abort_restauram
    (g : Gerador) (transacao : Transacao2PC) (resultado : Resultado2PC)
    (jogador : string) (quantidade : Z) (c : Contexto) :
  dados transacao = DadosPacote jogador quantidade →
  desconhecida (id_transacao transacao) c →
  is_Some (estoque_global (servico_coordenacao c)) →
  quantidade ≤ pacotes_restantes (get_estoque_global (servico_coordenacao c)) →
  res_id_transacao resultado = id_transacao transacao →
  decisao resultado = GLOBAL_ABORT →
  ∃ v c1,
    _participante_prepare_abrir_pacote_logica transacao c = (Retorna v, c1) ∧
    voto v = VOTE_COMMIT ∧
    _participante_commit_abort_abrir_pacote_logica g resultado c1 = (Retorna (), c).
Proof.
  intros Hdados [Hc Hr] [e He] Hq Hid Hdec.
  destruct c as [[u l m] [oe invs txs]]. simpl in *. subst oe.
  unfold get_transacao in Hr. simpl in Hr.
  desdobrar. rewrite Hdados. simpl.
  unfold get_estoque_global, set_transacao in *. simpl in *.
  rewrite bool_decide_false by lia. simpl.
  eexists _, _. split; [reflexivity|]. split; [reflexivity|].
  rewrite Hid. simpl. rewrite lookup_insert_eq. simpl. rewrite Hdados. simpl.
  rewrite Hdec. simpl.
  unfold com_em_andamento, com_coordenacao, remover_transacao, set_estoque_global; simpl.
  rewrite !delete_insert_id by done.
  destruct e as [n]. simpl. do 5 f_equal. lia.
Qed.

(** X11.  A participant that prepares a trade it has not seen before and is
    then told anything but GLOBAL_COMMIT ends exactly where it started:
    the prepare of a trade reserves nothing, and the decision removes the
    records the prepare wrote. *)
Theorem troca_prepare_e_abort_restauram
    (transacao : Transacao2PC) (resultado : Resultado2PC)
    (detalhes : DetalhesTroca) (c : Contexto) :
  dados transacao = DadosTroca detalhes →
  desconhecida (id_transacao transacao) c →
  res_id_transacao resultado = id_transacao transacao →
  decisao resultado ≠ GLOBAL_COMMIT →
  ∃ v c1,
    _participante_prepare_troca_cartas_logica transacao c = (Retorna v, c1) ∧
    _participante_commit_abort_troca_cartas_logica resultado c1 = (Retorna (), c).
Proof.
  intros Hdados [Hc Hr] Hid Hdec.
  destruct c as [[u l m] [oe invs txs]]. simpl in *.
  unfold get_transacao in Hr. simpl in Hr.
  assert (Hfim :
    _participante_commit_abort_troca_cartas_logica resultado
      {| self := {| url_local := u; servidores_jogo := l;
                    transacoes_em_andamento := <[id_transacao transacao := transacao]> m |};
         servico_coordenacao :=
           {| estoque_global := oe; inventarios := invs;
              transacoes := <[id_transacao transacao := transacao]> txs |} |}
    = (Retorna (),
       {| self := {| url_local := u; servidores_jogo := l; transacoes_em_andamento := m |};
          servico_coordenacao :=
            {| estoque_global := oe; inventarios := invs; transacoes := txs |} |})).
  { desdobrar. rewrite Hid. simpl. rewrite lookup_insert_eq. simpl.
    rewrite Hdados. simpl. rewrite decide_False by done. simpl.
    unfold com_em_andamento, com_coordenacao, remover_transacao; simpl.
    by rewrite !delete_insert_id. }
  unfold _participante_prepare_troca_cartas_logica.
  unfold em_andamento_guardar, persistir, dados_detalhes_troca, consultar, ler, gravar,
    mbind, mret, Acao_bind, Acao_ret. rewrite Hdados. simpl.
  repeat match goal with |- context [if ?b then _ else _] => destruct b end;
    eexists _, _; (split; [reflexivity|]); exact Hfim.
Qed.

(** ** What a committed trade does to the cards *)

Lemma remover_primeira_permutacao (c : Carta) (l : list Carta) :
  c ∈ l → c :: remover_primeira c l ≡ₚ l.
Proof.
  induction l as [|x l IH]; [by intros ?%elem_of_nil|].
  intros Hc. simpl. case_decide as Hx; [by subst|].
  apply elem_of_cons in Hc as [->|Hc]; [done|].
  rewrite Permutation_swap. by rewrite IH.
Qed.

Lemma troca_permutacao {A} (a b : A) (ra rb : list A) :
  (ra ++ [b]) ++ (rb ++ [a]) ≡ₚ (a :: ra) ++ (b :: rb).
Proof.
  rewrite (Permutation_app_comm rb [a]). rewrite <- app_assoc. simpl.
  rewrite <- !Permutation_middle. apply Permutation_swap.
Qed.

(** The state in which a decision handler finds the transaction, and goes
    on from. *)
Lemma localizar_transacao_estado id c :
  ∃ achada,
    localizar_transacao id c = (Retorna achada, com_em_andamento (delete id) c).
Proof.
  desdobrar. destruct (transacoes_em_andamento (self c) !! id); simpl; by eexists.
Qed.

(** X12.  A GLOBAL_COMMIT of a trade between two different players, on a
    store whose inventories sit under their own ids: the decision is
    handled to the end, the two inventories together hold the same cards as
    before, each holds as many cards and as many packs as before, and no
    other inventory changes. *)
Theorem troca_commit_conserva_cartas
    (resultado : Resultado2PC) (transacao : Transacao2PC) (detalhes : DetalhesTroca)
    (inv_a inv_b : Inventario) (c : Contexto) :
  let r := servico_coordenacao c in
  (localizar_transacao (res_id_transacao resultado) c).1 = Retorna (Some transacao) →
  dados transacao = DadosTroca detalhes →
  decisao resultado = GLOBAL_COMMIT →
  id_jogador_a detalhes ≠ id_jogador_b detalhes →
  bem_formado r →
  get_inventario (id_jogador_a detalhes) r = Some inv_a →
  get_inventario (id_jogador_b detalhes) r = Some inv_b →
  ∃ c' inv_a' inv_b',
    _participante_commit_abort_troca_cartas_logica resultado c = (Retorna (), c') ∧
    let r' := servico_coordenacao c' in
    get_inventario (id_jogador_a detalhes) r' = Some inv_a' ∧
    get_inventario (id_jogador_b detalhes) r' = Some inv_b' ∧
    cartas inv_a' ++ cartas inv_b' ≡ₚ cartas inv_a ++ cartas inv_b ∧
    List.length (cartas inv_a') = List.length (cartas inv_a) ∧
    List.length (cartas inv_b') = List.length (cartas inv_b) ∧
    pacotes_disponiveis inv_a' = pacotes_disponiveis inv_a ∧
    pacotes_disponiveis inv_b' = pacotes_disponiveis inv_b ∧
    ∀ k, k ≠ id_jogador_a detalhes → k ≠ id_jogador_b detalhes →
         get_inventario k r' = get_inventario k r.
Proof.
  intros r Hloc Hdados Hdec Hab Hbf Ha Hb.
  destruct (localizar_transacao_estado (res_id_transacao resultado) c) as [achada Eloc].
  rewrite Eloc in Hloc. simpl in Hloc. injection Hloc as ->.
  unfold _participante_commit_abort_troca_cartas_logica.
  rewrite (bind_passo _ _ _ _ _ Eloc).
  unfold dados_detalhes_troca. rewrite Hdados.
  erewrite bind_passo; [|reflexivity].
  rewrite decide_True by done.
  set (c0 := com_em_andamento (delete (res_id_transacao resultado)) c).
  pose proof (troca_atomica_jogadores_distintos detalhes c0 Hab Hbf) as Htroca.
  destruct (trocar_efeito detalhes c0) as [invs Etroca].
  rewrite Etroca in Htroca. simpl in Htroca.
  unfold mbind at 1, Acao_bind at 1. rewrite Etroca.
  unfold persistir, gravar. eexists _. simpl.
  fold r in Htroca.
  destruct Htroca as [Hinvs|(ia & ib & ca & cb & Ha' & Hb' & Hca & Hcb & Ha2 & Hb2 & Hk)].
  - exists inv_a, inv_b. split; [reflexivity|]. simpl.
    unfold get_inventario in *; simpl in *. rewrite Hinvs. done.
  - assert (ia = inv_a) by congruence. assert (ib = inv_b) by congruence. subst ia ib.
    apply procurar_carta_elem in Hca as [Hca _].
    apply procurar_carta_elem in Hcb as [Hcb _].
    pose proof (remover_primeira_permutacao _ _ Hca) as Hpa.
    pose proof (remover_primeira_permutacao _ _ Hcb) as Hpb.
    pose proof (length_remover_primeira _ _ Hca) as Hla.
    pose proof (length_remover_primeira _ _ Hcb) as Hlb.
    exists (cartas_append cb (cartas_remove ca inv_a)),
           (cartas_append ca (cartas_remove cb inv_b)).
    split; [reflexivity|]. simpl.
    split; [exact Ha2|]. split; [exact Hb2|].
    split.
    { rewrite troca_permutacao. by rewrite Hpa, Hpb. }
    rewrite !length_app. simpl. repeat split; try lia. exact Hk.
Qed.

(** ** The cards in circulation *)

Lemma escolher_elem padrao opcoes sorteio :
  opcoes ≠ [] → escolher padrao opcoes sorteio ∈ opcoes.
Proof.
  intros Hne. unfold escolher.
  assert (Hlt : (N.to_nat (sorteio mod N.of_nat (List.length opcoes))%N
                 < List.length opcoes)%nat).
  { assert (N.of_nat (List.length opcoes) ≠ 0%N) by (destruct opcoes; [done|simpl; lia]).
    pose proof (N.mod_lt sorteio (N.of_nat (List.length opcoes))). lia. }
  apply lookup_lt_is_Some in Hlt as [x Hx]. rewrite Hx. simpl.
  by eapply list_elem_of_lookup_2.
Qed.

Lemma gerar_carta_bem_gerada (g : Gerador) (pos : nat) (jogador : string) :
  carta_bem_gerada (gerar_carta g pos jogador).
Proof.
  unfold carta_bem_gerada, gerar_carta. simpl.
  split; [by apply escolher_elem|].
  split; [apply escolher_elem; unfold skins; by repeat case_decide|].
  split; [by apply escolher_elem|].
  split; [reflexivity|].
  eexists. split; [|reflexivity].
  assert (Hm : (g (pos + 3)%nat mod 9000 < 9000)%N) by (apply N.mod_lt; done).
  revert Hm. generalize (g (pos + 3)%nat mod 9000)%N. intros n Hm. lia.
Qed.

Lemma Forall_simular_abertura_pacote (g : Gerador) (jogador : string) :
  Forall carta_bem_gerada (simular_abertura_pacote g jogador).
Proof.
  unfold simular_abertura_pacote. apply Forall_fmap, Forall_forall. intros k _.
  apply gerar_carta_bem_gerada.
Qed.

(** X13.  Whatever the generator draws, [gerar_carta] makes a card whose
    kind, skin and rarity come from the tables (the skin from the table of
    its kind), whose name is built from kind and skin, and whose id is
    CARTA- and a number between 1000 and 9999; a pack holds three of them. *)
Theorem simular_abertura_pacote_bem_geradas (g : Gerador) (jogador : string) :
  List.length (simular_abertura_pacote g jogador) = 3%nat ∧
  Forall carta_bem_gerada (simular_abertura_pacote g jogador) ∧
  ∀ pos, carta_bem_gerada (gerar_carta g pos jogador).
Proof.
  split; [reflexivity|]. split; [apply Forall_simular_abertura_pacote|].
  intros pos. apply gerar_carta_bem_gerada.
Qed.

Lemma mantem_cartas_bem_geradas_refl r : mantem_cartas_bem_geradas r r.
Proof. by intros H. Qed.

Lemma mantem_cartas_bem_geradas_trans r1 r2 r3 :
  mantem_cartas_bem_geradas r1 r2 → mantem_cartas_bem_geradas r2 r3 →
  mantem_cartas_bem_geradas r1 r3.
Proof. unfold mantem_cartas_bem_geradas. auto. Qed.

Lemma cartas_bem_geradas_set_inventario inv r :
  Forall carta_bem_gerada (cartas inv) →
  cartas_bem_geradas r → cartas_bem_geradas (set_inventario inv r).
Proof.
  intros Hinv Hr k inv'. unfold get_inventario, set_inventario; simpl.
  rewrite lookup_insert. case_decide; [by intros [= <-]|apply Hr].
Qed.

Lemma Forall_remover_primeira (P : Carta → Prop) c l :
  Forall P l → Forall P (remover_primeira c l).
Proof.
  induction 1 as [|x l Hx Hl IH]; simpl; [done|].
  case_decide; [done|by constructor].
Qed.

Lemma mantem_cartas_bem_geradas_abrir g jogador r :
  mantem_cartas_bem_geradas r
    (set_inventario
       (cartas_extend (simular_abertura_pacote g jogador)
          (default (Inventario_novo jogador 0) (get_inventario jogador r))) r).
Proof.
  intros Hr. apply cartas_bem_geradas_set_inventario; [|done]. simpl.
  apply Forall_app. split.
  - destruct (get_inventario jogador r) as [inv|] eqn:E; simpl; [by eapply Hr|done].
  - apply Forall_simular_abertura_pacote.
Qed.

Lemma mantem_cartas_bem_geradas_trocar d :
  preserva (RC mantem_cartas_bem_geradas) (trocar d).
Proof.
  intros c. unfold RC. destruct c as [svc r]. desdobrar. simpl.
  destruct (get_inventario (id_jogador_a d) r) as [ia|] eqn:Ha; simpl;
    [|apply mantem_cartas_bem_geradas_refl].
  destruct (get_inventario (id_jogador_b d) r) as [ib|] eqn:Hb; simpl;
    [|apply mantem_cartas_bem_geradas_refl].
  destruct (procurar_carta (id_carta_a d) ia) as [ca|] eqn:Hca; simpl;
    [|apply mantem_cartas_bem_geradas_refl].
  destruct (procurar_carta (id_carta_b d) ib) as [cb|] eqn:Hcb; simpl;
    [|apply mantem_cartas_bem_geradas_refl].
  intros Hr.
  pose proof (Hr _ _ Ha) as Hia. pose proof (Hr _ _ Hb) as Hib.
  apply procurar_carta_elem in Hca as [Hca _]. apply procurar_carta_elem in Hcb as [Hcb _].
  assert (carta_bem_gerada ca) by (eapply Forall_forall in Hia; done).
  assert (carta_bem_gerada cb) by (eapply Forall_forall in Hib; done).
  apply cartas_bem_geradas_set_inventario;
    [simpl; apply Forall_app; split; [by apply Forall_remover_primeira|by apply Forall_singleton]|].
  apply cartas_bem_geradas_set_inventario;
    [simpl; apply Forall_app; split; [by apply Forall_remover_primeira|by apply Forall_singleton]|].
  done.
Qed.

Ltac mesmas_cartas :=
  intros; intros ?H ?k ?inv; unfold get_inventario; simpl; by apply H.

Ltac relacao_bem_geradas :=
  first [ exact mantem_cartas_bem_geradas_refl
        | exact mantem_cartas_bem_geradas_trans
        | exact mantem_cartas_bem_geradas_trocar
        | exact mantem_cartas_bem_geradas_abrir
        | mesmas_cartas ].

Lemma mantem_cartas_bem_geradas_abrir_pacote amb eu jogador s :
  mantem_cartas_bem_geradas (redis s) (redis (abrir_pacote amb eu jogador s).2).
Proof.
  unfold abrir_pacote, no_servidor.
  destruct (servidores s !! eu) as [srv|]; [|apply mantem_cartas_bem_geradas_refl].
  destruct (get_inventario jogador (redis s)) as [inv|] eqn:Hinv;
    [|apply mantem_cartas_bem_geradas_refl].
  case_bool_decide as Hpac; [apply mantem_cartas_bem_geradas_refl|].
  set (s1 := coordenacao _ s).
  assert (H01 : mantem_cartas_bem_geradas (redis s) (redis s1)).
  { intros Hr. apply cartas_bem_geradas_set_inventario; [simpl; by eapply Hr|done]. }
  pose proof (RS_iniciar_transacao_abertura_pacote mantem_cartas_bem_geradas
    ltac:(relacao_bem_geradas) ltac:(relacao_bem_geradas)
    ltac:(relacao_bem_geradas) ltac:(relacao_bem_geradas)
    ltac:(relacao_bem_geradas) ltac:(relacao_bem_geradas)
    ltac:(relacao_bem_geradas) amb eu jogador s1) as H12.
  unfold RS in H12.
  destruct (iniciar_transacao_abertura_pacote amb eu jogador s1) as [[desfecho|e] s2];
    simpl in *; [|by eapply mantem_cartas_bem_geradas_trans].
  destruct (sucesso desfecho).
  - destruct (get_inventario jogador (redis s2)); publicado; simpl;
      by eapply mantem_cartas_bem_geradas_trans.
  - simpl. intros Hr.
    apply cartas_bem_geradas_set_inventario; [simpl; by eapply Hr|]. auto.
Qed.

(** X14.  If every card stored is one that [gerar_carta] could have made,
    so is every card stored after any sequence of requests: opening adds
    generated cards, trading moves cards between inventories, and nothing
    else writes a card.  On a fresh deployment this holds from the start. *)
Theorem cartas_em_circulacao_bem_geradas
    (pedidos : list (Ambiente * string * Requisicao)) (s : Sistema) :
  cartas_bem_geradas (redis s) →
  cartas_bem_geradas (redis (executar pedidos s).2).
Proof.
  intros Hr.
  refine (R_executar mantem_cartas_bem_geradas _ _ _ _ _ _ _ _ _ pedidos s Hr);
    try relacao_bem_geradas.
  - intros id r _ H. by apply cartas_bem_geradas_set_inventario.
  - exact mantem_cartas_bem_geradas_abrir_pacote.
Qed.

(** ** Edges of the participant handlers *)

(** X15.  A trade in which a player has no inventory is not vetoed by the
    prepare: if whoever of the two has an inventory holds the card named,
    the vote is VOTE_COMMIT; and the GLOBAL_COMMIT that follows is handled
    to the end without touching any inventory.  Nothing is traded, and
    nobody is told. *)
Theorem troca_com_jogador_sem_inventario
    (transacao : Transacao2PC) (resultado : Resultado2PC)
    (detalhes : DetalhesTroca) (c : Contexto) :
  let r := servico_coordenacao c in
  dados transacao = DadosTroca detalhes →
  res_id_transacao resultado = id_transacao transacao →
  decisao resultado = GLOBAL_COMMIT →
  get_inventario (id_jogador_a detalhes) r = None ∨
  get_inventario (id_jogador_b detalhes) r = None →
  (∀ inv, get_inventario (id_jogador_a detalhes) r = Some inv →
          possui_carta (id_carta_a detalhes) inv = true) →
  (∀ inv, get_inventario (id_jogador_b detalhes) r = Some inv →
          possui_carta (id_carta_b detalhes) inv = true) →
  ∃ v c1 c2,
    _participante_prepare_troca_cartas_logica transacao c = (Retorna v, c1) ∧
    voto v = VOTE_COMMIT ∧
    _participante_commit_abort_troca_cartas_logica resultado c1 = (Retorna (), c2) ∧
    inventarios (servico_coordenacao c2) = inventarios r.
Proof.
  intros r Hdados Hid Hdec Hfalta Ha Hb. subst r.
  destruct c as [[u l m] [oe invs txs]]. simpl in *.
  unfold _participante_prepare_troca_cartas_logica,
    _participante_commit_abort_troca_cartas_logica, localizar_transacao, trocar.
  unfold em_andamento_guardar, em_andamento_pop, persistir, dados_detalhes_troca,
    consultar, ler, gravar, mbind, mret, Acao_bind, Acao_ret.
  rewrite Hdados, Hid. simpl.
  unfold get_inventario in *. simpl in *.
  destruct (invs !! id_jogador_a detalhes) as [ia|] eqn:Ea;
    destruct (invs !! id_jogador_b detalhes) as [ib|] eqn:Eb; simpl;
    try (destruct Hfalta; discriminate);
    try rewrite (Ha _ eq_refl); try rewrite (Hb _ eq_refl); simpl;
    (eexists _, _, _; split; [reflexivity|]; split; [reflexivity|]);
    simpl; rewrite lookup_insert_eq; simpl; rewrite Hdados, Hdec; simpl;
    rewrite ?Ea, ?Eb; simpl; done.
Qed.

(** X16.  A transaction whose payload is of the other kind, sent to the
    open-pack routes: the prepare raises after it has recorded the
    transaction, and every decision for it raises before the record is
    removed, so the store keeps the record however often a decision is
    sent.  The trade routes behave the same on an open-pack payload. *)
Theorem transacao_de_outro_tipo_fica_registada
    (g g' : Gerador) (pacote troca : Transacao2PC) (resultado : Resultado2PC)
    (jogador : string) (quantidade : Z) (detalhes : DetalhesTroca) (c : Contexto) :
  dados troca = DadosTroca detalhes →
  dados pacote = DadosPacote jogador quantidade →
  (res_id_transacao resultado = id_transacao troca →
   ∃ c1 c2,
     _participante_prepare_abrir_pacote_logica troca c = (Levanta KeyError, c1) ∧
     _participante_commit_abort_abrir_pacote_logica g resultado c1
       = (Levanta KeyError, c2) ∧
     _participante_commit_abort_abrir_pacote_logica g' resultado c2
       = (Levanta KeyError, c2) ∧
     get_transacao (id_transacao troca) (servico_coordenacao c2) = Some troca) ∧
  (res_id_transacao resultado = id_transacao pacote →
   ∃ c1 c2,
     _participante_prepare_troca_cartas_logica pacote c = (Levanta ValidationError, c1) ∧
     _participante_commit_abort_troca_cartas_logica resultado c1
       = (Levanta ValidationError, c2) ∧
     _participante_commit_abort_troca_cartas_logica resultado c2
       = (Levanta ValidationError, c2) ∧
     get_transacao (id_transacao pacote) (servico_coordenacao c2) = Some pacote).
Proof.
  intros Htroca Hpacote. destruct c as [[u l m] [oe invs txs]].
  split; intros Hid.
  - unfold _participante_prepare_abrir_pacote_logica,
      _participante_commit_abort_abrir_pacote_logica, localizar_transacao.
    unfold em_andamento_guardar, em_andamento_pop, persistir, dados_quantidade_pacotes,
      dados_id_jogador, consultar, levantar, gravar, mbind, mret, Acao_bind, Acao_ret.
    rewrite Htroca, Hid. simpl.
    eexists _, _. split; [reflexivity|].
    simpl. rewrite lookup_insert_eq. simpl. rewrite Htroca. simpl.
    split; [reflexivity|].
    simpl. rewrite lookup_delete_eq. simpl.
    unfold get_transacao. simpl. rewrite lookup_insert_eq. simpl. rewrite Htroca.
    split; [|reflexivity].
    unfold com_em_andamento. simpl. by rewrite delete_delete_eq.
  - unfold _participante_prepare_troca_cartas_logica,
      _participante_commit_abort_troca_cartas_logica, localizar_transacao.
    unfold em_andamento_guardar, em_andamento_pop, persistir, dados_detalhes_troca,
      consultar, levantar, gravar, mbind, mret, Acao_bind, Acao_ret.
    rewrite Hpacote, Hid. simpl.
    eexists _, _. split; [reflexivity|].
    simpl. rewrite lookup_insert_eq. simpl. rewrite Hpacote. simpl.
    split; [reflexivity|].
    simpl. rewrite lookup_delete_eq. simpl.
    unfold get_transacao. simpl. rewrite lookup_insert_eq. simpl. rewrite Hpacote.
    split; [|reflexivity].
    unfold com_em_andamento. simpl. by rewrite delete_delete_eq.
Qed.

(** ** One store behind every server *)

(** X18.  A player who joins at one server is known at every server at
    once: joining under a new id answers 200 with a fresh inventory of one
    pack and no card, stored under that id, and GET /inventario at any
    server of the deployment answers 200 with the same inventory. *)
Theorem entrar_num_servidor_ver_noutro
    (amb : Ambiente) (aqui ali nome_jogador : string) (s : Sistema) :
  existe_servidor aqui s →
  existe_servidor ali s →
  get_inventario (uuid4 amb) (redis s) = None →
  ∃ corpo s',
    entrar_jogador amb aqui nome_jogador s = (HTTP_200 corpo, s') ∧
    jog_id_jogador (ce_jogador corpo) = uuid4 amb ∧
    ce_inventario corpo = Inventario_novo (uuid4 amb) 1 ∧
    ver_inventario ali (uuid4 amb) s' = (HTTP_200 (Inventario_novo (uuid4 amb) 1), s').
Proof.
  intros [sa Ha] [sb Hb] Hnovo.
  unfold entrar_jogador, ver_inventario, no_servidor. rewrite Ha, Hnovo.
  eexists _, _. split; [reflexivity|]. simpl. split; [reflexivity|]. split; [reflexivity|].
  rewrite Hb. unfold get_inventario. simpl. by rewrite lookup_insert_eq.
Qed.

(** ** Further instances *)

Lemma abrir_pacote_prepare_e_abort_restauram_witness :
  desconhecida "t1" (contexto_de servidor_a um_servidor_um_jogador) ∧
  ∃ v c1,
    _participante_prepare_abrir_pacote_logica transacao_exemplo
      (contexto_de servidor_a um_servidor_um_jogador) = (Retorna v, c1) ∧
    voto v = VOTE_COMMIT ∧
    _participante_commit_abort_abrir_pacote_logica (λ _, 0%N) decisao_abort_exemplo c1
      = (Retorna (), contexto_de servidor_a um_servidor_um_jogador).
Proof.
  assert (H : desconhecida "t1" (contexto_de servidor_a um_servidor_um_jogador))
    by (split; vm_compute; reflexivity).
  split; [exact H|].
  apply (abrir_pacote_prepare_e_abort_restauram (λ _, 0%N) transacao_exemplo
           decisao_abort_exemplo "p1" 1 (contexto_de servidor_a um_servidor_um_jogador)).
  - reflexivity.
  - exact H.
  - vm_compute. eexists. reflexivity.
  - vm_compute. discriminate.
  - reflexivity.
  - reflexivity.
Defined.

Lemma troca_prepare_e_abort_restauram_witness :
  desconhecida "t2" (contexto_de servidor_a um_servidor_uma_carta_cada) ∧
  ∃ v c1,
    _participante_prepare_troca_cartas_logica transacao_troca_exemplo
      (contexto_de servidor_a um_servidor_uma_carta_cada) = (Retorna v, c1) ∧
    _participante_commit_abort_troca_cartas_logica decisao_troca_abort_exemplo c1
      = (Retorna (), contexto_de servidor_a um_servidor_uma_carta_cada).
Proof.
  assert (H : desconhecida "t2" (contexto_de servidor_a um_servidor_uma_carta_cada))
    by (split; vm_compute; reflexivity).
  split; [exact H|].
  apply (troca_prepare_e_abort_restauram transacao_troca_exemplo
           decisao_troca_abort_exemplo troca_exemplo
           (contexto_de servidor_a um_servidor_uma_carta_cada)).
  - reflexivity.
  - exact H.
  - reflexivity.
  - vm_compute. discriminate.
Defined.

Lemma bem_formado_mesmos_inventarios r r' :
  inventarios r' = inventarios r → bem_formado r → bem_formado r'.
Proof. intros Heq Hbf. unfold bem_formado, get_inventario in *. by rewrite Heq. Qed.

Lemma bem_formado_contexto_troca_preparada :
  bem_formado (servico_coordenacao contexto_troca_preparada).
Proof.
  apply (bem_formado_mesmos_inventarios (redis um_servidor_uma_carta_cada));
    [vm_compute; reflexivity|].
  change (bem_formado
            (set_inventario (com_cartas [carta_y] (Inventario_novo "p2" 0))
               (set_inventario (com_cartas [carta_x] (Inventario_novo "p1" 0))
                  (redis (implantar ["A"]))))).
  do 2 apply bem_formado_set_inventario. apply bem_formado_implantar.
Qed.

(** Players p1 and p2 swap their cards. *)
Lemma troca_commit_conserva_cartas_witness :
  get_inventario "p1" (servico_coordenacao contexto_troca_preparada)
    = Some (com_cartas [carta_x] (Inventario_novo "p1" 0)) ∧
  get_inventario "p2" (servico_coordenacao contexto_troca_preparada)
    = Some (com_cartas [carta_y] (Inventario_novo "p2" 0)) ∧
  ∃ c' inv_a' inv_b',
    _participante_commit_abort_troca_cartas_logica decisao_troca_exemplo
      contexto_troca_preparada = (Retorna (), c') ∧
    get_inventario "p1" (servico_coordenacao c') = Some inv_a' ∧
    get_inventario "p2" (servico_coordenacao c') = Some inv_b' ∧
    cartas inv_a' ++ cartas inv_b' ≡ₚ [carta_x] ++ [carta_y].
Proof.
  assert (Ha : get_inventario "p1" (servico_coordenacao contexto_troca_preparada)
               = Some (com_cartas [carta_x] (Inventario_novo "p1" 0)))
    by (vm_compute; reflexivity).
  assert (Hb : get_inventario "p2" (servico_coordenacao contexto_troca_preparada)
               = Some (com_cartas [carta_y] (Inventario_novo "p2" 0)))
    by (vm_compute; reflexivity).
  split; [exact Ha|]. split; [exact Hb|].
  destruct (troca_commit_conserva_cartas decisao_troca_exemplo transacao_troca_exemplo
              troca_exemplo (com_cartas [carta_x] (Inventario_novo "p1" 0))
              (com_cartas [carta_y] (Inventario_novo "p2" 0)) contexto_troca_preparada)
    as (c' & ia & ib & E & H1 & H2 & H3 & _).
  - vm_compute; reflexivity.
  - reflexivity.
  - reflexivity.
  - vm_compute; discriminate.
  - exact bem_formado_contexto_troca_preparada.
  - exact Ha.
  - exact Hb.
  - exists c', ia, ib. split; [exact E|]. split; [exact H1|]. split; [exact H2|exact H3].
Defined.

Lemma cartas_bem_geradas_implantar lista : cartas_bem_geradas (redis (implantar lista)).
Proof.
  intros k inv H. unfold get_inventario in H. simpl in H.
  rewrite lookup_empty in H. discriminate H.
Qed.

(** Two players join a fresh deployment of two servers and open their
    packs. *)
Lemma cartas_em_circulacao_bem_geradas_witness :
  cartas_bem_geradas (redis (implantar ["A"; "B"])) ∧
  cartas_bem_geradas
    (redis (executar (entradas sempre_a 2 ++ aberturas sempre_a 2)
              (implantar ["A"; "B"])).2).
Proof.
  exact (conj (cartas_bem_geradas_implantar ["A"; "B"])
           (cartas_em_circulacao_bem_geradas
              (entradas sempre_a 2 ++ aberturas sempre_a 2) (implantar ["A"; "B"])
              (cartas_bem_geradas_implantar ["A"; "B"]))).
Defined.

(** Player p1 offers a card to p9, of whom the store knows nothing. *)
Lemma troca_com_jogador_sem_inventario_witness :
  get_inventario "p9" (redis um_servidor_uma_carta_cada) = None ∧
  ∃ v c1 c2,
    _participante_prepare_troca_cartas_logica transacao_troca_fantasma
      (contexto_de servidor_a um_servidor_uma_carta_cada) = (Retorna v, c1) ∧
    voto v = VOTE_COMMIT ∧
    _participante_commit_abort_troca_cartas_logica decisao_troca_exemplo c1
      = (Retorna (), c2) ∧
    inventarios (servico_coordenacao c2) = inventarios (redis um_servidor_uma_carta_cada).
Proof.
  assert (H : get_inventario "p9" (redis um_servidor_uma_carta_cada) = None)
    by (vm_compute; reflexivity).
  split; [exact H|].
  apply (troca_com_jogador_sem_inventario transacao_troca_fantasma decisao_troca_exemplo
           {| id_jogador_a := "p1"; id_carta_a := "CARTA-1001";
              id_jogador_b := "p9"; id_carta_b := "CARTA-9009" |}
           (contexto_de servidor_a um_servidor_uma_carta_cada)).
  - reflexivity.
  - reflexivity.
  - reflexivity.
  - right. exact H.
  - intros inv Hinv. vm_compute in Hinv. injection Hinv as <-. reflexivity.
  - intros inv Hinv. vm_compute in Hinv. discriminate Hinv.
Defined.

(** The trade of the examples sent to the open-pack routes. *)
Lemma transacao_de_outro_tipo_fica_registada_witness :
  dados transacao_troca_exemplo = DadosTroca troca_exemplo ∧
  ∃ c1 c2,
    _participante_prepare_abrir_pacote_logica transacao_troca_exemplo
      (contexto_de servidor_a um_servidor_uma_carta_cada) = (Levanta KeyError, c1) ∧
    _participante_commit_abort_abrir_pacote_logica (λ _, 0%N) decisao_troca_exemplo c1
      = (Levanta KeyError, c2) ∧
    _participante_commit_abort_abrir_pacote_logica (λ _, 1%N) decisao_troca_exemplo c2
      = (Levanta KeyError, c2) ∧
    get_transacao "t2" (servico_coordenacao c2) = Some transacao_troca_exemplo.
Proof.
  split; [reflexivity|].
  apply (proj1 (transacao_de_outro_tipo_fica_registada (λ _, 0%N) (λ _, 1%N)
                  transacao_exemplo transacao_troca_exemplo decisao_troca_exemplo
                  "p1" 1 troca_exemplo
                  (contexto_de servidor_a um_servidor_uma_carta_cada)
                  eq_refl eq_refl)).
  reflexivity.
Defined.

(** Joining at server A, looking at server B. *)
Lemma entrar_num_servidor_ver_noutro_witness :
  existe_servidor "A" (implantar ["A"; "B"]) ∧
  existe_servidor "B" (implantar ["A"; "B"]) ∧
  ∃ corpo s',
    entrar_jogador (ambiente "p1" 0) "A" "ana" (implantar ["A"; "B"])
      = (HTTP_200 corpo, s') ∧
    ver_inventario "B" "p1" s' = (HTTP_200 (Inventario_novo "p1" 1), s').
Proof.
  assert (Ha : existe_servidor "A" (implantar ["A"; "B"]))
    by (vm_compute; eexists; reflexivity).
  assert (Hb : existe_servidor "B" (implantar ["A"; "B"]))
    by (vm_compute; eexists; reflexivity).
  split; [exact Ha|]. split; [exact Hb|].
  destruct (entrar_num_servidor_ver_noutro (ambiente "p1" 0) "A" "B" "ana"
              (implantar ["A"; "B"]) Ha Hb)
    as (corpo & s' & E & _ & _ & Hver).
  - vm_compute; reflexivity.
  - exists corpo, s'. split; [exact E|exact Hver].
Defined.

(** ** Opens that overlap *)

(** Served to the end, a request is the four stretches in a row. *)
Lemma abrir_pacote_em_passos amb eu jogador s :
  servir [0; 0; 0; 0]%nat [mkEmCurso amb eu jogador Recebida] s
  = ([mkEmCurso amb eu jogador (Respondida (abrir_pacote amb eu jogador s).1)],
     (abrir_pacote amb eu jogador s).2).
Proof.
  unfold abrir_pacote, no_servidor. simpl.
  destruct (servidores s !! eu) as [srv|]; simpl; [|reflexivity].
  destruct (get_inventario jogador (redis s)) as [inv|]; simpl; [|reflexivity].
  case_bool_decide; simpl; [reflexivity|].
  destruct (iniciar_transacao_abertura_pacote amb eu jogador _) as [[desfecho|e] s2];
    simpl; [|reflexivity].
  destruct (sucesso desfecho); simpl.
  - destruct (get_inventario jogador (redis s2)) as [inv2|]; simpl; [|reflexivity].
    by destruct (apos_publicar _ _ _ s2).
  - reflexivity.
Qed.

(** C10.  Player p1 joined once and was granted one pack.  Two opens for
    p1 overlap: both read the inventory while it shows the pack, the one
    that is aborted writes its copy back, with the pack, after the other
    has taken the pack.  The other open is then committed.  At the end p1
    holds the cards of an opened pack and has a pack available again,
    which a third open spends: two packs opened on one grant. *)
Theorem abertura_sobreposta_devolve_pacote :
  let s0 := dois_servidores_um_jogador in
  let s1 := (servir (take 4 agenda_sobreposta) duas_aberturas s0).2 in
  let '(fim, s2) := servir agenda_sobreposta duas_aberturas s0 in
  let s3 := (abrir_pacote (ambiente "t3" 0) "A" "p1" s2).2 in
  get_inventario "p1" (redis s0) = Some (Inventario_novo "p1" 1) ∧
  pacotes_de "p1" (redis s1) = 0 ∧
  ec_onde <$> fim
    = [Respondida erro_interno;
       Respondida
         (HTTPException 500 "Falha na abertura do pacote. Transação 2PC abortada.")] ∧
  pacotes_de "p1" (redis s2) = 1 ∧
  List.length (cartas_de "p1" s2) = 6%nat ∧
  pacotes_de "p1" (redis s3) = 0 ∧
  List.length (cartas_de "p1" s3) = 12%nat.
Proof. vm_compute. done. Qed.


(** ** The trade coordinator, by its inputs *)

Lemma mesmos_nos_refl s : mesmos_nos s s.
Proof. by intros url. Qed.

Lemma mesmos_nos_trans s1 s2 s3 : mesmos_nos s1 s2 → mesmos_nos s2 s3 → mesmos_nos s1 s3.
Proof. intros H12 H23 url. etrans; [apply H23|apply H12]. Qed.

Lemma mesmos_nos_sempre {A} (m : Acao Contexto A) : em_qualquer_no mesmos_nos m.
Proof.
  intros url srv s Hsrv u. unfold executar_em. destruct (m _) as [res c]; simpl.
  rewrite lookup_insert. case_decide as Hu; [|done].
  subst u. rewrite Hsrv. split; intros _; by eexists.
Qed.

Lemma mesmos_nos_em_no {A} url (m : Acao Contexto A) : preserva mesmos_nos (em_no url m).
Proof.
  apply preserva_em_no; [apply mesmos_nos_refl|apply mesmos_nos_sempre].
Qed.

Lemma mesmos_nos_enviar_prepare entrega url t endpoint :
  preserva mesmos_nos (_enviar_prepare entrega url t endpoint).
Proof.
  apply preserva_enviar_prepare;
    [apply mesmos_nos_refl|apply mesmos_nos_trans|apply mesmos_nos_sempre..].
Qed.

Lemma posse_em_ordem_mesmos_inventarios d r r' :
  inventarios r' = inventarios r → posse_em_ordem d r' = posse_em_ordem d r.
Proof. intros H. unfold posse_em_ordem, get_inventario. by rewrite H. Qed.

(** The vote of the trade prepare is decided by the possession check. *)
Lemma prepare_troca_cartas_voto t d c :
  dados t = DadosTroca d →
  ∃ v c',
    _participante_prepare_troca_cartas_logica t c = (Retorna v, c') ∧
    bool_decide (voto v = VOTE_COMMIT) = posse_em_ordem d (servico_coordenacao c).
Proof.
  intros Hd. desdobrar. rewrite Hd. simpl. unfold posse_em_ordem, get_inventario. simpl.
  destruct (inventarios (servico_coordenacao c) !! id_jogador_a d) as [ia|]; simpl;
    [destruct (possui_carta (id_carta_a d) ia); simpl|];
    (destruct (inventarios (servico_coordenacao c) !! id_jogador_b d) as [ib|]; simpl;
     [destruct (possui_carta (id_carta_b d) ib); simpl|]);
    by eexists _, _.
Qed.

(** What a prepare sent to a peer brings back: a vote when the exchange is
    delivered both ways to a deployed server, and then the vote of the
    peer's handler. *)
Lemma enviar_prepare_troca_voto entrega url t d s :
  dados t = DadosTroca d →
  ∃ v s',
    _enviar_prepare entrega url t "/inventario/troca/prepare" s = (Retorna v, s') ∧
    votou_commit v
      = entregue entrega && bool_decide (is_Some (servidores s !! url))
        && posse_em_ordem d (redis s).
Proof.
  intros Hd.
  unfold _enviar_prepare, try_except, requests_post, raise_for_status.
  unfold mbind, mret, Acao_bind, Acao_ret, levantar. simpl.
  destruct (servidores s !! url) as [srv|] eqn:Hsrv.
  - rewrite bool_decide_true by (by eexists).
    unfold executar_em, participante_prepare_troca_cartas.
    destruct (prepare_troca_cartas_voto t d
                {| self := servico_2pc srv; servico_coordenacao := redis s |} Hd)
      as (v & c' & E & Hv).
    rewrite E. simpl in Hv.
    destruct entrega; simpl; eexists _, _; (split; [reflexivity|]); simpl; done.
  - rewrite bool_decide_false by (by intros [? ?]).
    destruct entrega; simpl; eexists _, _; (split; [reflexivity|]);
      by rewrite ?andb_false_r.
Qed.

(** One turn of the vote loop of the trade coordinator: the participant at
    position [i] votes to commit exactly when it answers and the
    possession check passes; the cache of the coordinator, the
    inventories and the deployment stay as they are. *)
Lemma voto_de_troca amb eu svc t d s0 i u s :
  dados t = DadosTroca d →
  tem_em_cache eu t s →
  inventarios (redis s) = inventarios (redis s0) →
  mesmos_nos s0 s →
  ∃ v s1,
    (if decide (u = url_local svc)
     then em_no eu (_participante_prepare_troca_cartas_logica t) ≫= (λ v, mret (Some v))
     else _enviar_prepare (rede_prepare amb i) u t "/inventario/troca/prepare") s
      = (Retorna v, s1) ∧
    votou_commit v = responde amb svc s0 i u && posse_em_ordem d (redis s0) ∧
    tem_em_cache eu t s1 ∧
    inventarios (redis s1) = inventarios (redis s0) ∧
    mesmos_nos s0 s1.
Proof.
  intros Hd Hs Hinv Hnos. unfold responde.
  assert (Hposse : posse_em_ordem d (redis s) = posse_em_ordem d (redis s0))
    by (by apply posse_em_ordem_mesmos_inventarios).
  case_decide as Hu.
  - rewrite bool_decide_true by done. simpl.
    destruct (prepare_troca_cartas_no_coordenador eu t ltac:(by eexists) s Hs)
      as (v & s1 & E & Hc).
    pose proof (mesmos_nos_em_no eu (_participante_prepare_troca_cartas_logica t) s) as Hn.
    pose proof (mesmos_inventarios_no (_participante_prepare_troca_cartas_logica t) eu
      ltac:(apply RC_prepare_troca_cartas; relacao_inventarios) s) as Hi.
    rewrite E in Hn, Hi. simpl in Hn, Hi. unfold RS, mesmos_inventarios in Hi.
    rewrite (bind_passo _ _ _ _ _ E).
    exists (Some v), s1. split; [reflexivity|].
    split; [|split; [done|split; [congruence|by eapply mesmos_nos_trans]]].
    destruct Hs as (srv & Hsrv & _).
    rewrite (em_no_existente _ _ _ _ Hsrv) in E. unfold executar_em in E.
    destruct (prepare_troca_cartas_voto t d
                {| self := servico_2pc srv; servico_coordenacao := redis s |} Hd)
      as (v' & c' & E' & Hv').
    rewrite E' in E. injection E as -> _. simpl in Hv'. simpl. congruence.
  - rewrite bool_decide_false by done. simpl.
    destruct (enviar_prepare_troca_voto (rede_prepare amb i) u t d s Hd)
      as (v & s1 & E & Hv).
    pose proof (mantem_cache_enviar_prepare eu t (rede_prepare amb i) u
                  "/inventario/troca/prepare" s) as Hc.
    pose proof (mesmos_nos_enviar_prepare (rede_prepare amb i) u t
                  "/inventario/troca/prepare" s) as Hn.
    pose proof (RS_enviar_prepare mesmos_inventarios
      ltac:(relacao_inventarios) ltac:(relacao_inventarios)
      ltac:(relacao_inventarios) ltac:(relacao_inventarios)
      (rede_prepare amb i) u t "/inventario/troca/prepare" s) as Hi.
    rewrite E in Hc, Hn, Hi. simpl in Hc, Hn, Hi. unfold RS, mesmos_inventarios in Hi.
    exists v, s1. split; [done|].
    split; [|split; [by apply Hc|split; [congruence|by eapply mesmos_nos_trans]]].
    rewrite Hv, Hposse. do 2 f_equal. apply bool_decide_ext, Hnos.
Qed.

Lemma votos_troca_cartas_por_entradas amb eu svc t d s0 destinos :
  dados t = DadosTroca d →
  ∀ i n recebidos s,
    tem_em_cache eu t s →
    inventarios (redis s) = inventarios (redis s0) →
    mesmos_nos s0 s →
    ∃ x s',
      votos_troca_cartas amb eu svc i destinos t n recebidos s = (Retorna x, s') ∧
      tem_em_cache eu t s' ∧
      inventarios (redis s') = inventarios (redis s0) ∧
      x.1.1 = todos_respondem amb svc s0 i destinos
              && (bool_decide (destinos = []) || posse_em_ordem d (redis s0)) ∧
      (x.1.1 = true → x.1.2 = n + Z.of_nat (List.length destinos)).
Proof.
  intros Hd. induction destinos as [|u resto IH]; intros i n recebidos s Hs Hinv Hnos;
    simpl.
  - eexists _, _. split; [reflexivity|]. repeat split; try done. simpl. lia.
  - destruct (voto_de_troca amb eu svc t d s0 i u s Hd Hs Hinv Hnos)
      as (v & s1 & E & Hv & Hs1 & Hinv1 & Hnos1).
    rewrite (bind_passo _ _ _ _ _ E).
    destruct (votou_commit v) eqn:Hvc.
    + destruct (IH (S i) (n + 1) (recebidos ++ [v]) s1 Hs1 Hinv1 Hnos1)
        as (x & s2 & E2 & Hs2 & Hinv2 & Hx & Hn).
      exists x, s2. split; [done|]. split; [done|]. split; [done|].
      symmetry in Hv. apply andb_true_iff in Hv as [Hr Hp].
      rewrite Hr, Hp in *. simpl. rewrite orb_true_r in Hx.
      split; [by rewrite Hx|]. intros Ht. rewrite (Hn Ht). lia.
    + eexists _, _. split; [reflexivity|]. split; [done|]. split; [done|]. simpl.
      split; [|done].
      destruct (responde amb svc s0 i u), (posse_em_ordem d (redis s0));
        simpl in *; try done; by rewrite andb_false_r.
Qed.

(** The trade coordinator, in terms of what it is given. *)
Lemma iniciar_transacao_troca_cartas_por_entradas amb eu detalhes s servidor :
  servidores s !! eu = Some servidor →
  let svc := servico_2pc servidor in
  ∃ desfecho s',
    iniciar_transacao_troca_cartas amb eu detalhes s = (Retorna desfecho, s') ∧
    sucesso desfecho
      = todos_respondem amb svc s 0 (servidores_jogo svc)
        && (bool_decide (servidores_jogo svc = []) || posse_em_ordem detalhes (redis s)) ∧
    (sucesso desfecho = false → inventarios (redis s') = inventarios (redis s)).
Proof.
  intros Hsrv svc. unfold iniciar_transacao_troca_cartas.
  destruct (ler_self_no_servidor eu s servidor Hsrv) as (sA & EA & HA & HrA).
  pose proof (mesmos_nos_em_no eu ler_self s) as HnA. rewrite EA in HnA. simpl in HnA.
  rewrite (bind_passo _ _ _ _ _ EA). fold svc.
  set (t := {| id_transacao := uuid4 amb; coordenador_url := url_local svc;
               tipo_operacao := "troca_cartas"; status := "PREPARAR";
               dados := DadosTroca detalhes |}).
  assert (Hd : dados t = DadosTroca detalhes) by reflexivity.
  assert (Htipo : bem_tipada t) by (right; split; [reflexivity|by eexists]).
  change (uuid4 amb) with (id_transacao t).
  set (I0 := inventarios (redis s)).
  assert (HIA : inventarios (redis sA) = I0) by (by rewrite HrA).
  destruct (garante_com_inventarios I0 _ _ _ (guardar_no_coordenador eu t)
              (mesmos_inventarios_no (em_andamento_guardar t) eu
                 ltac:(apply RC_guardar; relacao_inventarios)) sA (conj HA HIA))
    as (uB & sB & EB & HB & HIB).
  pose proof (mesmos_nos_em_no eu (em_andamento_guardar t) sA) as HnB.
  rewrite EB in HnB. simpl in HnB.
  rewrite (bind_passo _ _ _ _ _ EB).
  destruct (garante_com_inventarios I0 _ _ _
              (persistir_no_coordenador eu t (set_transacao t))
              (mesmos_inventarios_no (persistir (set_transacao t)) eu
                 ltac:(apply RC_persistir; relacao_inventarios)) sB (conj HB HIB))
    as (uC & sC & EC & HC & HIC).
  pose proof (mesmos_nos_em_no eu (persistir (set_transacao t)) sB) as HnC.
  rewrite EC in HnC. simpl in HnC.
  rewrite (bind_passo _ _ _ _ _ EC).
  assert (HnsC : mesmos_nos s sC)
    by (eapply mesmos_nos_trans; [|exact HnC]; eapply mesmos_nos_trans; eauto).
  destruct (votos_troca_cartas_por_entradas amb eu svc t detalhes s (servidores_jogo svc)
              Hd 0%nat 0 [] sC HC HIC HnsC)
    as ([[todos n] recebidos] & sE & EE & HE & HIE & Htodos & Hn).
  simpl in Htodos, Hn. rewrite (bind_passo _ _ _ _ _ EE).
  destruct todos.
  - rewrite bool_decide_true by (rewrite Hn by done; lia).
    destruct (finalizar_retorna amb eu t GLOBAL_COMMIT "/inventario/troca/commit_abort"
                Htipo sE HE) as (u & sF & EF & _).
    rewrite (bind_passo _ _ _ _ _ EF).
    eexists _, _. split; [reflexivity|]. simpl. split; [done|done].
  - destruct (garante_com_inventarios I0 _ _ _
                (finalizar_retorna amb eu t GLOBAL_ABORT "/inventario/troca/commit_abort"
                   Htipo)
                (RS_finalizar mesmos_inventarios
                   ltac:(relacao_inventarios) ltac:(relacao_inventarios)
                   ltac:(relacao_inventarios) ltac:(relacao_inventarios)
                   GLOBAL_ABORT
                   ltac:(relacao_inventarios) ltac:(relacao_inventarios)
                   amb eu (id_transacao t) "/inventario/troca/commit_abort")
                sE (conj HE HIE))
      as (uF & sF & EF & _ & HIF).
    rewrite (bind_passo _ _ _ _ _ EF).
    eexists _, _. split; [reflexivity|]. simpl. split; [done|done].
Qed.

Lemma entregue_spec entrega : entregue entrega = true ↔ entrega = Entregue.
Proof. by destruct entrega. Qed.

Lemma todos_respondem_spec amb svc s i destinos :
  todos_respondem amb svc s i destinos = true ↔
  ∀ j url, destinos !! j = Some url →
    url = url_local svc ∨
    (rede_prepare amb (i + j) = Entregue ∧ is_Some (servidores s !! url)).
Proof.
  revert i. induction destinos as [|u resto IH]; intros i; simpl.
  - split; [by intros _ j url|done].
  - rewrite andb_true_iff, IH. unfold responde.
    rewrite orb_true_iff, andb_true_iff, !bool_decide_eq_true, entregue_spec.
    split.
    + intros [Hu Hresto] [|j] url; simpl.
      * intros [= <-]. by rewrite Nat.add_0_r.
      * intros Hj. rewrite <- Nat.add_succ_comm. by apply Hresto.
    + intros H. split.
      * specialize (H 0%nat u eq_refl). by rewrite Nat.add_0_r in H.
      * intros j url Hj. rewrite Nat.add_succ_comm. by apply (H (S j)).
Qed.

Lemma posse_em_ordem_spec d r :
  posse_em_ordem d r = true ↔
  (∀ inv, get_inventario (id_jogador_a d) r = Some inv →
          possui_carta (id_carta_a d) inv = true) ∧
  (∀ inv, get_inventario (id_jogador_b d) r = Some inv →
          possui_carta (id_carta_b d) inv = true).
Proof.
  unfold posse_em_ordem. rewrite andb_true_iff.
  destruct (get_inventario (id_jogador_a d) r) as [ia|],
           (get_inventario (id_jogador_b d) r) as [ib|]; simpl;
    split; intros [Ha Hb]; split; try done; try (by intros inv [= <-]); auto.
Qed.

(** X3.  The trade coordinator returns under every network and every
    configuration, and what it returns is decided by what it is given: it
    returns [True] exactly when every entry of its server list answers the
    prepare (the entry is the coordinator's own URL, or the exchange with
    the server deployed under it is delivered both ways) and, the list not
    being empty, whoever of the two players has an inventory holds the card
    named.  When it returns [False] the stored inventories are what they
    were. *)
Theorem troca_confirma_sse_respondem_e_possuem
    (amb : Ambiente) (eu : string) (detalhes : DetalhesTroca)
    (s : Sistema) (servidor : Servidor) :
  servidores s !! eu = Some servidor →
  let svc := servico_2pc servidor in
  ∃ desfecho s',
    iniciar_transacao_troca_cartas amb eu detalhes s = (Retorna desfecho, s') ∧
    (sucesso desfecho = true ↔
       (∀ i url, servidores_jogo svc !! i = Some url →
          url = url_local svc ∨
          (rede_prepare amb i = Entregue ∧ is_Some (servidores s !! url))) ∧
       (servidores_jogo svc = [] ∨
        ((∀ inv, get_inventario (id_jogador_a detalhes) (redis s) = Some inv →
                 possui_carta (id_carta_a detalhes) inv = true) ∧
         (∀ inv, get_inventario (id_jogador_b detalhes) (redis s) = Some inv →
                 possui_carta (id_carta_b detalhes) inv = true)))) ∧
    (sucesso desfecho = false → inventarios (redis s') = inventarios (redis s)).
Proof.
  intros Hsrv svc.
  destruct (iniciar_transacao_troca_cartas_por_entradas amb eu detalhes s servidor Hsrv)
    as (desfecho & s' & E & Hs & Hinv).
  exists desfecho, s'. split; [done|]. split; [|done].
  fold svc in Hs. rewrite Hs, andb_true_iff, orb_true_iff.
  rewrite todos_respondem_spec, posse_em_ordem_spec, bool_decide_eq_true. done.
Qed.

(** X8.  The answer of POST /inventario/troca is decided by what the
    request meets: 200 when every entry of the server list answers the
    prepare and, the list not being empty, whoever of the two players has
    an inventory holds the card named; the 500 of an aborted transaction
    otherwise, with the stored inventories as they were.  There is no other
    answer. *)
Theorem iniciar_troca_cartas_resposta
    (amb : Ambiente) (eu jogador_a jogador_b carta_a carta_b : string)
    (s : Sistema) (servidor : Servidor) :
  servidores s !! eu = Some servidor →
  let svc := servico_2pc servidor in
  let detalhes :=
    {| id_jogador_a := jogador_a; id_carta_a := carta_a;
       id_jogador_b := jogador_b; id_carta_b := carta_b |} in
  let confirma :=
    todos_respondem amb svc s 0 (servidores_jogo svc)
    && (bool_decide (servidores_jogo svc = []) || posse_em_ordem detalhes (redis s)) in
  ∃ s',
    iniciar_troca_cartas amb eu jogador_a jogador_b carta_a carta_b s
      = (if confirma
         then HTTP_200 "Troca de cartas concluída com sucesso!"
         else HTTPException 500 "Falha na troca de cartas. Transação 2PC abortada.",
         s') ∧
    (confirma = false → inventarios (redis s') = inventarios (redis s)).
Proof.
  intros Hsrv svc detalhes confirma.
  destruct (iniciar_transacao_troca_cartas_por_entradas amb eu detalhes s servidor Hsrv)
    as (desfecho & s' & E & Hs & Hinv).
  fold svc in Hs. fold confirma in Hs.
  exists s'. split; [|by rewrite <- Hs].
  unfold iniciar_troca_cartas, no_servidor. rewrite Hsrv. fold detalhes.
  rewrite E, Hs. by destruct confirma.
Qed.

(** ** The open-pack coordinator and the votes of the prepares *)

Lemma prepares_remotos_retorna amb t destinos :
  ∀ i s, ∃ vs s', prepares_remotos amb i destinos t s = (Retorna vs, s') ∧
                  List.length vs = List.length destinos.
Proof.
  induction destinos as [|u resto IH]; intros i s; simpl; [by eexists _, _|].
  destruct (enviar_prepare_retorna (rede_prepare amb i) u t
              "/transacao/abrir_pacote/prepare" s) as (v & s1 & E).
  rewrite (bind_passo _ _ _ _ _ E).
  destruct (IH (S i) s1) as (vs & s2 & E2 & Hlen).
  rewrite (bind_passo _ _ _ _ _ E2).
  eexists _, _. split; [reflexivity|]. simpl. by f_equal.
Qed.

(** The loop of the coordinator reports unanimity exactly when the votes of
    the remote prepares are all commits; it has then asked everybody and
    counted every vote. *)
Lemma votos_remotos_abrir_pacote_dos_prepares amb t destinos :
  ∀ i n recebidos s,
    ∃ x s1 vs s2,
      votos_remotos_abrir_pacote amb i destinos t n recebidos s = (Retorna x, s1) ∧
      prepares_remotos amb i destinos t s = (Retorna vs, s2) ∧
      List.length vs = List.length destinos ∧
      x.1.1 = forallb votou_commit vs ∧
      (x.1.1 = true → s1 = s2 ∧ x.1.2 = n + Z.of_nat (List.length destinos)).
Proof.
  induction destinos as [|u resto IH]; intros i n recebidos s; simpl.
  - eexists _, _, _, _. repeat split; try reflexivity. simpl. lia.
  - destruct (enviar_prepare_retorna (rede_prepare amb i) u t
                "/transacao/abrir_pacote/prepare" s) as (v & s1 & E).
    rewrite !(bind_passo _ _ _ _ _ E).
    destruct (votou_commit v) eqn:Hv.
    + destruct (IH (S i) (n + 1) (recebidos ++ [v]) s1)
        as (x & s2 & vs & s3 & E2 & E3 & Hlen & Hx & Hs).
      rewrite (bind_passo _ _ _ _ _ E3).
      exists x, s2, (v :: vs), s3. split; [done|]. split; [reflexivity|].
      split; [simpl; by f_equal|]. simpl. rewrite Hv. simpl.
      split; [done|]. intros Ht. destruct (Hs Ht) as [-> Hn]. split; [done|]. lia.
    + destruct (prepares_remotos_retorna amb t resto (S i) s1) as (vs & s3 & E3 & Hlen).
      rewrite (bind_passo _ _ _ _ _ E3).
      eexists _, _, (v :: vs), _. split; [reflexivity|]. split; [reflexivity|].
      split; [simpl; by f_equal|]. simpl. rewrite Hv. simpl. done.
Qed.


(** ** What a committed open leaves in the inventory *)

(** The open-pack coordinator in two stretches: what it returns, and, when
    it returns [True], the state from which it finalised with
    GLOBAL_COMMIT, reached through registration and prepares alone. *)
Section FasesDaAbertura.
Context (R : Redis → Redis → Prop).
Hypothesis R_refl : ∀ r, R r r.
Hypothesis R_trans : ∀ r1 r2 r3, R r1 r2 → R r2 r3 → R r1 r3.
Hypothesis R_set_transacao : ∀ t r, R r (set_transacao t r).
Hypothesis R_set_estoque_global : ∀ e r, R r (set_estoque_global e r).

Lemma abertura_em_fases amb eu jogador s servidor :
  servidores s !! eu = Some servidor →
  let t := {| id_transacao := uuid4 amb;
              coordenador_url := url_local (servico_2pc servidor);
              tipo_operacao := "abrir_pacote"; status := "PREPARAR";
              dados := DadosPacote jogador 1 |} in
  ∃ desfecho s',
    iniciar_transacao_abertura_pacote amb eu jogador s = (Retorna desfecho, s') ∧
    (sucesso desfecho = true →
     ∃ s_votos,
       tem_em_cache eu t s_votos ∧
       R (redis s) (redis s_votos) ∧
       _finalizar_transacao_generica amb eu (uuid4 amb) GLOBAL_COMMIT
         "/transacao/abrir_pacote/commit_abort" s_votos = (Retorna (), s')).
Proof.
  intros Hsrv t. unfold iniciar_transacao_abertura_pacote.
  destruct (ler_self_no_servidor eu s servidor Hsrv) as (sA & EA & HA & HrA).
  rewrite (bind_passo _ _ _ _ _ EA).
  set (svc := servico_2pc servidor) in *. fold t.
  assert (Hd : ∃ j q, dados t = DadosPacote j q) by (by eexists _, _).
  assert (Htipo : bem_tipada t) by (left; split; [reflexivity|exact Hd]).
  change (uuid4 amb) with (id_transacao t).
  assert (Hno : ∀ {A} (m : Acao Contexto A) s0 a s1,
            preserva (RC R) m → em_no eu m s0 = (Retorna a, s1) →
            R (redis s0) (redis s1)).
  { intros A m s0 a s1 Hm E.
    pose proof (preserva_em_no (RS R) (RS_refl R R_refl) eu m
                  (RC_em_qualquer_no R m Hm) s0) as H.
    by rewrite E in H. }
  destruct (guardar_no_coordenador eu t sA HA) as (uB & sB & EB & HB).
  pose proof (Hno _ _ _ _ _ (RC_guardar R R_refl t) EB) as RB.
  rewrite (bind_passo _ _ _ _ _ EB).
  destruct (persistir_no_coordenador eu t (set_transacao t) sB HB) as (uC & sC & EC & HC).
  pose proof (Hno _ _ _ _ _ (RC_persistir R _ (R_set_transacao t)) EC) as RC'.
  rewrite (bind_passo _ _ _ _ _ EC).
  destruct (prepare_abrir_pacote_no_coordenador eu t Hd sC HC)
    as (voto_local & sD & ED & HD).
  pose proof (Hno _ _ _ _ _
                (RC_prepare_abrir_pacote R R_refl R_trans R_set_transacao
                   R_set_estoque_global t) ED) as RD.
  rewrite (bind_passo _ _ _ _ _ ED).
  assert (RsD : R (redis s) (redis sD)).
  { rewrite <- HrA. eapply R_trans; [exact RB|]. eapply R_trans; [exact RC'|exact RD]. }
  case_bool_decide as Hlocal.
  - destruct (votos_remotos_abrir_pacote_apuracao amb eu t (outros_servidores svc)
                0%nat 1 [Some voto_local] sD HD)
      as ([[todos n] recebidos] & sE & EE & HE & _).
    pose proof (RS_votos_remotos_abrir_pacote R R_refl R_trans R_set_transacao
                  R_set_estoque_global amb 0%nat (outros_servidores svc) t 1
                  [Some voto_local] sD) as RE.
    rewrite EE in RE. unfold RS in RE. simpl in RE.
    rewrite (bind_passo _ _ _ _ _ EE).
    destruct todos.
    + case_bool_decide as Hconta.
      * destruct (finalizar_retorna amb eu t GLOBAL_COMMIT
                    "/transacao/abrir_pacote/commit_abort" Htipo sE HE)
          as ([] & sF & EF & _).
        rewrite (bind_passo _ _ _ _ _ EF).
        eexists _, _. split; [reflexivity|]. intros _.
        exists sE. split; [done|]. split; [by eapply R_trans|done].
      * destruct (finalizar_retorna amb eu t GLOBAL_ABORT
                    "/transacao/abrir_pacote/commit_abort" Htipo sE HE)
          as ([] & sF & EF & _).
        rewrite (bind_passo _ _ _ _ _ EF).
        eexists _, _. split; [reflexivity|]. done.
    + destruct (finalizar_retorna amb eu t GLOBAL_ABORT
                  "/transacao/abrir_pacote/commit_abort" Htipo sE HE)
        as ([] & sF & EF & _).
      rewrite (bind_passo _ _ _ _ _ EF).
      eexists _, _. split; [reflexivity|]. done.
  - destruct (finalizar_retorna amb eu t GLOBAL_ABORT
                "/transacao/abrir_pacote/commit_abort" Htipo sD HD)
      as ([] & sF & EF & _).
    rewrite (bind_passo _ _ _ _ _ EF).
    eexists _, _. split; [reflexivity|]. done.
Qed.
End FasesDaAbertura.

Lemma numero_de_cartas_nunca_perde k r r' :
  nunca_perde r r' → bem_formado r →
  bem_formado r' ∧ (numero_de_cartas k r ≤ numero_de_cartas k r')%nat.
Proof.
  intros H Hbf. destruct (H Hbf) as [Hbf' Hle]. split; [done|].
  unfold numero_de_cartas. destruct (get_inventario k r) as [inv|] eqn:E; [|lia].
  destruct (Hle k inv E) as (inv' & -> & Hl). done.
Qed.

Lemma nunca_perde_em_no {A} eu (m : Acao Contexto A) s a s' :
  preserva (RC nunca_perde) m → em_no eu m s = (Retorna a, s') →
  nunca_perde (redis s) (redis s').
Proof.
  intros Hm E.
  pose proof (preserva_em_no (RS nunca_perde) (RS_refl nunca_perde nunca_perde_refl) eu m
                (RC_em_qualquer_no nunca_perde m Hm) s) as H.
  by rewrite E in H.
Qed.

(** The commit of an open-pack transaction at the server that holds it in
    its cache: three cards more for the player. *)
Lemma commit_local_acrescenta g eu t resultado jogador quantidade s :
  dados t = DadosPacote jogador quantidade →
  res_id_transacao resultado = id_transacao t →
  decisao resultado = GLOBAL_COMMIT →
  tem_em_cache eu t s →
  bem_formado (redis s) →
  ∃ s',
    em_no eu (_participante_commit_abort_abrir_pacote_logica g resultado) s
      = (Retorna (), s') ∧
    existe_servidor eu s' ∧
    bem_formado (redis s') ∧
    numero_de_cartas jogador (redis s') = (numero_de_cartas jogador (redis s) + 3)%nat.
Proof.
  intros Hd Hid Hdec (srv & Hsrv & Hc) Hbf.
  rewrite (em_no_existente _ _ _ _ Hsrv). unfold executar_em.
  desdobrar. rewrite Hid. simpl. rewrite Hc. simpl. rewrite Hd. simpl.
  rewrite decide_True by done. simpl.
  eexists. split; [reflexivity|].
  split; [unfold existe_servidor; simpl; rewrite lookup_insert_eq; by eexists|].
  simpl.
  assert (Hk : id_jogador (default (Inventario_novo jogador 0)
                             (get_inventario jogador (redis s))) = jogador).
  { destruct (get_inventario jogador (redis s)) as [inv|] eqn:E; simpl; [|done].
    by apply Hbf. }
  split.
  - intros k inv. unfold get_inventario. simpl.
    rewrite lookup_insert. case_decide as Hk'; [by intros [= <-]|]. apply Hbf.
  - unfold numero_de_cartas, get_inventario in *. simpl. rewrite Hk.
    rewrite lookup_insert_eq. simpl. rewrite length_app. simpl.
    destruct (inventarios (redis s) !! jogador); simpl; lia.
Qed.

Lemma finalizar_commit_acrescenta amb eu t jogador quantidade endpoint s :
  tipo_operacao t = "abrir_pacote" →
  dados t = DadosPacote jogador quantidade →
  tem_em_cache eu t s →
  bem_formado (redis s) →
  ∃ s',
    _finalizar_transacao_generica amb eu (id_transacao t) GLOBAL_COMMIT endpoint s
      = (Retorna (), s') ∧
    bem_formado (redis s') ∧
    (numero_de_cartas jogador (redis s) + 3 ≤ numero_de_cartas jogador (redis s'))%nat.
Proof.
  intros Htipo Hd Hs Hbf. unfold _finalizar_transacao_generica.
  destruct (buscar_no_coordenador eu t s Hs) as (achada & s1 & E1 & -> & H1).
  pose proof (nunca_perde_em_no _ _ _ _ _
                (RC_buscar nunca_perde nunca_perde_refl nunca_perde_trans _) E1) as R1.
  rewrite (bind_passo _ _ _ _ _ E1).
  destruct (ler_self_no_coordenador eu t s1 H1) as (svc & s2 & E2 & H2).
  pose proof (nunca_perde_em_no _ _ _ _ _
                (RC_ler_self nunca_perde nunca_perde_refl nunca_perde_trans) E2) as R2.
  rewrite (bind_passo _ _ _ _ _ E2).
  destruct (numero_de_cartas_nunca_perde jogador _ _
              (nunca_perde_trans _ _ _ R1 R2) Hbf) as [Hbf2 Hn2].
  set (resultado := {| res_id_transacao := id_transacao t;
                       res_servidor_url := url_local svc;
                       decisao := GLOBAL_COMMIT |}).
  rewrite decide_True by done.
  destruct (commit_local_acrescenta (random amb eu) eu t resultado jogador quantidade s2
              Hd eq_refl eq_refl H2 Hbf2) as (s3 & E3 & H3 & Hbf3 & Hn3).
  rewrite (bind_passo _ _ _ _ _ E3).
  destruct (enviar_decisoes_garante amb eu 0%nat (outros_servidores svc) resultado endpoint
              s3 H3) as ([] & s4 & E4 & H4).
  pose proof (preserva_enviar_decisoes (RS nunca_perde)
                (RS_refl nunca_perde nunca_perde_refl)
                (RS_trans nunca_perde nunca_perde_trans)
                amb 0%nat (outros_servidores svc) resultado endpoint
                (λ g, RC_em_qualquer_no nunca_perde _
                        (RC_commit_abort_abrir_pacote nunca_perde nunca_perde_refl
                           nunca_perde_trans ltac:(relacao_nunca_perde)
                           ltac:(relacao_nunca_perde) g resultado
                           (λ _, nunca_perde_abrir g)))
                (RC_em_qualquer_no nunca_perde _
                   (RC_commit_abort_troca_cartas nunca_perde nunca_perde_refl
                      nunca_perde_trans ltac:(relacao_nunca_perde) resultado
                      (λ _, nunca_perde_trocar)))
                s3) as R4.
  rewrite E4 in R4. unfold RS in R4. simpl in R4.
  rewrite (bind_passo _ _ _ _ _ E4).
  destruct (garante_em_no_total eu (em_andamento_pop (id_transacao t))
              ltac:(by (intros c; eexists _, _)) s4 H4) as (u5 & s5 & E5 & H5).
  pose proof (nunca_perde_em_no _ _ _ _ _ (RC_pop nunca_perde nunca_perde_refl _) E5) as R5.
  rewrite (bind_passo _ _ _ _ _ E5).
  destruct (garante_em_no_total eu (persistir (remover_transacao (id_transacao t)))
              ltac:(by (intros c; eexists _, _)) s5 H5) as ([] & s6 & E6 & H6).
  pose proof (nunca_perde_em_no _ _ _ _ _
                (RC_persistir nunca_perde (remover_transacao (id_transacao t))
                   ltac:(relacao_nunca_perde)) E6) as R6.
  exists s6. split; [exact E6|].
  destruct (numero_de_cartas_nunca_perde jogador _ _
              (nunca_perde_trans _ _ _ R4 (nunca_perde_trans _ _ _ R5 R6)) Hbf3)
    as [Hbf6 Hn6].
  split; [done|]. lia.
Qed.

(** A committed open leaves the player with at least three cards more
    than before. *)
Lemma abertura_confirmada_acrescenta amb eu jogador s servidor :
  servidores s !! eu = Some servidor →
  bem_formado (redis s) →
  ∃ desfecho s',
    iniciar_transacao_abertura_pacote amb eu jogador s = (Retorna desfecho, s') ∧
    (sucesso desfecho = true →
     bem_formado (redis s') ∧
     (numero_de_cartas jogador (redis s) + 3 ≤ numero_de_cartas jogador (redis s'))%nat).
Proof.
  intros Hsrv Hbf.
  destruct (abertura_em_fases nunca_perde nunca_perde_refl nunca_perde_trans
              ltac:(relacao_nunca_perde) ltac:(relacao_nunca_perde)
              amb eu jogador s servidor Hsrv) as (desfecho & s' & E & Hsuc).
  exists desfecho, s'. split; [done|]. intros Hs.
  destruct (Hsuc Hs) as (sV & HV & RV & EF).
  destruct (numero_de_cartas_nunca_perde jogador _ _ RV Hbf) as [HbfV HnV].
  set (t := {| id_transacao := uuid4 amb;
               coordenador_url := url_local (servico_2pc servidor);
               tipo_operacao := "abrir_pacote"; status := "PREPARAR";
               dados := DadosPacote jogador 1 |}) in *.
  destruct (finalizar_commit_acrescenta amb eu t jogador 1
              "/transacao/abrir_pacote/commit_abort" sV eq_refl eq_refl HV HbfV)
    as (s'' & EF' & Hbf' & Hn').
  change (id_transacao t) with (uuid4 amb) in EF'.
  rewrite EF in EF'. injection EF' as <-. split; [done|lia].
Qed.

(** ** What the client endpoints answer *)

Lemma ultimas_nao_vazia {A} (l : list A) : l ≠ [] → ultimas 3 l ≠ [].
Proof.
  intros Hl Hu. apply (f_equal List.length) in Hu. unfold ultimas in Hu.
  rewrite length_drop in Hu. simpl in Hu.
  destruct l; [done|]. simpl in Hu. lia.
Qed.

(** The event of an opened pack cannot be encoded once the inventory holds
    a card. *)
Lemma publicar_cartas_levanta {A} jogador (inv : Inventario) (depois : Endpoint A) s :
  cartas inv ≠ [] →
  apos_publicar (CANAL_NOTIFICACOES_JOGADOR jogador)
    [("tipo", Texto "pacote_aberto"); ("status", Texto "sucesso");
     ("cartas_obtidas", Objetos (ultimas 3 (cartas inv)))] depois s
  = (erro_interno, s).
Proof.
  intros Hc. apply ultimas_nao_vazia in Hc.
  unfold apos_publicar, publicar, json_dumps. simpl.
  by destruct (ultimas 3 (cartas inv)).
Qed.


(** ** A server alone in its list *)

(** The open-pack coordinator of a server that is its only participant,
    with a pack in stock: it commits, the target inventory gains the
    three cards drawn, the stock is one lower, no other inventory changes
    and the transaction leaves no record. *)
Lemma abertura_num_servidor_so
    (amb : Ambiente) (eu jogador : string) (s : Sistema) (servidor : Servidor)
    (inventario : Inventario) :
  servidores s !! eu = Some servidor →
  servidores_jogo (servico_2pc servidor) = [url_local (servico_2pc servidor)] →
  get_inventario jogador (redis s) = Some inventario →
  id_jogador inventario = jogador →
  1 ≤ estoque s →
  ∃ desfecho s',
    iniciar_transacao_abertura_pacote amb eu jogador s = (Retorna desfecho, s') ∧
    sucesso desfecho = true ∧
    get_inventario jogador (redis s')
      = Some (com_cartas
                (cartas inventario ++ simular_abertura_pacote (random amb eu) jogador)
                inventario) ∧
    estoque s' = estoque s - 1 ∧
    (∀ k, k ≠ jogador → get_inventario k (redis s') = get_inventario k (redis s)) ∧
    sem_rasto eu (uuid4 amb) s'.
Proof.
  intros Hsrv Hl Hinv Hid Hest.
  destruct servidor as [nome [u l m]]. simpl in Hl. subst l.
  destruct s as [[oe invs txs] srvs]. destruct inventario as [k cs n].
  unfold estoque, get_estoque_global, get_inventario in *. simpl in *. subst k.
  unfold iniciar_transacao_abertura_pacote, _finalizar_transacao_generica,
    em_no, executar_em, coordenacao, outros_servidores.
  desdobrar. simpl. rewrite Hsrv. simpl.
  unfold get_estoque_global, set_transacao, set_inventario, set_estoque_global,
    remover_transacao, get_transacao, get_inventario, com_em_andamento, com_coordenacao.
  simpl.
  assert (Hf : filter (λ url : string, url ≠ u) [u] = [])
    by (rewrite filter_cons_False; [done|by intros H; apply H]).
  repeat first
    [ rewrite Hf
    | rewrite insert_insert_eq
    | rewrite lookup_insert_eq
    | rewrite lookup_delete_eq
    | rewrite Hinv
    | rewrite bool_decide_false by lia
    | rewrite bool_decide_true by done
    | rewrite decide_True by done
    | rewrite decide_False by done
    | progress simpl ].
  eexists _, _. split; [reflexivity|]. simpl.
  split; [reflexivity|].
  split; [by rewrite lookup_insert_eq|]. split; [reflexivity|].
  split; [by intros k Hk; rewrite lookup_insert_ne|].
  split; [unfold get_transacao; simpl; by rewrite lookup_delete_eq|].
  eexists. split; [apply lookup_insert_eq|]. simpl. by rewrite lookup_delete_eq.
Qed.




(** C7, as the code has it.  The cards of an open are those of
    [simular_abertura_pacote], which are fixed by the first twelve draws
    of the server's random generator and by nothing else: two executions
    of the commit step that draw the same numbers append the same cards,
    whatever the transaction and the player.  The commit step appends
    these three cards to the inventory of the target player; and when a
    player with a pack opens it at a server that is alone in its list,
    with a pack in stock, the inventory stored afterwards holds exactly
    the three cards drawn more than before. *)
Theorem abertura_acrescenta_tres_cartas_sorteadas
    (amb : Ambiente) (eu jogador : string) (s : Sistema) (servidor : Servidor)
    (inventario : Inventario) :
  servidores s !! eu = Some servidor →
  servidores_jogo (servico_2pc servidor) = [url_local (servico_2pc servidor)] →
  get_inventario jogador (redis s) = Some inventario →
  id_jogador inventario = jogador →
  0 < pacotes_disponiveis inventario →
  1 ≤ estoque s →
  let sorteadas := simular_abertura_pacote (random amb eu) jogador in
  (∃ atualizado,
     get_inventario jogador (redis (abrir_pacote amb eu jogador s).2) = Some atualizado ∧
     cartas atualizado = cartas inventario ++ sorteadas ∧
     List.length (cartas atualizado) = (List.length (cartas inventario) + 3)%nat) ∧
  List.length sorteadas = 3%nat ∧
  (∀ (g g' : Gerador) (jogador' jogador'' : string),
     (∀ k, (k < 12)%nat → g' k = g k) →
     simular_abertura_pacote g' jogador'' = simular_abertura_pacote g jogador') ∧
  (∀ (g : Gerador) (resultado : Resultado2PC) (c : Contexto)
     (transacao : Transacao2PC) (alvo : string) (quantidade : Z),
     retorno (localizar_transacao (res_id_transacao resultado) c)
       = Retorna (Some transacao) →
     dados transacao = DadosPacote alvo quantidade →
     decisao resultado = GLOBAL_COMMIT →
     (∀ inv, get_inventario alvo (servico_coordenacao c) = Some inv →
             id_jogador inv = alvo) →
     let antes :=
       default (Inventario_novo alvo 0) (get_inventario alvo (servico_coordenacao c)) in
     get_inventario alvo
       (servico_coordenacao
          (estado_final (_participante_commit_abort_abrir_pacote_logica g resultado c)))
     = Some (com_cartas (cartas antes ++ simular_abertura_pacote g alvo) antes)).
Proof.
  intros Hsrv Hl Hinv Hid Hpac Hest sorteadas.
  split; [|split; [reflexivity|split]].
  - unfold abrir_pacote, no_servidor. rewrite Hsrv, Hinv.
    rewrite bool_decide_false by lia.
    set (gasto := com_pacotes (pacotes_disponiveis inventario - 1) inventario).
    set (s1 := coordenacao (set_inventario gasto) s).
    assert (Hinv1 : get_inventario jogador (redis s1) = Some gasto).
    { unfold get_inventario. simpl. rewrite Hid. apply lookup_insert_eq. }
    destruct (abertura_num_servidor_so amb eu jogador s1 servidor gasto)
      as (desfecho & s' & E & Hsuc & Hnovo & _); try done.
    rewrite E, Hsuc, Hnovo.
    rewrite publicar_cartas_levanta.
    2:{ simpl. intros Hv. apply (f_equal List.length) in Hv.
        rewrite length_app in Hv. simpl in Hv. lia. }
    simpl. eexists. split; [exact Hnovo|]. simpl. split; [reflexivity|].
    by rewrite length_app.
  - intros g g' j j' H. by apply simular_abertura_pacote_sorteios.
  - intros g resultado c transacao alvo quantidade H1 H2 H3 H4.
    by apply (passo_de_commit_acrescenta_sorteadas g resultado c transacao alvo quantidade).
Qed.

(** Player p1 opens the pack received on joining; the three cards are those
    of a generator that keeps drawing 0. *)
Lemma abertura_acrescenta_tres_cartas_sorteadas_witness :
  get_inventario "p1" (redis um_servidor_um_jogador) = Some (Inventario_novo "p1" 1) ∧
  ∃ atualizado,
    get_inventario "p1"
      (redis (abrir_pacote (ambiente "t1" 0) "A" "p1" um_servidor_um_jogador).2)
      = Some atualizado ∧
    cartas atualizado = [] ++ simular_abertura_pacote (λ _, 0%N) "p1".
Proof.
  assert (H : get_inventario "p1" (redis um_servidor_um_jogador)
              = Some (Inventario_novo "p1" 1)) by (vm_compute; reflexivity).
  split; [exact H|].
  destruct (abertura_acrescenta_tres_cartas_sorteadas (ambiente "t1" 0) "A" "p1"
              um_servidor_um_jogador servidor_a (Inventario_novo "p1" 1))
    as [(atualizado & H1 & H2 & _) _].
  - vm_compute; reflexivity.
  - reflexivity.
  - exact H.
  - reflexivity.
  - vm_compute; reflexivity.
  - vm_compute; discriminate.
  - exists atualizado. split; [exact H1|exact H2].
Defined.

(** ** A trade naming a card its owner does not hold *)

(** A prepare sent to a peer for a trade comes back without a vote only
    when the exchange did not go both ways or no server is deployed under
    the URL. *)
Lemma enviar_prepare_troca_sem_voto entrega url t d s s' :
  dados t = DadosTroca d →
  _enviar_prepare entrega url t "/inventario/troca/prepare" s = (Retorna None, s') →
  ¬ (entrega = Entregue ∧ is_Some (servidores s !! url)).
Proof.
  intros Hd E [-> [srv Hsrv]]. revert E.
  unfold _enviar_prepare, try_except, requests_post, raise_for_status.
  unfold mbind, mret, Acao_bind, Acao_ret, levantar. simpl. rewrite Hsrv.
  unfold executar_em, participante_prepare_troca_cartas.
  destruct (prepare_troca_cartas_voto t d
              {| self := servico_2pc srv; servico_coordenacao := redis s |} Hd)
    as (v & c' & E & _).
  rewrite E. simpl. done.
Qed.

(** C8, as the code has it.  With a server list that is not empty, a trade
    naming as card A a card that the stored inventory of player A does not
    contain: the first prepare, sent as the coordinator sends it, returns
    VOTE_ABORT, or returns no vote at all, which happens only when the
    first entry of the list is another server that the exchange does not
    reach; from the state that prepare leaves, the coordinator finalises
    with GLOBAL_ABORT and returns [False]; the endpoint answers 500; and
    the stored inventories are what they were. *)
Theorem troca_sem_carta_aborta
    (amb : Ambiente) (eu : string) (s : Sistema) (servidor : Servidor)
    (jogador_a jogador_b carta_a carta_b : string) (inv_a : Inventario) :
  servidores s !! eu = Some servidor →
  servidores_jogo (servico_2pc servidor) ≠ [] →
  get_inventario jogador_a (redis s) = Some inv_a →
  possui_carta carta_a inv_a = false →
  let svc := servico_2pc servidor in
  let detalhes :=
    {| id_jogador_a := jogador_a; id_carta_a := carta_a;
       id_jogador_b := jogador_b; id_carta_b := carta_b |} in
  ∃ desfecho s' v s_voto,
    iniciar_transacao_troca_cartas amb eu detalhes s = (Retorna desfecho, s') ∧
    primeiro_prepare_troca amb eu detalhes s = (Retorna v, s_voto) ∧
    match v with
    | Some voto_recebido => voto voto_recebido = VOTE_ABORT
    | None =>
        ∃ url,
          head (servidores_jogo svc) = Some url ∧
          url ≠ url_local svc ∧
          ¬ (rede_prepare amb 0 = Entregue ∧ is_Some (servidores s !! url))
    end ∧
    _finalizar_transacao_generica amb eu (uuid4 amb) GLOBAL_ABORT
      "/inventario/troca/commit_abort" s_voto = (Retorna (), s') ∧
    decisao_global desfecho = GLOBAL_ABORT ∧
    sucesso desfecho = false ∧
    inventarios (redis s') = inventarios (redis s) ∧
    iniciar_troca_cartas amb eu jogador_a jogador_b carta_a carta_b s
      = (HTTPException 500 "Falha na troca de cartas. Transação 2PC abortada.", s').
Proof.
  intros Hsrv Hlista Ha Hfalta svc detalhes.
  assert (Htotal : ∃ desfecho s' v s_voto,
    iniciar_transacao_troca_cartas amb eu detalhes s = (Retorna desfecho, s') ∧
    primeiro_prepare_troca amb eu detalhes s = (Retorna v, s_voto) ∧
    match v with
    | Some voto_recebido => voto voto_recebido = VOTE_ABORT
    | None =>
        ∃ url,
          head (servidores_jogo svc) = Some url ∧
          url ≠ url_local svc ∧
          ¬ (rede_prepare amb 0 = Entregue ∧ is_Some (servidores s !! url))
    end ∧
    _finalizar_transacao_generica amb eu (uuid4 amb) GLOBAL_ABORT
      "/inventario/troca/commit_abort" s_voto = (Retorna (), s') ∧
    decisao_global desfecho = GLOBAL_ABORT ∧
    sucesso desfecho = false ∧
    inventarios (redis s') = inventarios (redis s)).
  2:{ destruct Htotal as (desfecho & s' & v & s_voto & E & H1 & H2 & H3 & H4 & H5 & H6).
      exists desfecho, s', v, s_voto.
      split; [exact E|]. split; [exact H1|]. split; [exact H2|]. split; [exact H3|].
      split; [exact H4|]. split; [exact H5|]. split; [exact H6|].
      unfold iniciar_troca_cartas, no_servidor. rewrite Hsrv.
      fold detalhes. rewrite E, H5. reflexivity. }
  unfold iniciar_transacao_troca_cartas, primeiro_prepare_troca.
  destruct (ler_self_no_servidor eu s servidor Hsrv) as (sA & EA & HA & HrA).
  pose proof (mesmos_nos_em_no eu ler_self s) as HnA. rewrite EA in HnA. simpl in HnA.
  rewrite !(bind_passo _ _ _ _ _ EA). fold svc.
  set (t := {| id_transacao := uuid4 amb; coordenador_url := url_local svc;
               tipo_operacao := "troca_cartas"; status := "PREPARAR";
               dados := DadosTroca detalhes |}).
  assert (Hd : ∃ d, dados t = DadosTroca d) by (by eexists).
  assert (Htipo : bem_tipada t) by (right; split; [reflexivity|exact Hd]).
  change (uuid4 amb) with (id_transacao t).
  set (I0 := inventarios (redis s)).
  assert (HIA : inventarios (redis sA) = I0) by (by rewrite HrA).
  (* registration *)
  destruct (garante_com_inventarios I0 _ _ _ (guardar_no_coordenador eu t)
              (mesmos_inventarios_no (em_andamento_guardar t) eu
                 ltac:(apply RC_guardar; relacao_inventarios)) sA (conj HA HIA))
    as (uB & sB & EB & HB & HIB).
  pose proof (mesmos_nos_em_no eu (em_andamento_guardar t) sA) as HnB.
  rewrite EB in HnB. simpl in HnB.
  rewrite !(bind_passo _ _ _ _ _ EB).
  destruct (garante_com_inventarios I0 _ _ _
              (persistir_no_coordenador eu t (set_transacao t))
              (mesmos_inventarios_no (persistir (set_transacao t)) eu
                 ltac:(apply RC_persistir; relacao_inventarios)) sB (conj HB HIB))
    as (uC & sC & EC & HC & HIC).
  pose proof (mesmos_nos_em_no eu (persistir (set_transacao t)) sB) as HnC.
  rewrite EC in HnC. simpl in HnC.
  rewrite !(bind_passo _ _ _ _ _ EC).
  assert (HnsC : mesmos_nos s sC)
    by (eapply mesmos_nos_trans; [|exact HnC]; eapply mesmos_nos_trans; eauto).
  (* the first vote *)
  destruct (servidores_jogo svc) as [|u resto] eqn:Hl; [done|]. simpl.
  assert (Hvoto : ∃ v sD,
    (if decide (u = url_local svc)
     then em_no eu (_participante_prepare_troca_cartas_logica t) ≫= (λ v, mret (Some v))
     else _enviar_prepare (rede_prepare amb 0) u t "/inventario/troca/prepare") sC
      = (Retorna v, sD) ∧
    votou_commit v = false ∧
    match v with
    | Some voto_recebido => voto voto_recebido = VOTE_ABORT
    | None => True
    end ∧
    tem_em_cache eu t sD ∧ inventarios (redis sD) = I0).
  { case_decide as Hu.
    - destruct HC as (srvC & HsrvC & HcC).
      destruct (prepare_troca_cartas_sem_carta t detalhes (contexto_de srvC sC) inv_a)
        as (v & c' & Ev & Hv); try done.
      { unfold get_inventario in *. simpl. fold I0 in Ha. by rewrite HIC. }
      pose proof (prepare_troca_cartas_guarda t (contexto_de srvC sC)) as Hg.
      pose proof (RC_prepare_troca_cartas mesmos_inventarios
        ltac:(relacao_inventarios) ltac:(relacao_inventarios)
        ltac:(relacao_inventarios) t (contexto_de srvC sC)) as Hi.
      unfold participante_prepare_troca_cartas, RC, mesmos_inventarios in *.
      rewrite Ev in Hg, Hi. simpl in Hg, Hi.
      assert (Eno : em_no eu (_participante_prepare_troca_cartas_logica t) sC
                    = (Retorna v,
                       {| redis := servico_coordenacao c';
                          servidores :=
                            <[eu := {| NOME_SERVIDOR := NOME_SERVIDOR srvC;
                                       servico_2pc := self c' |}]> (servidores sC) |})).
      { rewrite (em_no_existente _ _ _ _ HsrvC). unfold executar_em.
        unfold contexto_de in Ev. by rewrite Ev. }
      rewrite (bind_passo _ _ _ _ _ Eno).
      eexists _, _. split; [reflexivity|]. simpl.
      rewrite Hv. repeat split; try done.
      + eexists. simpl. split; [by rewrite lookup_insert_eq|done].
      + congruence.
    - destruct (enviar_prepare_retorna (rede_prepare amb 0) u t
                  "/inventario/troca/prepare" sC) as (v & sD & E).
      pose proof (mantem_cache_enviar_prepare eu t (rede_prepare amb 0) u
                    "/inventario/troca/prepare" sC) as Hc.
      pose proof (RS_enviar_prepare mesmos_inventarios
        ltac:(relacao_inventarios) ltac:(relacao_inventarios)
        ltac:(relacao_inventarios) ltac:(relacao_inventarios)
        (rede_prepare amb 0) u t "/inventario/troca/prepare" sC) as Hi.
      rewrite E in Hc, Hi. simpl in Hc, Hi. specialize (Hc HC).
      unfold RS, mesmos_inventarios in Hi.
      exists v, sD. split; [done|].
      assert (Hv : match v with
                   | Some voto_recebido => voto voto_recebido = VOTE_ABORT
                   | None => True
                   end).
      { destruct v as [v|]; [|done].
        apply enviar_prepare_voto in E as (_ & srv & h & Hs & Hr & Ex).
        unfold rota_prepare in Hr. simpl in Hr. injection Hr as <-.
        unfold executar_em in Ex.
        destruct (prepare_troca_cartas_sem_carta t detalhes
                    {| self := servico_2pc srv; servico_coordenacao := redis sC |} inv_a)
          as (v' & c' & Ev & Hv); try done.
        { unfold get_inventario in *. simpl. fold I0 in Ha. by rewrite HIC. }
        unfold participante_prepare_troca_cartas in Ex. rewrite Ev in Ex.
        by injection Ex as -> _. }
      repeat split; try done; [|congruence].
      destruct v as [v|]; [|done]. simpl. rewrite Hv. done. }
  destruct Hvoto as (v & sD & ED & Hnao & Hv & HD & HID).
  assert (Hnenhum : v = None →
            u ≠ url_local svc ∧
            ¬ (rede_prepare amb 0 = Entregue ∧ is_Some (servidores s !! u))).
  { intros ->. revert ED. case_decide as Hu.
    - unfold mbind, Acao_bind.
      by destruct (em_no eu (_participante_prepare_troca_cartas_logica t) sC)
        as [[a|e] s1].
    - intros ED. split; [done|]. intros [Hrede Hno].
      apply (enviar_prepare_troca_sem_voto (rede_prepare amb 0) u t detalhes sC sD
               eq_refl ED).
      split; [done|]. by apply HnsC. }
  rewrite ED.
  match goal with |- context [(?laco ≫= ?resto_do_metodo) sC] =>
    assert (Elaco : laco sC = (Retorna (false, 0, [v]), sD))
      by (rewrite (bind_passo _ _ _ _ _ ED), Hnao; reflexivity);
    rewrite (bind_passo _ _ _ _ _ Elaco)
  end.
  change (uuid4 amb) with (id_transacao t).
  (* the decision *)
  destruct (garante_com_inventarios I0 _ _ _
              (finalizar_retorna amb eu t GLOBAL_ABORT "/inventario/troca/commit_abort"
                 Htipo)
              (RS_finalizar mesmos_inventarios
                 ltac:(relacao_inventarios) ltac:(relacao_inventarios)
                 ltac:(relacao_inventarios) ltac:(relacao_inventarios)
                 GLOBAL_ABORT
                 ltac:(relacao_inventarios) ltac:(relacao_inventarios)
                 amb eu (id_transacao t) "/inventario/troca/commit_abort")
              sD (conj HD HID))
    as ([] & sF & EF & _ & HIF).
  rewrite (bind_passo _ _ _ _ _ EF).
  exists (mkDesfecho false GLOBAL_ABORT [v]), sF, v, sD.
  split; [reflexivity|]. split; [reflexivity|].
  split; [|split; [exact EF|split; [reflexivity|split; [reflexivity|exact HIF]]]].
  destruct v as [v|]; [exact Hv|].
  exists u. split; [reflexivity|]. by apply Hnenhum.
Qed.

(** Player p2, who holds no card, offers CARTA-1001. *)
Lemma troca_sem_carta_aborta_witness :
  get_inventario "p2" (redis um_servidor_duas_cartas) = Some (Inventario_novo "p2" 0) ∧
  possui_carta "CARTA-1001" (Inventario_novo "p2" 0) = false ∧
  ∃ v s_voto s',
    primeiro_prepare_troca (ambiente "t1" 0) "A"
      {| id_jogador_a := "p2"; id_carta_a := "CARTA-1001";
         id_jogador_b := "p1"; id_carta_b := "CARTA-2002" |}
      um_servidor_duas_cartas = (Retorna v, s_voto) ∧
    iniciar_troca_cartas (ambiente "t1" 0) "A" "p2" "p1" "CARTA-1001" "CARTA-2002"
      um_servidor_duas_cartas
    = (HTTPException 500 "Falha na troca de cartas. Transação 2PC abortada.", s') ∧
    inventarios (redis s') = inventarios (redis um_servidor_duas_cartas).
Proof.
  split; [vm_compute; reflexivity|]. split; [reflexivity|].
  destruct (troca_sem_carta_aborta (ambiente "t1" 0) "A" um_servidor_duas_cartas
              servidor_a "p2" "p1" "CARTA-1001" "CARTA-2002" (Inventario_novo "p2" 0))
    as (desfecho & s' & v & s_voto & _ & H2 & _ & _ & _ & _ & H7 & H8).
  - vm_compute; reflexivity.
  - vm_compute; discriminate.
  - vm_compute; reflexivity.
  - reflexivity.
  - exists v, s_voto, s'. split; [exact H2|]. split; [exact H8|exact H7].
Defined.

(** C8, as stated, fails.  Player p2 holds no card and offers CARTA-1001.
    On a server whose list names another server first, with that server
    out of reach, the first prepare returns no vote, so no prepare returns
    VOTE_ABORT; the trade is aborted all the same.  On a server started
    without a list, nobody is asked, and the endpoint answers 200. *)
Lemma troca_sem_carta_sem_voto_de_abort :
  let detalhes :=
    {| id_jogador_a := "p2"; id_carta_a := "CARTA-1001";
       id_jogador_b := "p1"; id_carta_b := "CARTA-2002" |} in
  get_inventario "p2" (redis dois_servidores_duas_cartas)
    = Some (Inventario_novo "p2" 0) ∧
  get_inventario "p2" (redis sem_lista_duas_cartas) = Some (Inventario_novo "p2" 0) ∧
  possui_carta "CARTA-1001" (Inventario_novo "p2" 0) = false ∧
  servidores_jogo <$> (servico_2pc <$> servidores dois_servidores_duas_cartas !! "A")
    = Some ["B"; "A"] ∧
  (primeiro_prepare_troca (ambiente_sem_rede "t1" 0) "A" detalhes
     dois_servidores_duas_cartas).1 = Retorna None ∧
  (iniciar_troca_cartas (ambiente_sem_rede "t1" 0) "A" "p2" "p1" "CARTA-1001" "CARTA-2002"
     dois_servidores_duas_cartas).1
    = HTTPException 500 "Falha na troca de cartas. Transação 2PC abortada." ∧
  servidores_jogo <$> (servico_2pc <$> servidores sem_lista_duas_cartas !! "A")
    = Some [] ∧
  (primeiro_prepare_troca (ambiente "t1" 0) "A" detalhes sem_lista_duas_cartas).1
    = Retorna None ∧
  match retorno (iniciar_transacao_troca_cartas (ambiente "t1" 0) "A" detalhes
                   sem_lista_duas_cartas) with
  | Retorna desfecho =>
      sucesso desfecho = true ∧ decisao_global desfecho = GLOBAL_COMMIT
  | Levanta _ => False
  end ∧
  (iniciar_troca_cartas (ambiente "t1" 0) "A" "p2" "p1" "CARTA-1001" "CARTA-2002"
     sem_lista_duas_cartas).1
    = HTTP_200 "Troca de cartas concluída com sucesso!".
Proof. vm_compute. repeat split. Qed.


(** Player p1 offers CARTA-1001 for CARTA-2002 of p2, who holds no card. *)
Lemma troca_confirma_sse_respondem_e_possuem_witness :
  servidores um_servidor_duas_cartas !! "A" = Some servidor_a ∧
  ∃ desfecho s',
    iniciar_transacao_troca_cartas (ambiente "t1" 0) "A" troca_exemplo
      um_servidor_duas_cartas = (Retorna desfecho, s') ∧
    (sucesso desfecho = false →
     inventarios (redis s') = inventarios (redis um_servidor_duas_cartas)).
Proof.
  assert (H : servidores um_servidor_duas_cartas !! "A" = Some servidor_a)
    by (vm_compute; reflexivity).
  split; [exact H|].
  destruct (troca_confirma_sse_respondem_e_possuem (ambiente "t1" 0) "A" troca_exemplo
              um_servidor_duas_cartas servidor_a H)
    as (desfecho & s' & H1 & _ & H3).
  exists desfecho, s'. split; [exact H1|exact H3].
Defined.

(** The same trade, at the endpoint. *)
Lemma iniciar_troca_cartas_resposta_witness :
  servidores um_servidor_duas_cartas !! "A" = Some servidor_a ∧
  ∃ s',
    iniciar_troca_cartas (ambiente "t1" 0) "A" "p1" "p2" "CARTA-1001" "CARTA-2002"
      um_servidor_duas_cartas
    = (HTTPException 500 "Falha na troca de cartas. Transação 2PC abortada.", s') ∧
    inventarios (redis s') = inventarios (redis um_servidor_duas_cartas).
Proof.
  assert (H : servidores um_servidor_duas_cartas !! "A" = Some servidor_a)
    by (vm_compute; reflexivity).
  split; [exact H|].
  destruct (iniciar_troca_cartas_resposta (ambiente "t1" 0) "A"
              "p1" "p2" "CARTA-1001" "CARTA-2002" um_servidor_duas_cartas servidor_a H)
    as (s' & H1 & H2).
  exists s'. split; [exact H1|]. apply H2. vm_compute; reflexivity.
Defined.


(** ** Opens that overlap, and the cards *)

(** X2.  Two opens for the same player, at two servers, that overlap: both
    read the inventory with its one pack and write it back with the pack
    taken; the first is committed, and the player holds the new cards with
    no pack left; then the second, which cannot reach its peer, is aborted
    and stores the inventory it read at the start, with the pack put back.
    The cards of the committed open are gone, and the stock stays as the
    committed open left it. *)
Theorem abertura_sobreposta_apaga_cartas :
  let s0 := dois_servidores_um_jogador in
  let s1 := (servir (take 6 agenda_que_apaga) duas_aberturas s0).2 in
  let '(fim, s2) := servir agenda_que_apaga duas_aberturas s0 in
  get_inventario "p1" (redis s0) = Some (Inventario_novo "p1" 1) ∧
  estoque s0 = 50 ∧
  pacotes_de "p1" (redis s1) = 0 ∧
  List.length (cartas_de "p1" s1) = 6%nat ∧
  estoque s1 = 48 ∧
  ec_onde <$> fim
    = [Respondida erro_interno;
       Respondida (HTTPException 500
                     "Falha na abertura do pacote. Transação 2PC abortada.")] ∧
  get_inventario "p1" (redis s2) = Some (Inventario_novo "p1" 1) ∧
  estoque s2 = 48.
Proof. vm_compute. done. Qed.
